(** * CollabCanvas: the undo/redo log and the snapshot reconciler

    A shallow embedding of [src/utils/commands.ts] (the reversible commands
    and [CommandHistory]) and of the intent and reconciliation code of
    [src/contexts/CanvasContext.tsx], followed by the properties the
    specification states about them.

    Conventions of the embedding.
    - A JavaScript number is a rational or one of [NaN], [Infinity],
      [-Infinity]; IEEE rounding and the sign of zero are outside the model.
    - A JavaScript object is the list of its own keys in insertion order,
      each with its value; a key can hold [undefined].
    - An array that the code passes around by reference carries its heap
      address ([Arr]), so that "the same array" and "an equal array" differ.
    - [Date.now()] and [generateId()] are inputs of the step that calls
      them; a step reads the clock once.
    - An [async] method is cut at its [await]: the part before it is one
      step, the continuation another, taken when the promise settles. *)

From Stdlib Require Import List String Bool ZArith QArith Qcanon Lia.
From Stdlib Require DecimalString.
Import ListNotations.
Local Open Scope string_scope.
Local Open Scope list_scope.
Set Warnings "-register-all".

(** ** JavaScript values *)

Module Js.

(** Numbers. *)
Inductive num : Type :=
| NaN
| NegInf
| Fin (q : Qc)
| PosInf.

Definition of_Z (z : Z) : num := Fin (Q2Qc (inject_Z z)).

Definition Qc_leb (a b : Qc) : bool := Qle_bool (this a) (this b).

(** [a + b] *)
Definition add (a b : num) : num :=
  match a, b with
  | NaN, _ | _, NaN => NaN
  | PosInf, NegInf | NegInf, PosInf => NaN
  | PosInf, _ | _, PosInf => PosInf
  | NegInf, _ | _, NegInf => NegInf
  | Fin p, Fin q => Fin (p + q)%Qc
  end.

(** [a - b] *)
Definition sub (a b : num) : num :=
  match a, b with
  | NaN, _ | _, NaN => NaN
  | PosInf, PosInf | NegInf, NegInf => NaN
  | PosInf, _ | _, NegInf => PosInf
  | NegInf, _ | _, PosInf => NegInf
  | Fin p, Fin q => Fin (p - q)%Qc
  end.

(** [a / 2] *)
Definition half (a : num) : num :=
  match a with
  | Fin p => Fin (p / Q2Qc 2)%Qc
  | _ => a
  end.

(** [Math.min(a, b)] and [Math.max(a, b)]: [NaN] if either argument is. *)
Definition min (a b : num) : num :=
  match a, b with
  | NaN, _ | _, NaN => NaN
  | NegInf, _ | _, NegInf => NegInf
  | PosInf, c | c, PosInf => c
  | Fin p, Fin q => if Qc_leb p q then Fin p else Fin q
  end.

Definition max (a b : num) : num :=
  match a, b with
  | NaN, _ | _, NaN => NaN
  | PosInf, _ | _, PosInf => PosInf
  | NegInf, c | c, NegInf => c
  | Fin p, Fin q => if Qc_leb p q then Fin q else Fin p
  end.

(** [Math.max(...xs)]; [-Infinity] on the empty list. *)
Definition max_list (xs : list num) : num := fold_left max xs NegInf.

(** Values. *)
Inductive JsVal : Type :=
| VUndef
| VNull
| VBool (b : bool)
| VNum (n : num)
| VStr (s : string)
| VArr (elems : list JsVal)
| VObj (props : list (string * JsVal)).

Definition JsObject : Type := list (string * JsVal).

(** Truthiness, as [||] and [if] read it. *)
Definition truthy (v : JsVal) : bool :=
  match v with
  | VUndef | VNull => false
  | VBool b => b
  | VNum NaN => false
  | VNum (Fin q) => negb (Qeq_bool (this q) 0)
  | VNum _ => true
  | VStr s => negb (String.eqb s "")
  | VArr _ | VObj _ => true
  end.

(** [a || b] *)
Definition or_else (a b : JsVal) : JsVal := if truthy a then a else b.

(** [o[k]]: [undefined] when [o] has no key [k]. *)
Fixpoint get (k : string) (o : JsObject) : JsVal :=
  match o with
  | [] => VUndef
  | (k', v) :: rest => if String.eqb k k' then v else get k rest
  end.

(** [o.hasOwnProperty(k)] *)
Fixpoint has (k : string) (o : JsObject) : bool :=
  match o with
  | [] => false
  | (k', _) :: rest => String.eqb k k' || has k rest
  end.

(** [o[k] = v]: an existing key keeps its place, a new one goes last. *)
Fixpoint set (k : string) (v : JsVal) (o : JsObject) : JsObject :=
  match o with
  | [] => [(k, v)]
  | (k', v') :: rest =>
      if String.eqb k k' then (k', v) :: rest else (k', v') :: set k v rest
  end.

(** [{...o, ...p}] *)
Definition spread (o p : JsObject) : JsObject :=
  fold_left (fun acc kv => set (fst kv) (snd kv) acc) p o.

(** [Object.keys(o)] *)
Definition keys (o : JsObject) : list string := map fst o.

(** The properties that hold a value: what [JSON.stringify] writes and
    [removeUndefinedValues] keeps of an object. *)
Definition defined_props (o : JsObject) : JsObject :=
  filter (fun kv => match snd kv with VUndef => false | _ => true end) o.

(** [o'] has the keys of [o], in their order, then possibly more, and has
    no repeated key if [o] has none: what assignments to an object do. *)
Definition grows (o o' : JsObject) : Prop :=
  (exists ext, keys o' = keys o ++ ext) /\ (NoDup (keys o) -> NoDup (keys o')).

(** Two objects with the same properties: the same keys, in whatever
    order, each holding the same value. *)
Definition same_properties (a b : JsObject) : Prop :=
  (forall k, has k a = has k b) /\ (forall k, get k a = get k b).

(** A field read at the type number or string that the TypeScript
    interface gives it. *)
Definition as_num (v : JsVal) : num :=
  match v with VNum n => n | _ => NaN end.

Definition as_str (v : JsVal) : string :=
  match v with VStr s => s | _ => "" end.

End Js.

(** ** The commands of [src/utils/commands.ts] *)

Module Commands.
Import Js.

(** Modelled from the spec: the interface [CanvasObject] of [src/types],
    which the sources import but which is not among them.  Its required
    attributes are [id] and [createdBy] (strings), [type] (one of
    rectangle, circle, ellipse, polygon, line, text, image, group) and the
    numbers [x], [y], [width], [height], [zIndex], [createdAt] and
    [lastModified]; the others ([x2], [y2], [fill], [nickname], [shadow],
    [groupedObjects], ...) are optional.  An object is kept as the JavaScript
    object it is, and a field is read at its declared type. *)
Definition CanvasObject : Type := JsObject.

(** [Partial<CanvasObject>] *)
Definition Partial : Type := JsObject.

Definition id (obj : CanvasObject) : string := as_str (get "id" obj).
Definition type (obj : CanvasObject) : string := as_str (get "type" obj).
Definition x (obj : CanvasObject) : num := as_num (get "x" obj).
Definition y (obj : CanvasObject) : num := as_num (get "y" obj).
Definition width (obj : CanvasObject) : num := as_num (get "width" obj).
Definition height (obj : CanvasObject) : num := as_num (get "height" obj).

(** [obj.id === i] *)
Definition has_id (i : string) (obj : CanvasObject) : bool :=
  String.eqb (id obj) i.

(** The function handed to [updateLocalState].  [None] stands for
    [return prev]: the very array it was given; [Some l] is a new array. *)
Definition Updater : Type := list CanvasObject -> option (list CanvasObject).

Definition apply_updater (u : Updater) (prev : list CanvasObject)
  : list CanvasObject :=
  match u prev with Some next => next | None => prev end.

(** What a command does, in order, between two [await]s: it updates the
    local state and calls the store helpers it was constructed with. *)
Inductive Effect : Type :=
| UpdateLocalState (u : Updater)
| AddToFirestore (obj : CanvasObject)
| RemoveFromFirestore (i : string)
| UpdateInFirestore (i : string) (updates : Partial).

(** The effects up to the next [await], given the reading of [Date.now()]. *)
Definition Stage : Type := num -> list Effect.

Module AddObjectCommand.
Definition execute (object : CanvasObject) : Stage := fun _ =>
  [ UpdateLocalState (fun prev =>
      match find (has_id (id object)) prev with
      | Some _ => None
      | None => Some (prev ++ [object])
      end);
    AddToFirestore object ].

Definition undo (object : CanvasObject) : Stage := fun _ =>
  [ UpdateLocalState (fun prev =>
      Some (filter (fun obj => negb (has_id (id object) obj)) prev));
    RemoveFromFirestore (id object) ].
End AddObjectCommand.

Module DeleteObjectCommand.
Definition execute (object : CanvasObject) : Stage := fun _ =>
  [ UpdateLocalState (fun prev =>
      Some (filter (fun obj => negb (has_id (id object) obj)) prev));
    RemoveFromFirestore (id object) ].

Definition undo (object : CanvasObject) : Stage := fun _ =>
  [ UpdateLocalState (fun prev =>
      match find (has_id (id object)) prev with
      | Some _ => None
      | None => Some (prev ++ [object])
      end);
    AddToFirestore object ].
End DeleteObjectCommand.

Module UpdateObjectCommand.
(** The members that [execute] and [undo] read; the others ([timestamp],
    [position], [changeDetails], ...) only feed [getDescription]. *)
Record t : Type := make {
  objectId : string;
  updates : Partial;
  previousState : Partial
}.

(** [{ ...obj, ...fields, lastModified: Date.now() }] *)
Definition patched (fields : Partial) (now : num) (obj : CanvasObject)
  : CanvasObject :=
  set "lastModified" (VNum now) (spread obj fields).

(** The functions that [execute] and [undo] map over the array. *)
Definition executed (c : t) (now : num) (obj : CanvasObject) : CanvasObject :=
  if has_id (objectId c) obj then patched (updates c) now obj else obj.

Definition undone (c : t) (now : num) (obj : CanvasObject) : CanvasObject :=
  if has_id (objectId c) obj then patched (previousState c) now obj else obj.

Definition execute (c : t) : Stage := fun now =>
  [ UpdateLocalState (fun prev => Some (map (executed c now) prev));
    UpdateInFirestore (objectId c) (updates c) ].

Definition undo (c : t) : Stage := fun now =>
  [ UpdateLocalState (fun prev => Some (map (undone c now) prev));
    UpdateInFirestore (objectId c) (previousState c) ].
End UpdateObjectCommand.

Module UpdateMultipleObjectsCommand.
(** [Promise.all(this.commands.map(cmd => cmd.execute()))]: every
    [execute] runs up to its own [await] before the first one resumes. *)
Definition execute (commands : list UpdateObjectCommand.t) : Stage :=
  fun now => flat_map (fun cmd => UpdateObjectCommand.execute cmd now) commands.

(** The loop from the last command to the first, one [await] each. *)
Definition undo (commands : list UpdateObjectCommand.t) : list Stage :=
  map UpdateObjectCommand.undo (rev commands).
End UpdateMultipleObjectsCommand.

Module CreateGroupCommand.
Definition execute (groupObject : CanvasObject) : Stage := fun _ =>
  [ UpdateLocalState (fun prev =>
      match find (has_id (id groupObject)) prev with
      | Some _ => None
      | None => Some (prev ++ [groupObject])
      end);
    AddToFirestore groupObject ].

Definition undo (groupObject : CanvasObject) : Stage := fun _ =>
  [ UpdateLocalState (fun prev =>
      Some (filter (fun obj => negb (has_id (id groupObject) obj)) prev));
    RemoveFromFirestore (id groupObject) ].
End CreateGroupCommand.

(** The classes that implement [Command]. *)
Inductive Command : Type :=
| AddObject (object : CanvasObject)
| DeleteObject (object : CanvasObject)
| UpdateObject (c : UpdateObjectCommand.t)
| UpdateMultipleObjects (commands : list UpdateObjectCommand.t)
| CreateGroup (groupObject : CanvasObject) (groupedObjectIds : list string).

(** [command.execute()] and [command.undo()] as the stages their [await]s
    cut them into. *)
Definition execute (command : Command) : list Stage :=
  match command with
  | AddObject object => [AddObjectCommand.execute object]
  | DeleteObject object => [DeleteObjectCommand.execute object]
  | UpdateObject c => [UpdateObjectCommand.execute c]
  | UpdateMultipleObjects commands =>
      [UpdateMultipleObjectsCommand.execute commands]
  | CreateGroup groupObject _ => [CreateGroupCommand.execute groupObject]
  end.

Definition undo (command : Command) : list Stage :=
  match command with
  | AddObject object => [AddObjectCommand.undo object]
  | DeleteObject object => [DeleteObjectCommand.undo object]
  | UpdateObject c => [UpdateObjectCommand.undo c]
  | UpdateMultipleObjects commands =>
      UpdateMultipleObjectsCommand.undo commands
  | CreateGroup groupObject _ => [CreateGroupCommand.undo groupObject]
  end.

(** The local state after the effects of one stage, and after a whole
    call whose stages read the clock values [clock 0], [clock 1], ... *)
Definition local_effect (e : Effect) (objs : list CanvasObject)
  : list CanvasObject :=
  match e with
  | UpdateLocalState u => apply_updater u objs
  | _ => objs
  end.

Definition local_stage (effects : list Effect) (objs : list CanvasObject)
  : list CanvasObject :=
  fold_left (fun acc e => local_effect e acc) effects objs.

Fixpoint local_run (stages : list Stage) (clock : nat -> num) (n : nat)
  (objs : list CanvasObject) : list CanvasObject :=
  match stages with
  | [] => objs
  | stage :: rest => local_run rest clock (S n) (local_stage (stage (clock n)) objs)
  end.

(** What a batch makes of one object: all the [execute]s at one clock
    reading, and the [undo]s of the commands [cs], in that order, the first
    one at [clock n]. *)
Definition all_executed (cs : list UpdateObjectCommand.t) (now : num)
  (obj : CanvasObject) : CanvasObject :=
  fold_left (fun o c => UpdateObjectCommand.executed c now o) cs obj.

Fixpoint all_undone (cs : list UpdateObjectCommand.t) (clock : nat -> num)
  (n : nat) (obj : CanvasObject) : CanvasObject :=
  match cs with
  | [] => obj
  | c :: more => all_undone more clock (S n) (UpdateObjectCommand.undone c (clock n) obj)
  end.

(** Some command of the batch addresses [obj]. *)
Definition touches (cs : list UpdateObjectCommand.t) (obj : CanvasObject) : bool :=
  existsb (fun c => has_id (UpdateObjectCommand.objectId c) obj) cs.

(** Some command of the batch addresses [obj] and carries the key [k]. *)
Definition writes (cs : list UpdateObjectCommand.t) (obj : CanvasObject)
  (k : string) : bool :=
  existsb (fun c => has_id (UpdateObjectCommand.objectId c) obj
                    && has k (UpdateObjectCommand.updates c)) cs.

(** The ids that a command addresses. *)
Definition targets (command : Command) : list string :=
  match command with
  | AddObject object => [id object]
  | DeleteObject object => [id object]
  | UpdateObject c => [UpdateObjectCommand.objectId c]
  | UpdateMultipleObjects commands => map UpdateObjectCommand.objectId commands
  | CreateGroup groupObject _ => [id groupObject]
  end.

(** Neither payload of the command carries the key [id]. *)
Definition keeps_id (c : UpdateObjectCommand.t) : bool :=
  negb (has "id" (UpdateObjectCommand.updates c))
  && negb (has "id" (UpdateObjectCommand.previousState c)).

Definition leaves_id (command : Command) : bool :=
  match command with
  | UpdateObject c => keeps_id c
  | UpdateMultipleObjects commands => forallb keeps_id commands
  | _ => true
  end.

(** The objects whose id is none of [ids], in their order. *)
Definition others (ids : list string) (objs : list CanvasObject)
  : list CanvasObject :=
  filter (fun obj => negb (existsb (String.eqb (id obj)) ids)) objs.

(** [await command.execute()], then at once [await command.undo()], seen
    from the local state; each call reads its own clock. *)
Definition execute_then_undo (command : Command) (clockE clockU : nat -> num)
  (objs : list CanvasObject) : list CanvasObject :=
  local_run (undo command) clockU 0 (local_run (execute command) clockE 0 objs).

(** [after] is [before] with [lastModified] set to [now]: every key reads
    the same, and the properties that hold a value are the same, in the same
    order. *)
Definition restored_at (now : num) (before after : CanvasObject) : Prop :=
  (forall k, get k after = get k (set "lastModified" (VNum now) before))
  /\ defined_props after = defined_props (set "lastModified" (VNum now) before).

(** An object as the store holds it: no key twice, and a [lastModified]. *)
Definition well_formed (obj : CanvasObject) : Prop :=
  NoDup (keys obj) /\ has "lastModified" obj = true.

End Commands.

(** ** [CommandHistory] *)

Module CommandHistory.
Local Open Scope Z_scope.

Section Log.
Variable C : Type.

Record t : Type := make {
  history : list C;
  currentIndex : Z
}.

Definition maxHistorySize : Z := 100.

(** [new CommandHistory()] *)
Definition empty : t := make [] (-1).

(** [this.history.length] *)
Definition length (h : t) : Z := Z.of_nat (List.length (history h)).

Definition canUndo (h : t) : bool := currentIndex h >=? 0.

Definition canRedo (h : t) : bool := currentIndex h <? length h - 1.

(** [l.slice(0, e)]: a negative [e] counts from the end. *)
Definition slice0 (e : Z) (l : list C) : list C :=
  let len := Z.of_nat (List.length l) in
  firstn (Z.to_nat (if e <? 0 then Z.max (len + e) 0 else e)) l.

(** [this.history[this.currentIndex]] *)
Definition current (h : t) : option C :=
  if currentIndex h <? 0 then None
  else nth_error (history h) (Z.to_nat (currentIndex h)).

(** [executeCommand] up to its [await command.execute()]. *)
Definition executeCommand (command : C) (h : t) : t :=
  let history1 :=
    if currentIndex h <? length h - 1
    then slice0 (currentIndex h + 1) (history h)
    else history h in
  let history2 := history1 ++ [command] in
  let index2 := currentIndex h + 1 in
  if Z.of_nat (List.length history2) >? maxHistorySize
  then make (tl history2) (index2 - 1)
  else make history2 index2.

(** How [undo] and [redo] reach their [await]: not at all ([return
    false]), with the command whose promise they wait for, or with a
    [TypeError] because the slot read holds no command. *)
Inductive Started : Type :=
| ReturnsFalse
| Awaits (command : C)
| Throws.

Definition undo_start (h : t) : Started :=
  if canUndo h
  then match current h with Some command => Awaits command | None => Throws end
  else ReturnsFalse.

(** [this.currentIndex--], once [command.undo()] is fulfilled. *)
Definition undo_finish (h : t) : t := make (history h) (currentIndex h - 1).

(** [this.currentIndex++] comes before the command is read. *)
Definition redo_start (h : t) : t * Started :=
  if canRedo h
  then let h' := make (history h) (currentIndex h + 1) in
       (h', match current h' with Some command => Awaits command | None => Throws end)
  else (h, ReturnsFalse).

Definition clear (h : t) : t := make [] (-1).

(** One call of a public method, run to completion; [ok] tells whether
    the promise of the command it awaits is fulfilled or rejected. *)
Inductive Call : Type :=
| ExecuteCommand (command : C) (ok : bool)
| Undo (ok : bool)
| Redo (ok : bool)
| Clear.

Definition call (h : t) (c : Call) : t :=
  match c with
  | ExecuteCommand command _ => executeCommand command h
  | Undo ok =>
      match undo_start h with
      | Awaits _ => if ok then undo_finish h else h
      | _ => h
      end
  | Redo _ => fst (redo_start h)
  | Clear => clear h
  end.

Definition calls (h : t) (cs : list Call) : t := fold_left call cs h.

(** The command an [undo()] issued now would reverse. *)
Definition undo_target (h : t) : option C :=
  match undo_start h with Awaits command => Some command | _ => None end.

(** A call of [undo]. *)
Definition is_undo (c : Call) : bool :=
  match c with Undo _ => true | _ => false end.

(** The commands that a sequence of calls commits, in order. *)
Fixpoint committed (cs : list Call) : list C :=
  match cs with
  | [] => []
  | ExecuteCommand command _ :: more => command :: committed more
  | _ :: more => committed more
  end.

(** The invariant of the data model: the cursor is [-1] or an index of
    the log, and the log respects its cap. *)
Definition log_ok (h : t) : Prop :=
  -1 <= currentIndex h < length h /\ length h <= maxHistorySize.

(** The entries up to and including the cursor. *)
Definition done_part (h : t) : list C :=
  firstn (Z.to_nat (currentIndex h + 1)) (history h).

(** The guard of the eviction in [executeCommand], once the entries
    after the cursor are gone and the new command is pushed. *)
Definition evicts (h : t) : bool :=
  Z.of_nat (List.length (done_part h)) + 1 >? maxHistorySize.

(** The commands that [n] calls of [undo] reverse, in that order, each
    promise being fulfilled; the list stops where [undo] returns false. *)
Fixpoint undone_commands (n : nat) (h : t) : list C :=
  match n with
  | O => []
  | S m =>
      match undo_target h with
      | Some command => command :: undone_commands m (call h (Undo true))
      | None => []
      end
  end.

(** [n] commits, every [execute()] fulfilled, and [n] fulfilled [undo]s. *)
Definition commits (commands : list C) : list Call :=
  map (fun command => ExecuteCommand command true) commands.

Definition undos (n : nat) : list Call := repeat (Undo true) n.
End Log.

Arguments make {C}.
Arguments history {C}.
Arguments currentIndex {C}.
Arguments empty {C}.
Arguments length {C}.
Arguments canUndo {C}.
Arguments canRedo {C}.
Arguments slice0 {C}.
Arguments current {C}.
Arguments executeCommand {C}.
Arguments ReturnsFalse {C}.
Arguments Awaits {C}.
Arguments Throws {C}.
Arguments undo_start {C}.
Arguments undo_finish {C}.
Arguments redo_start {C}.
Arguments clear {C}.
Arguments ExecuteCommand {C}.
Arguments Undo {C}.
Arguments Redo {C}.
Arguments Clear {C}.
Arguments call {C}.
Arguments calls {C}.
Arguments undo_target {C}.
Arguments is_undo {C}.
Arguments committed {C}.
Arguments log_ok {C}.
Arguments done_part {C}.
Arguments evicts {C}.
Arguments undone_commands {C}.
Arguments commits {C}.
Arguments undos {C}.

End CommandHistory.

(** ** The session of [src/contexts/CanvasContext.tsx] *)

Module Canvas.
Import Js Commands.

(** An array with the address it lives at. *)
Record Arr : Type := mkArr {
  ref : nat;
  items : list CanvasObject
}.

(** The calls that reach Firestore: [setDoc(ref, data)],
    [setDoc(ref, data, { merge: true })] and [deleteDoc(ref)], on the
    document [canvases/default/objects/<i>]. *)
Inductive StoreCall : Type :=
| SetDoc (i : string) (data : JsVal)
| SetDocMerge (i : string) (data : JsVal)
| DeleteDoc (i : string).

Fixpoint removeUndefinedValues (obj : JsVal) : JsVal :=
  match obj with
  | VArr elems => VArr (map removeUndefinedValues elems)
  | VObj props =>
      VObj ((fix cleaned (l : list (string * JsVal)) : list (string * JsVal) :=
               match l with
               | [] => []
               | (key, VUndef) :: rest => cleaned rest
               | (key, v) :: rest => (key, removeUndefinedValues v) :: cleaned rest
               end) props)
  | _ => obj
  end.

(** No property of the value, at any depth, holds [undefined].  An
    element of an array may: [removeUndefinedValues] maps over an array and
    keeps its length. *)
Fixpoint clean (v : JsVal) : bool :=
  match v with
  | VArr elems => forallb clean elems
  | VObj props =>
      forallb (fun kv => match snd kv with
                         | VUndef => false
                         | _ => clean (snd kv)
                         end) props
  | _ => true
  end.

(** [removeUndefinedValues] at an object, read back as an object. *)
Definition cleaned_object (o : JsObject) : JsObject :=
  match removeUndefinedValues (VObj o) with VObj props => props | _ => [] end.

(** What is left of an intent, or of [undo]/[redo], once its promise
    settles. *)
Inductive Continuation : Type :=
| AfterExecuteCommand (clear : bool)
| AfterUndo
| AfterRedo
| AfterNothing.

(** A suspended call: the stages its command has not run yet, then the
    continuation. *)
Record Pending : Type := mkPending {
  continuation : Continuation;
  rest : list Stage
}.

(** The provider's cells.  [objects] stands for the state cell and for
    [objectsRef.current], which [updateObjectsState], [setObjects] and the
    effect on [[objects]] keep equal to it.  The cells [canUndo], [canRedo],
    [drawingMode] and [tempLineStart] are written for the interface only and
    read by no intent; they are left out. *)
Record State : Type := mkState {
  objects : Arr;
  selectedId : option string;
  selectedIds : list string;
  commandHistoryRef : CommandHistory.t Command;
  isExecutingCommandRef : bool;
  currentUser : option string;
  firestore : list StoreCall;
  pending : list Pending;
  heap : nat
}.

Definition with_objects (a : Arr) (s : State) : State :=
  mkState a (selectedId s) (selectedIds s) (commandHistoryRef s)
    (isExecutingCommandRef s) (currentUser s) (firestore s) (pending s) (heap s).

Definition with_selection (i : option string) (ids : list string) (s : State)
  : State :=
  mkState (objects s) i ids (commandHistoryRef s)
    (isExecutingCommandRef s) (currentUser s) (firestore s) (pending s) (heap s).

Definition with_history (h : CommandHistory.t Command) (s : State) : State :=
  mkState (objects s) (selectedId s) (selectedIds s) h
    (isExecutingCommandRef s) (currentUser s) (firestore s) (pending s) (heap s).

Definition with_executing (b : bool) (s : State) : State :=
  mkState (objects s) (selectedId s) (selectedIds s) (commandHistoryRef s)
    b (currentUser s) (firestore s) (pending s) (heap s).

Definition with_firestore (calls : list StoreCall) (s : State) : State :=
  mkState (objects s) (selectedId s) (selectedIds s) (commandHistoryRef s)
    (isExecutingCommandRef s) (currentUser s) calls (pending s) (heap s).

Definition with_pending (ps : list Pending) (s : State) : State :=
  mkState (objects s) (selectedId s) (selectedIds s) (commandHistoryRef s)
    (isExecutingCommandRef s) (currentUser s) (firestore s) ps (heap s).

Definition with_heap (n : nat) (s : State) : State :=
  mkState (objects s) (selectedId s) (selectedIds s) (commandHistoryRef s)
    (isExecutingCommandRef s) (currentUser s) (firestore s) (pending s) n.

(** A new array holding [l]. *)
Definition alloc (l : list CanvasObject) (s : State) : Arr * State :=
  (mkArr (heap s) l, with_heap (S (heap s)) s).

(** [updateObjectsState(updater)] *)
Definition updateObjectsState (updater : Updater) (s : State) : State :=
  match updater (items (objects s)) with
  | None => s
  | Some next => let (a, s') := alloc next s in with_objects a s'
  end.

Definition addToFirestore (obj : CanvasObject) (s : State) : State :=
  with_firestore
    (firestore s ++ [SetDoc (id obj) (removeUndefinedValues (VObj obj))]) s.

Definition removeFromFirestore (i : string) (s : State) : State :=
  with_firestore (firestore s ++ [DeleteDoc i]) s.

Definition updateInFirestore (now : num) (i : string) (updates : Partial)
  (s : State) : State :=
  match find (has_id i) (items (objects s)) with
  | Some currentObject =>
      let cleanedUpdates := cleaned_object updates in
      let updatedObject :=
        set "lastModified" (VNum now) (spread currentObject cleanedUpdates) in
      with_firestore
        (firestore s ++ [SetDocMerge i (removeUndefinedValues (VObj updatedObject))]) s
  | None => s
  end.

Definition run_effect (now : num) (s : State) (e : Effect) : State :=
  match e with
  | UpdateLocalState u => updateObjectsState u s
  | AddToFirestore obj => addToFirestore obj s
  | RemoveFromFirestore i => removeFromFirestore i s
  | UpdateInFirestore i updates => updateInFirestore now i updates s
  end.

Definition run_stage (now : num) (stage : Stage) (s : State) : State :=
  fold_left (run_effect now) (stage now) s.

(** Run a call's stages up to the first [await] and park the rest. *)
Definition suspend (k : Continuation) (stages : list Stage) (now : num)
  (s : State) : State :=
  match stages with
  | [] => with_pending (pending s ++ [mkPending k []]) s
  | stage :: more =>
      let s' := run_stage now stage s in
      with_pending (pending s' ++ [mkPending k more]) s'
  end.

(** [await commandHistoryRef.current.executeCommand(command)] inside the
    [try] of an intent, up to the [await]. *)
Definition commit (command : Command) (clear : bool) (now : num) (s : State)
  : State :=
  let s' := with_history
              (CommandHistory.executeCommand command (commandHistoryRef s)) s in
  suspend (AfterExecuteCommand clear) (execute command) now s'.

Definition clearSelection (s : State) : State := with_selection None [] s.

Definition selectObject (i : option string) (s : State) : State :=
  with_selection i (match i with Some i' => [i'] | None => [] end) s.

Definition selectMultiple (ids : list string) (s : State) : State :=
  with_selection (match ids with [i] => Some i | _ => None end) ids s.

Definition addToSelection (i : string) (s : State) : State :=
  if existsb (String.eqb i) (selectedIds s) then s
  else let newSelection := selectedIds s ++ [i] in
       with_selection (match newSelection with [j] => Some j | _ => None end)
         newSelection s.

Definition removeFromSelection (i : string) (s : State) : State :=
  let newSelection := filter (fun j => negb (String.eqb j i)) (selectedIds s) in
  with_selection (match newSelection with [j] => Some j | _ => None end)
    newSelection s.

(** *** Intents *)

(** [addObject(object)]; [newId] is what [generateId()] returns. *)
Definition addObject (newId : string) (now : num) (object : JsObject)
  (s : State) : State :=
  match currentUser s with
  | None => s
  | Some _ =>
      if isExecutingCommandRef s then s
      else
        let newObject : CanvasObject :=
          set "height" (or_else (get "height" object) (VNum (of_Z 100)))
            (set "width" (or_else (get "width" object) (VNum (of_Z 100)))
               (set "lastModified" (VNum now)
                  (set "createdAt" (VNum now)
                     (set "id" (VStr newId) object)))) in
        commit (AddObject newObject) false now s
  end.

(** [previousState[key] = existingObject[key]] for each key of [updates]. *)
Definition capture (existingObject : CanvasObject) (updates : Partial)
  : Partial :=
  fold_left (fun previousState key => set key (get key existingObject) previousState)
    (keys updates) [].

Definition updateObject (i : string) (updates : Partial) (now : num)
  (s : State) : State :=
  match currentUser s with
  | None => s
  | Some _ =>
      if isExecutingCommandRef s then s
      else
        match find (has_id i) (items (objects s)) with
        | None => s
        | Some existingObject =>
            let previousState := capture existingObject updates in
            commit (UpdateObject (UpdateObjectCommand.make i updates previousState))
              false now s
        end
  end.

(** The command that [updateObject(i, updates)] builds on the store
    [objs], for a patch that leaves [id] alone and a target that is well
    formed. *)
Definition update_command_on (objs : list CanvasObject)
  (c : UpdateObjectCommand.t) : Prop :=
  has "id" (UpdateObjectCommand.updates c) = false
  /\ exists existingObject,
       find (has_id (UpdateObjectCommand.objectId c)) objs = Some existingObject
       /\ well_formed existingObject
       /\ UpdateObjectCommand.previousState c
          = capture existingObject (UpdateObjectCommand.updates c).

(** A command whose patch leaves [id] alone and whose inverse, should it
    address [obj], was captured from [obj]. *)
Definition captured_from (obj : CanvasObject) (c : UpdateObjectCommand.t)
  : Prop :=
  has "id" (UpdateObjectCommand.updates c) = false
  /\ (has_id (UpdateObjectCommand.objectId c) obj = true ->
      UpdateObjectCommand.previousState c
      = capture obj (UpdateObjectCommand.updates c)).

(** A command as the context builds it on the array [objs]: [addObject]
    and [createGroup] under an id that no object has, [deleteObject] with the
    object it found, [updateObject] with the values it captured. *)
Definition command_on (objs : list CanvasObject) (command : Command) : Prop :=
  match command with
  | AddObject object => find (has_id (id object)) objs = None
  | DeleteObject object => In object objs
  | UpdateObject c => update_command_on objs c
  | UpdateMultipleObjects commands => Forall (update_command_on objs) commands
  | CreateGroup groupObject _ => find (has_id (id groupObject)) objs = None
  end.

(** [updateObjectLive]: the state cell only, nothing logged or sent. *)
Definition updateObjectLive (i : string) (updates : Partial) (s : State)
  : State :=
  let (a, s') :=
    alloc (map (fun obj => if has_id i obj then spread obj updates else obj)
             (items (objects s))) s in
  with_objects a s'.

Definition deleteObject (i : string) (now : num) (s : State) : State :=
  match currentUser s with
  | None => s
  | Some _ =>
      if isExecutingCommandRef s then s
      else
        match find (has_id i) (items (objects s)) with
        | None => s
        | Some objectToDelete =>
            let s' :=
              match selectedId s with
              | Some j => if String.eqb j i
                          then with_selection None (selectedIds s) s else s
              | None => s
              end in
            commit (DeleteObject objectToDelete) false now s'
        end
  end.

(** The running bounds of [createGroup]. *)
Record Bounds : Type := mkBounds {
  minX : num;
  minY : num;
  maxX : num;
  maxY : num
}.

(** The body of [selectedObjects.forEach(obj => ...)]. *)
Definition extend (b : Bounds) (obj : CanvasObject) : Bounds :=
  if String.eqb (type obj) "line" then
    let x2 := as_num (or_else (get "x2" obj) (get "x" obj)) in
    let y2 := as_num (or_else (get "y2" obj) (get "y" obj)) in
    mkBounds (min (min (minX b) (x obj)) x2)
             (min (min (minY b) (y obj)) y2)
             (max (max (maxX b) (x obj)) x2)
             (max (max (maxY b) (y obj)) y2)
  else if String.eqb (type obj) "circle" then
    let radius := half (width obj) in
    mkBounds (min (minX b) (sub (x obj) radius))
             (min (minY b) (sub (y obj) radius))
             (max (maxX b) (add (x obj) radius))
             (max (maxY b) (add (y obj) radius))
  else
    let halfWidth := half (width obj) in
    let halfHeight := half (height obj) in
    mkBounds (min (minX b) (sub (x obj) halfWidth))
             (min (minY b) (sub (y obj) halfHeight))
             (max (maxX b) (add (x obj) halfWidth))
             (max (maxY b) (add (y obj) halfHeight)).

Definition padding : num := of_Z 20.

(** The bounds of all selected objects, with the padding added. *)
Definition padded_bounds (selectedObjects : list CanvasObject) : Bounds :=
  let b := fold_left extend selectedObjects (mkBounds PosInf PosInf NegInf NegInf) in
  mkBounds (sub (minX b) padding) (sub (minY b) padding)
           (add (maxX b) padding) (add (maxY b) padding).

(** The box as the specification words it, to compare [padded_bounds]
    with: the extent of a line spans its two end points; that of a circle is
    its centre, give or take half its width; that of any other object is its
    centre, give or take half its width and half its height; the extents are
    united and the union is widened by the padding. *)
Definition rule_extent (obj : CanvasObject) : Bounds :=
  if String.eqb (type obj) "line" then
    let x2 := as_num (get "x2" obj) in
    let y2 := as_num (get "y2" obj) in
    mkBounds (min (x obj) x2) (min (y obj) y2) (max (x obj) x2) (max (y obj) y2)
  else if String.eqb (type obj) "circle" then
    mkBounds (sub (x obj) (half (width obj))) (sub (y obj) (half (width obj)))
             (add (x obj) (half (width obj))) (add (y obj) (half (width obj)))
  else
    mkBounds (sub (x obj) (half (width obj))) (sub (y obj) (half (height obj)))
             (add (x obj) (half (width obj))) (add (y obj) (half (height obj))).

Definition rule_union (a b : Bounds) : Bounds :=
  mkBounds (min (minX a) (minX b)) (min (minY a) (minY b))
           (max (maxX a) (maxX b)) (max (maxY a) (maxY b)).

Definition rule_box (selectedObjects : list CanvasObject) : Bounds :=
  let b := fold_left (fun acc obj => rule_union acc (rule_extent obj))
             selectedObjects (mkBounds PosInf PosInf NegInf NegInf) in
  mkBounds (sub (minX b) padding) (sub (minY b) padding)
           (add (maxX b) padding) (add (maxY b) padding).

(** What the loop of [createGroup] makes of one object alone. *)
Definition own_extent (obj : CanvasObject) : Bounds :=
  extend (mkBounds PosInf PosInf NegInf NegInf) obj.

(** [isFinite(n)] on a number *)
Definition isFinite (n : num) : bool :=
  match n with Fin _ => true | _ => false end.

Definition finite_bounds (b : Bounds) : bool :=
  isFinite (minX b) && isFinite (minY b) && isFinite (maxX b) && isFinite (maxY b).

(** [a <= b] *)
Definition leb (a b : num) : bool :=
  match a, b with
  | NaN, _ | _, NaN => false
  | NegInf, _ | _, PosInf => true
  | _, NegInf | PosInf, _ => false
  | Fin p, Fin q => Qc_leb p q
  end.

(** The box [inner] lies within the box [outer]. *)
Definition contains (outer inner : Bounds) : bool :=
  leb (minX outer) (minX inner) && leb (minY outer) (minY inner)
  && leb (maxX inner) (maxX outer) && leb (maxY inner) (maxY outer).

(** The area that [exportCanvasAsPNG] computes before it draws: the body
    of [objects.forEach(obj => ...)], the padding of 50, and the default
    when [minX] is not finite. *)
Definition export_extend (b : Bounds) (obj : CanvasObject) : Bounds :=
  if String.eqb (type obj) "group" then b
  else
    let halfWidth := half (as_num (or_else (get "width" obj) (VNum (of_Z 0)))) in
    let halfHeight := half (as_num (or_else (get "height" obj) (VNum (of_Z 0)))) in
    mkBounds (min (minX b) (sub (x obj) halfWidth))
             (min (minY b) (sub (y obj) halfHeight))
             (max (maxX b) (add (x obj) halfWidth))
             (max (maxY b) (add (y obj) halfHeight)).

Definition export_padding : num := of_Z 50.

Definition export_default : Bounds :=
  mkBounds (of_Z 0) (of_Z 0) (of_Z 1920) (of_Z 1080).

Definition export_bounds (objects : list CanvasObject) : Bounds :=
  let b := fold_left export_extend objects (mkBounds PosInf PosInf NegInf NegInf) in
  let padded := mkBounds (sub (minX b) export_padding) (sub (minY b) export_padding)
                         (add (maxX b) export_padding) (add (maxY b) export_padding) in
  if negb (isFinite (minX padded)) then export_default else padded.

(** [`Group of ${n}`] *)
Definition group_nickname (n : nat) : string :=
  "Group of " ++ DecimalString.NilEmpty.string_of_uint (Nat.to_uint n).

(** [obj.zIndex || 0] *)
Definition zIndex_or_0 (obj : CanvasObject) : num :=
  as_num (or_else (get "zIndex" obj) (VNum (of_Z 0))).

(** The z-order index of an object that has one. *)
Definition zIndex_of (obj : CanvasObject) : option Qc :=
  match get "zIndex" obj with VNum (Fin q) => Some q | _ => None end.

(** [groupObject], the group without [id], [createdAt] and [lastModified]. *)
Definition groupObject (uid : string) (selectedIds : list string)
  (selectedObjects : list CanvasObject) : JsObject :=
  let b := padded_bounds selectedObjects in
  let width := sub (maxX b) (minX b) in
  let height := sub (maxY b) (minY b) in
  let centerX := add (minX b) (half width) in
  let centerY := add (minY b) (half height) in
  [ ("type", VStr "group");
    ("x", VNum centerX);
    ("y", VNum centerY);
    ("width", VNum width);
    ("height", VNum height);
    ("fill", VStr "#000000");
    ("groupedObjects", VArr (map VStr selectedIds));
    ("nickname", VStr (group_nickname (List.length selectedIds)));
    ("zIndex",
     VNum (add (max_list (map zIndex_or_0 selectedObjects)) (of_Z 1)));
    ("shadow", VBool false);
    ("createdBy", VStr uid) ].

(** [objects.filter(obj => selectedIds.includes(obj.id))] *)
Definition selectedObjects (s : State) : list CanvasObject :=
  filter (fun obj => existsb (String.eqb (id obj)) (selectedIds s))
    (items (objects s)).

Definition newGroupObject (newId : string) (now : num) (s : State)
  (uid : string) : CanvasObject :=
  set "lastModified" (VNum now)
    (set "createdAt" (VNum now)
       (set "id" (VStr newId)
          (groupObject uid (selectedIds s) (selectedObjects s)))).

Definition createGroup (newId : string) (now : num) (s : State) : State :=
  match currentUser s with
  | None => s
  | Some uid =>
      if (List.length (selectedIds s) <? 2)%nat then s
      else commit (CreateGroup (newGroupObject newId now s uid) (selectedIds s))
             true now s
  end.

(** *** The reconciler *)

Section Reconciler.
(** [JSON.stringify] on an array of objects. *)
Variable JSON_stringify : list CanvasObject -> string.

(** [setObjects(newObjects)] *)
Definition setObjects (newObjects : Arr) (s : State) : State :=
  if isExecutingCommandRef s then s
  else
    let prev := objects s in
    let prevJson := JSON_stringify (items prev) in
    let newJson := JSON_stringify (items newObjects) in
    if String.eqb prevJson newJson then s
    else with_objects newObjects s.

(** The [onSnapshot] callback: the documents are pushed into a new
    array, which goes to [setObjects]. *)
Definition onSnapshot (docs : list CanvasObject) (s : State) : State :=
  let (firestoreObjects, s') := alloc docs s in
  setObjects firestoreObjects s'.
End Reconciler.

(** *** Undo and redo *)

Definition undo (now : num) (s : State) : State :=
  if isExecutingCommandRef s then s
  else if negb (CommandHistory.canUndo (commandHistoryRef s)) then s
  else
    let s' := with_executing true s in
    match CommandHistory.undo_start (commandHistoryRef s') with
    | CommandHistory.Awaits command =>
        suspend AfterUndo (Commands.undo command) now s'
    | _ => suspend AfterNothing [] now s'
    end.

Definition redo (now : num) (s : State) : State :=
  if isExecutingCommandRef s then s
  else if negb (CommandHistory.canRedo (commandHistoryRef s)) then s
  else
    let s' := with_executing true s in
    let (h, started) := CommandHistory.redo_start (commandHistoryRef s') in
    let s'' := with_history h s' in
    match started with
    | CommandHistory.Awaits command =>
        suspend AfterRedo (execute command) now s''
    | _ => suspend AfterNothing [] now s''
    end.

(** *** Settling a promise *)

(** The continuation after a fulfilled promise. *)
Definition finish (k : Continuation) (s : State) : State :=
  match k with
  | AfterExecuteCommand clear => if clear then clearSelection s else s
  | AfterUndo =>
      with_executing false
        (clearSelection
           (with_history (CommandHistory.undo_finish (commandHistoryRef s)) s))
  | AfterRedo => with_executing false (clearSelection s)
  | AfterNothing => with_executing false s
  end.

(** The [catch] and [finally] after a rejected one. *)
Definition fail (k : Continuation) (s : State) : State :=
  match k with
  | AfterExecuteCommand _ => s
  | _ => with_executing false s
  end.

Fixpoint remove_nth {A : Type} (n : nat) (l : list A) : list A :=
  match n, l with
  | _, [] => []
  | O, _ :: t => t
  | S m, a :: t => a :: remove_nth m t
  end.

Fixpoint replace_nth {A : Type} (n : nat) (a : A) (l : list A) : list A :=
  match n, l with
  | _, [] => []
  | O, _ :: t => a :: t
  | S m, b :: t => b :: replace_nth m a t
  end.

(** The promise that the [n]-th suspended call waits for settles. *)
Definition settle (n : nat) (ok : bool) (now : num) (s : State) : State :=
  match nth_error (pending s) n with
  | None => s
  | Some p =>
      if ok then
        match rest p with
        | stage :: more =>
            let s' := run_stage now stage s in
            with_pending
              (replace_nth n (mkPending (continuation p) more) (pending s')) s'
        | [] => finish (continuation p) (with_pending (remove_nth n (pending s)) s)
        end
      else fail (continuation p) (with_pending (remove_nth n (pending s)) s)
  end.

(** What the effects of a command leave alone. *)
Definition framed (s s' : State) : Prop :=
  selectedId s' = selectedId s
  /\ selectedIds s' = selectedIds s
  /\ commandHistoryRef s' = commandHistoryRef s
  /\ isExecutingCommandRef s' = isExecutingCommandRef s
  /\ currentUser s' = currentUser s
  /\ pending s' = pending s.

(** Some command's [execute] or [undo] has started and not settled. *)
Definition in_flight (s : State) : bool :=
  match pending s with [] => false | _ :: _ => true end.

(** Whatever can happen to the session: a call of one of the functions
    the context exposes, a snapshot from the listener, or the settling of
    the promise that the [n]-th suspended call waits for. *)
Inductive Event : Type :=
| OnAddObject (newId : string) (object : JsObject)
| OnUpdateObject (i : string) (updates : Partial)
| OnUpdateObjectLive (i : string) (updates : Partial)
| OnDeleteObject (i : string)
| OnSelectObject (i : option string)
| OnSelectMultiple (ids : list string)
| OnAddToSelection (i : string)
| OnRemoveFromSelection (i : string)
| OnClearSelection
| OnCreateGroup (newId : string)
| OnUndo
| OnRedo
| OnSnapshot (docs : list CanvasObject)
| OnSettle (n : nat) (ok : bool).

Section Run.
Variable JSON_stringify : list CanvasObject -> string.

(** One event, at the clock reading [now]. *)
Definition step (s : State) (timed : num * Event) : State :=
  let (now, e) := timed in
  match e with
  | OnAddObject newId object => addObject newId now object s
  | OnUpdateObject i updates => updateObject i updates now s
  | OnUpdateObjectLive i updates => updateObjectLive i updates s
  | OnDeleteObject i => deleteObject i now s
  | OnSelectObject i => selectObject i s
  | OnSelectMultiple ids => selectMultiple ids s
  | OnAddToSelection i => addToSelection i s
  | OnRemoveFromSelection i => removeFromSelection i s
  | OnClearSelection => clearSelection s
  | OnCreateGroup newId => createGroup newId now s
  | OnUndo => undo now s
  | OnRedo => redo now s
  | OnSnapshot docs => onSnapshot JSON_stringify docs s
  | OnSettle n ok => settle n ok now s
  end.

Definition run (s : State) (events : list (num * Event)) : State :=
  fold_left step events s.
End Run.

(** A suspended [undo] or [redo]: the calls that hold the flag up. *)
Definition holds_flag (p : Pending) : bool :=
  match continuation p with AfterExecuteCommand _ => false | _ => true end.

(** What every event preserves: the log is well formed; the flag is up
    exactly while one [undo] or [redo] is suspended; and a suspended [undo]
    has an entry at the cursor to step back from. *)
Definition session_ok (s : State) : Prop :=
  CommandHistory.log_ok (commandHistoryRef s)
  /\ List.length (filter holds_flag (pending s))
     = (if isExecutingCommandRef s then 1%nat else 0%nat)
  /\ (forall p, In p (pending s) -> continuation p = AfterUndo ->
                CommandHistory.canUndo (commandHistoryRef s) = true).

(** The data that a call carries holds [undefined] in no property. *)
Definition no_undefined_property (c : StoreCall) : bool :=
  match c with
  | SetDoc _ data => clean data
  | SetDocMerge _ data => clean data
  | DeleteDoc _ => true
  end.

(** The provider as mounted for the user [uid]. *)
Definition initial (uid : string) : State :=
  mkState (mkArr 0 []) None [] CommandHistory.empty false (Some uid) [] [] 1.

End Canvas.

(** ** Sample data *)

Module Sample.
Import Js Commands.
Local Open Scope string_scope.

Definition number (z : Z) : JsVal := VNum (of_Z z).

(** A rectangle centred at (0, 0), 100 by 100. *)
Definition rectangle : CanvasObject :=
  [ ("id", VStr "a"); ("type", VStr "rectangle");
    ("x", number 0); ("y", number 0);
    ("width", number 100); ("height", number 100);
    ("fill", VStr "#ff0000"); ("zIndex", number 1);
    ("createdAt", number 1000); ("lastModified", number 1000);
    ("createdBy", VStr "u") ].

(** A circle centred at (200, 0), of radius 50. *)
Definition circle : CanvasObject :=
  [ ("id", VStr "b"); ("type", VStr "circle");
    ("x", number 200); ("y", number 0);
    ("width", number 100); ("height", number 100);
    ("fill", VStr "#00ff00"); ("zIndex", number 2);
    ("createdAt", number 1100); ("lastModified", number 1100);
    ("createdBy", VStr "u") ].

(** A line from (100, 100) to the origin. *)
Definition line : CanvasObject :=
  [ ("id", VStr "c"); ("type", VStr "line");
    ("x", number 100); ("y", number 100);
    ("x2", number 0); ("y2", number 0);
    ("width", number 0); ("height", number 0);
    ("fill", VStr "#0000ff"); ("zIndex", number 3);
    ("createdAt", number 1200); ("lastModified", number 1200);
    ("createdBy", VStr "u") ].

(** The command of [updateObject("a", { width: 150 })] on a store that
    holds [rectangle]. *)
Definition widen : UpdateObjectCommand.t :=
  UpdateObjectCommand.make "a" [("width", number 150)] [("width", number 100)].

(** The command of [updateObject("b", { nickname: "dot", x: 210 })] on a
    store that holds [circle], which has no nickname. *)
Definition rename : UpdateObjectCommand.t :=
  UpdateObjectCommand.make "b"
    [("nickname", VStr "dot"); ("x", number 210)]
    [("nickname", VUndef); ("x", number 200)].

(** The group that [createGroup] makes of the rectangle and the circle,
    under the id "g". *)
Definition group : CanvasObject :=
  set "lastModified" (number 1300)
    (set "createdAt" (number 1300)
       (set "id" (VStr "g")
          (Canvas.groupObject "u" ["a"; "b"] [rectangle; circle]))).

(** A stand-in for [JSON.stringify]: the layout of JSON, without the
    properties that hold [undefined], a number written as a fraction. *)
Definition quote : string := String (Ascii.ascii_of_nat 34) EmptyString.

Definition render_num (n : num) : string :=
  match n with
  | Fin q =>
      DecimalString.NilZero.string_of_int (Z.to_int (Qnum (this q)))
      ++ "/" ++ DecimalString.NilZero.string_of_uint (Pos.to_uint (Qden (this q)))
  | _ => "null"
  end.

Fixpoint render (v : JsVal) : string :=
  match v with
  | VUndef => "undefined"
  | VNull => "null"
  | VBool b => if b then "true" else "false"
  | VNum n => render_num n
  | VStr s => quote ++ s ++ quote
  | VArr elems => "[" ++ String.concat "," (map render elems) ++ "]"
  | VObj props =>
      "{" ++ String.concat ","
               ((fix members (l : list (string * JsVal)) : list string :=
                   match l with
                   | [] => []
                   | (k, VUndef) :: more => members more
                   | (k, x) :: more =>
                       (quote ++ k ++ quote ++ ":" ++ render x)%string :: members more
                   end) props)
          ++ "}"
  end.

Definition stringify (objs : list CanvasObject) : string :=
  render (VArr (map VObj objs)).

(** A session of user "u" whose store holds the rectangle and the circle,
    both added and settled, and who has selected the two. *)
Definition session : Canvas.State :=
  Canvas.mkState (Canvas.mkArr 2 [rectangle; circle]) None ["a"; "b"]
    (CommandHistory.make [AddObject rectangle; AddObject circle] 1)
    false (Some "u")
    [ Canvas.SetDoc "a" (Canvas.removeUndefinedValues (VObj rectangle));
      Canvas.SetDoc "b" (Canvas.removeUndefinedValues (VObj circle)) ]
    [] 3.

(** Clocks: every reading is the same instant. *)
Definition at_time (z : Z) : nat -> num := fun _ => of_Z z.

End Sample.

(** * Properties *)

(** ** Lists *)

Section ListFacts.
Lemma in_firstn_in (A : Type) (n : nat) (l : list A) (a : A) :
  In a (firstn n l) -> In a l.
Proof.
  intros Hin. rewrite <- (firstn_skipn n l). apply in_or_app. left. exact Hin.
Qed.

Lemma in_tl_in (A : Type) (l : list A) (a : A) : In a (tl l) -> In a l.
Proof. destruct l; cbn; auto. Qed.

Lemma NoDup_firstn_of (A : Type) (n : nat) (l : list A) :
  NoDup l -> NoDup (firstn n l).
Proof.
  intros Hnd. rewrite <- (firstn_skipn n l) in Hnd.
  exact (NoDup_app_remove_r _ _ Hnd).
Qed.

Lemma NoDup_tl_of (A : Type) (l : list A) : NoDup l -> NoDup (tl l).
Proof. destruct l; cbn; [auto|]. intros H. inversion H; assumption. Qed.

Lemma NoDup_app_parts (A : Type) (l1 l2 : list A) :
  NoDup (l1 ++ l2) ->
  NoDup l1 /\ NoDup l2 /\ forall a, In a l1 -> ~ In a l2.
Proof.
  induction l1 as [|b l1 IH]; cbn; intros Hnd.
  - repeat split; [constructor | exact Hnd | intros a []].
  - inversion Hnd as [|b' l' Hb Hrest]; subst.
    destruct (IH Hrest) as (H1 & H2 & H3).
    repeat split; [constructor | exact H2 |].
    + intros Hin. apply Hb, in_or_app. left. exact Hin.
    + exact H1.
    + intros a [Ha|Ha] Hin2.
      * subst a. apply Hb, in_or_app. right. exact Hin2.
      * exact (H3 a Ha Hin2).
Qed.

Lemma filter_none (A : Type) (f : A -> bool) (l : list A) :
  (forall a, In a l -> f a = false) -> filter f l = [].
Proof.
  induction l as [|a l IH]; intros Hall; cbn; [reflexivity|].
  rewrite (Hall a (or_introl eq_refl)). apply IH. intros b Hb. apply Hall. right. exact Hb.
Qed.

Lemma Forall2_map_in (A B : Type) (R : A -> B -> Prop) (f : A -> B) (l : list A) :
  (forall a, In a l -> R a (f a)) -> Forall2 R l (map f l).
Proof.
  induction l as [|a l IH]; intros Hall; cbn; constructor.
  - apply Hall. left. reflexivity.
  - apply IH. intros b Hb. apply Hall. right. exact Hb.
Qed.
End ListFacts.

(** ** Objects as ordered key/value lists *)

Section ObjectFacts.
Import Js.
Implicit Types (o p : JsObject) (k : string) (v : JsVal).

Lemma get_set k k' v o :
  get k (set k' v o) = if String.eqb k k' then v else get k o.
Proof.
  induction o as [|[k0 v0] rest IH]; cbn.
  - reflexivity.
  - destruct (String.eqb_spec k' k0) as [->|Hne]; cbn.
    + destruct (String.eqb k k0); reflexivity.
    + rewrite IH. destruct (String.eqb_spec k k') as [->|Hne'].
      * destruct (String.eqb_spec k' k0); [contradiction|reflexivity].
      * reflexivity.
Qed.

Lemma has_set k k' v o :
  has k (set k' v o) = String.eqb k k' || has k o.
Proof.
  induction o as [|[k0 v0] rest IH]; cbn.
  - reflexivity.
  - destruct (String.eqb_spec k' k0) as [->|Hne]; cbn.
    + destruct (String.eqb k k0); reflexivity.
    + rewrite IH. destruct (String.eqb k k0), (String.eqb k k'); reflexivity.
Qed.

Lemma has_In k o : has k o = true <-> In k (keys o).
Proof.
  induction o as [|[k0 v0] rest IH]; cbn.
  - split; [discriminate | intros []].
  - rewrite orb_true_iff, IH. split.
    + intros [H|H]; [left; symmetry; apply String.eqb_eq, H | right; exact H].
    + intros [H|H]; [left; subst; apply String.eqb_refl | right; exact H].
Qed.

Lemma get_absent k o : has k o = false -> get k o = VUndef.
Proof.
  induction o as [|[k0 v0] rest IH]; cbn; [reflexivity|].
  destruct (String.eqb k k0); cbn; [discriminate | exact IH].
Qed.

Lemma keys_set k v o :
  keys (set k v o) = keys o ++ (if has k o then [] else [k]).
Proof.
  unfold keys. induction o as [|[k0 v0] rest IH]; cbn.
  - reflexivity.
  - destruct (String.eqb k k0); cbn.
    + rewrite app_nil_r. reflexivity.
    + rewrite IH. reflexivity.
Qed.

Lemma NoDup_keys_set k v o : NoDup (keys o) -> NoDup (keys (set k v o)).
Proof.
  intros Hnd. rewrite keys_set. destruct (has k o) eqn:E.
  - rewrite app_nil_r. exact Hnd.
  - apply NoDup_app; [exact Hnd | repeat constructor; intros [] |].
    intros a Ha [Heq|[]]. subst a. apply has_In in Ha. congruence.
Qed.

Lemma grows_refl o : grows o o.
Proof. split; [exists []; symmetry; apply app_nil_r | auto]. Qed.

Lemma grows_trans o1 o2 o3 : grows o1 o2 -> grows o2 o3 -> grows o1 o3.
Proof.
  intros [[e1 H1] N1] [[e2 H2] N2]. split; [|auto].
  exists (e1 ++ e2). rewrite H2, H1, app_assoc. reflexivity.
Qed.

Lemma grows_set k v o : grows o (set k v o).
Proof.
  split; [|apply NoDup_keys_set]. rewrite keys_set. eauto.
Qed.

Lemma grows_spread p : forall o, grows o (spread o p).
Proof.
  unfold spread. induction p as [|[k v] p IH]; intros o; cbn.
  - apply grows_refl.
  - eapply grows_trans; [apply grows_set | apply IH].
Qed.

Lemma get_app k o1 o2 :
  get k (o1 ++ o2) = if has k o1 then get k o1 else get k o2.
Proof.
  induction o1 as [|[k0 v0] rest IH]; cbn; [reflexivity|].
  destruct (String.eqb k k0); cbn; [reflexivity | exact IH].
Qed.

Lemma has_app k o1 o2 : has k (o1 ++ o2) = has k o1 || has k o2.
Proof.
  induction o1 as [|[k0 v0] rest IH]; cbn; [reflexivity|].
  rewrite IH. apply orb_assoc.
Qed.

Lemma has_rev k o : has k (rev o) = has k o.
Proof.
  induction o as [|[k0 v0] rest IH]; cbn; [reflexivity|].
  rewrite has_app, IH. cbn. rewrite orb_false_r. apply orb_comm.
Qed.

(** In [{...o, ...p}] a key of [p] reads its last value in [p], any other
    key reads as in [o]. *)
Lemma get_spread k p : forall o,
  get k (spread o p) = if has k p then get k (rev p) else get k o.
Proof.
  unfold spread. induction p as [|[k0 v0] p IH]; intros o; cbn.
  - reflexivity.
  - rewrite IH, get_app, has_rev, get_set. cbn.
    destruct (has k p); [rewrite orb_true_r; reflexivity|].
    rewrite orb_false_r. destruct (String.eqb k k0); reflexivity.
Qed.

Lemma has_spread k p : forall o, has k (spread o p) = has k o || has k p.
Proof.
  unfold spread. induction p as [|[k0 v0] p IH]; intros o; cbn.
  - rewrite orb_false_r. reflexivity.
  - rewrite IH, has_set.
    destruct (String.eqb k k0), (has k o), (has k p); reflexivity.
Qed.

(** An object without a repeated key is its keys with what they read. *)
Lemma object_by_keys o :
  NoDup (keys o) -> o = map (fun k => (k, get k o)) (keys o).
Proof.
  induction o as [|[k0 v0] rest IH]; cbn; intros Hnd; [reflexivity|].
  inversion Hnd as [|a l Hnotin Hrest]; subst.
  rewrite String.eqb_refl. f_equal.
  rewrite (IH Hrest) at 1. apply map_ext_in.
  intros k Hin. destruct (String.eqb_spec k k0) as [->|_]; [contradiction|reflexivity].
Qed.

(** Two objects that read alike hold the same values in the same order
    when the second only has more keys than the first. *)
Lemma same_reads_same_defined o o' :
  NoDup (keys o) -> grows o o' -> (forall k, get k o' = get k o) ->
  defined_props o' = defined_props o.
Proof.
  intros Hnd [[ext Hext] Hnd'] Hreads. specialize (Hnd' Hnd).
  rewrite (object_by_keys o' Hnd'), (object_by_keys o Hnd) at 1.
  rewrite Hext, map_app. unfold defined_props. rewrite filter_app.
  rewrite (filter_none _ _ (map (fun k => (k, get k o')) ext)).
  - rewrite app_nil_r. f_equal. apply map_ext. intros k. rewrite Hreads. reflexivity.
  - intros [k v] Hin. apply in_map_iff in Hin. destruct Hin as (k' & [= <- <-] & Hin).
    cbn. rewrite Hreads, get_absent; [reflexivity|].
    destruct (has k' o) eqn:E; [|reflexivity]. exfalso.
    apply has_In in E. rewrite Hext in Hnd'.
    apply NoDup_app_parts in Hnd'. destruct Hnd' as (_ & _ & Hdisj).
    exact (Hdisj k' E Hin).
Qed.

(** Reading does not depend on the order of distinct keys. *)
Lemma get_rev (o : JsObject) (k : string) : NoDup (keys o) -> get k (rev o) = get k o.
Proof.
  induction o as [|[k' v] o IH]; intros Hnd; [reflexivity|].
  inversion Hnd as [|? ? Hk Hrest]; subst. cbn [rev].
  rewrite get_app, has_rev, (IH Hrest). cbn.
  destruct (String.eqb k k') eqn:E.
  - apply String.eqb_eq in E. subst k'.
    destruct (has k o) eqn:Hh; [|reflexivity].
    exfalso. apply Hk. apply has_In. exact Hh.
  - destruct (has k o) eqn:Hh; [reflexivity|]. symmetry. apply get_absent, Hh.
Qed.
End ObjectFacts.

(** ** Execute, then undo *)

Section CommandFacts.
Import Js Commands.
Implicit Types (o obj : CanvasObject) (objs : list CanvasObject) (k : string).

Lemma has_keys k (p : JsObject) : has k p = existsb (String.eqb k) (keys p).
Proof.
  unfold keys. induction p as [|[k0 v0] rest IH]; cbn; [reflexivity|].
  rewrite IH. reflexivity.
Qed.

(** Reading from a list whose every entry holds what [e] reads there. *)
Lemma get_copy_of (e q : JsObject) k :
  Forall (fun kv => snd kv = get (fst kv) e) q ->
  has k q = true -> get k q = get k e.
Proof.
  induction q as [|[k0 v0] rest IH]; cbn; intros Hall Hhas; [discriminate|].
  inversion Hall as [|kv l Hhead Hrest]; subst. cbn in Hhead.
  destruct (String.eqb_spec k k0) as [->|Hne]; [exact Hhead|].
  cbn in Hhas. apply IH; assumption.
Qed.

Lemma set_copy_of (e q : JsObject) k :
  Forall (fun kv => snd kv = get (fst kv) e) q ->
  Forall (fun kv => snd kv = get (fst kv) e) (set k (get k e) q).
Proof.
  induction q as [|[k0 v0] rest IH]; cbn; intros Hall.
  - repeat constructor.
  - inversion Hall as [|kv l Hhead Hrest]; subst.
    destruct (String.eqb_spec k k0) as [->|Hne]; constructor; auto.
Qed.

Lemma capture_fold (e : JsObject) (ks : list string) : forall acc k,
  Forall (fun kv => snd kv = get (fst kv) e) acc ->
  let r := fold_left (fun previousState key => set key (get key e) previousState) ks acc in
  Forall (fun kv => snd kv = get (fst kv) e) r
  /\ has k r = existsb (String.eqb k) ks || has k acc.
Proof.
  induction ks as [|k0 ks IH]; intros acc k Hacc; cbn.
  - split; [exact Hacc | reflexivity].
  - destruct (IH (set k0 (get k0 e) acc) k (set_copy_of e acc k0 Hacc)) as [Hall Hhas].
    split; [exact Hall|]. cbn zeta in Hhas. rewrite Hhas, has_set.
    destruct (existsb (String.eqb k) ks), (String.eqb k k0), (has k acc); reflexivity.
Qed.

(** [previousState], read after it is spread: the keys of [updates], each
    with what the existing object held. *)
Lemma capture_reads (e : CanvasObject) (updates : Partial) k :
  has k (Canvas.capture e updates) = has k updates
  /\ (has k updates = true -> get k (rev (Canvas.capture e updates)) = get k e).
Proof.
  unfold Canvas.capture.
  destruct (capture_fold e (keys updates) [] k (Forall_nil _)) as [Hall Hhas].
  cbn zeta in Hall, Hhas. cbn [has] in Hhas. rewrite orb_false_r, <- has_keys in Hhas.
  split; [exact Hhas|]. intros Hk. apply get_copy_of.
  - apply Forall_rev, Hall.
  - rewrite has_rev, Hhas. exact Hk.
Qed.

Lemma get_patched k fields now o :
  get k (UpdateObjectCommand.patched fields now o)
  = if String.eqb k "lastModified" then VNum now
    else if has k fields then get k (rev fields) else get k o.
Proof. unfold UpdateObjectCommand.patched. rewrite get_set, get_spread. reflexivity. Qed.

Lemma grows_patched fields now o :
  grows o (UpdateObjectCommand.patched fields now o).
Proof.
  unfold UpdateObjectCommand.patched.
  eapply grows_trans; [apply grows_spread | apply grows_set].
Qed.

Lemma id_patched fields now o :
  has "id" fields = false -> id (UpdateObjectCommand.patched fields now o) = id o.
Proof.
  intros Hid. unfold id. rewrite get_patched, Hid. reflexivity.
Qed.

Lemma has_id_by_id i o o' : id o = id o' -> has_id i o = has_id i o'.
Proof. unfold has_id. intros ->. reflexivity. Qed.

Lemma all_undone_app (l1 : list UpdateObjectCommand.t) : forall l2 clock n o,
  all_undone (l1 ++ l2) clock n o
  = all_undone l2 clock (n + List.length l1) (all_undone l1 clock n o).
Proof.
  induction l1 as [|c l1 IH]; intros l2 clock n o; cbn.
  - rewrite Nat.add_0_r. reflexivity.
  - rewrite IH. f_equal. lia.
Qed.

(** One object through a batch and back: the keys some command wrote to
    it read as in the captured object, the others as before. *)
Lemma batch_on_object (o0 : CanvasObject) (cs : list UpdateObjectCommand.t) :
  Forall (Canvas.captured_from o0) cs ->
  forall o clock n t, id o = id o0 ->
  let B := all_undone (rev cs) clock n (all_executed cs t o) in
  id B = id o0
  /\ grows o B
  /\ (forall k, k <> "lastModified" ->
      get k B = if writes cs o0 k then get k o0 else get k o)
  /\ (touches cs o0 = true ->
      exists m, (n <= m < n + List.length cs)%nat
                /\ get "lastModified" B = VNum (clock m))
  /\ (touches cs o0 = false -> B = o).
Proof.
  induction cs as [|c cs IH]; intros Hgood o clock n t Hid; cbn zeta.
  - cbn. split; [exact Hid|]. split; [apply grows_refl|].
    split; [reflexivity|]. split; [discriminate | reflexivity].
  - inversion Hgood as [|c' l [Hnoid Hcap] Hrest]; subst.
    cbn [rev]. rewrite all_undone_app. cbn [all_undone all_executed fold_left].
    fold (all_executed cs t (UpdateObjectCommand.executed c t o)).
    set (o1 := UpdateObjectCommand.executed c t o).
    assert (Hid1 : id o1 = id o0).
    { unfold o1, UpdateObjectCommand.executed.
      destruct (has_id (UpdateObjectCommand.objectId c) o); [|exact Hid].
      rewrite id_patched; assumption. }
    destruct (IH Hrest o1 clock n t Hid1) as (HidB & Hgrow & Hfields & Hlm & Hsame).
    cbn zeta in *.
    set (B' := all_undone (rev cs) clock n (all_executed cs t o1)) in *.
    unfold UpdateObjectCommand.undone.
    rewrite (has_id_by_id _ B' o0 HidB).
    unfold touches, writes in *. cbn [existsb].
    destruct (has_id (UpdateObjectCommand.objectId c) o0) eqn:Hc.
    + rewrite (Hcap eq_refl).
      destruct (capture_reads o0 (UpdateObjectCommand.updates c) "id") as [HhasId _].
      assert (Ho1 : o1 = UpdateObjectCommand.patched (UpdateObjectCommand.updates c) t o).
      { unfold o1, UpdateObjectCommand.executed.
        rewrite (has_id_by_id _ o o0 Hid), Hc. reflexivity. }
      repeat split.
      * rewrite id_patched; [exact HidB|]. rewrite HhasId. exact Hnoid.
      * destruct Hgrow as [[e He] Hn]. rewrite Ho1 in He, Hn.
        destruct (grows_patched (UpdateObjectCommand.updates c) t o) as [[e1 He1] Hn1].
        destruct (grows_patched (Canvas.capture o0 (UpdateObjectCommand.updates c))
                    (clock (n + List.length (rev cs))%nat) B') as [[e2 He2] Hn2].
        exists ((e1 ++ e) ++ e2). rewrite He2, He, He1, !app_assoc. reflexivity.
      * intros Hnd. apply grows_patched, Hgrow. rewrite Ho1. apply grows_patched, Hnd.
      * intros k Hk. rewrite get_patched.
        destruct (String.eqb_spec k "lastModified") as [->|_]; [contradiction|].
        destruct (capture_reads o0 (UpdateObjectCommand.updates c) k) as [Hhas Hget].
        rewrite Hhas. cbn [andb].
        destruct (has k (UpdateObjectCommand.updates c)) eqn:Hku; cbn [orb].
        -- apply Hget. reflexivity.
        -- rewrite (Hfields k Hk), Ho1, get_patched, Hku.
           destruct (String.eqb_spec k "lastModified") as [->|_]; [contradiction|].
           reflexivity.
      * intros _. exists (n + List.length (rev cs))%nat. split.
        -- rewrite length_rev. cbn [List.length]. lia.
        -- rewrite get_patched. reflexivity.
      * cbn [orb]. discriminate.
    + assert (Ho1 : o1 = o).
      { unfold o1, UpdateObjectCommand.executed.
        rewrite (has_id_by_id _ o o0 Hid), Hc. reflexivity. }
      rewrite Ho1 in *. cbn [orb andb].
      repeat split; auto.
      * destruct Hgrow as [He _]. exact He.
      * destruct Hgrow as [_ Hn]. exact Hn.
      * intros Ht. destruct (Hlm Ht) as (m & Hm & Hget). exists m.
        split; [cbn [List.length]; lia | exact Hget].
Qed.

(** An object that some command of the batch addresses comes back as it
    was, but for [lastModified]. *)
Lemma batch_restores_object (o0 : CanvasObject) (cs : list UpdateObjectCommand.t)
  (clock : nat -> num) (t : num) :
  Forall (Canvas.captured_from o0) cs -> well_formed o0 -> touches cs o0 = true ->
  exists m, (m < List.length cs)%nat
            /\ restored_at (clock m) o0 (all_undone (rev cs) clock 0 (all_executed cs t o0)).
Proof.
  intros Hgood [Hnd Hlm] Htouch.
  destruct (batch_on_object o0 cs Hgood o0 clock 0%nat t eq_refl)
    as (_ & Hgrow & Hfields & Hstamp & _).
  cbn zeta in *. destruct (Hstamp Htouch) as (m & Hm & Hget).
  exists m. split; [lia|].
  set (B := all_undone (rev cs) clock 0 (all_executed cs t o0)) in *.
  assert (Hreads : forall k, get k B = get k (set "lastModified" (VNum (clock m)) o0)).
  { intros k. rewrite get_set.
    destruct (String.eqb_spec k "lastModified") as [->|Hne]; [exact Hget|].
    rewrite (Hfields k Hne). destruct (writes cs o0 k); reflexivity. }
  split; [exact Hreads|].
  assert (Hkeys : keys (set "lastModified" (VNum (clock m)) o0) = keys o0).
  { rewrite keys_set, Hlm. apply app_nil_r. }
  apply same_reads_same_defined.
  - rewrite Hkeys. exact Hnd.
  - destruct Hgrow as [Hext Hn]. split; [rewrite Hkeys; exact Hext|].
    intros _. exact (Hn Hnd).
  - exact Hreads.
Qed.

Lemma find_unique i o objs :
  NoDup (map id objs) -> In o objs -> has_id i o = true ->
  find (has_id i) objs = Some o.
Proof.
  induction objs as [|a rest IH]; cbn; intros Hnd Hin Hi; [contradiction|].
  inversion Hnd as [|x l Hnotin Hrest]; subst.
  destruct Hin as [->|Hin]; [rewrite Hi; reflexivity|].
  destruct (has_id i a) eqn:Ha; [|apply IH; assumption].
  exfalso. apply Hnotin. unfold has_id in Hi, Ha.
  apply String.eqb_eq in Hi, Ha. rewrite Ha, <- Hi. apply in_map, Hin.
Qed.

Lemma update_command_on_captured objs c o :
  NoDup (map id objs) -> In o objs -> Canvas.update_command_on objs c ->
  Canvas.captured_from o c
  /\ (has_id (UpdateObjectCommand.objectId c) o = true -> well_formed o).
Proof.
  intros Hnd Hin (Hnoid & e & Hfind & Hwf & Hprev). split; [split; [exact Hnoid|]|].
  - intros Hi. rewrite (find_unique _ o objs Hnd Hin Hi) in Hfind.
    injection Hfind as <-. exact Hprev.
  - intros Hi. rewrite (find_unique _ o objs Hnd Hin Hi) in Hfind.
    injection Hfind as <-. exact Hwf.
Qed.

(** The local state after the stages of a batch. *)
Lemma batch_execute_local cs now : forall objs,
  local_stage (UpdateMultipleObjectsCommand.execute cs now) objs
  = map (all_executed cs now) objs.
Proof.
  unfold UpdateMultipleObjectsCommand.execute, local_stage.
  induction cs as [|c cs IH]; intros objs; cbn.
  - symmetry. apply map_id.
  - unfold apply_updater. cbn. rewrite IH, map_map. reflexivity.
Qed.

Lemma batch_undo_local (l : list UpdateObjectCommand.t) clock : forall n objs,
  local_run (map UpdateObjectCommand.undo l) clock n objs
  = map (all_undone l clock n) objs.
Proof.
  induction l as [|c l IH]; intros n objs; cbn.
  - symmetry. apply map_id.
  - unfold apply_updater. cbn. rewrite IH, map_map. reflexivity.
Qed.

Lemma batch_execute_then_undo cs clockE clockU objs :
  execute_then_undo (UpdateMultipleObjects cs) clockE clockU objs
  = map (fun o => all_undone (rev cs) clockU 0 (all_executed cs (clockE 0%nat) o)) objs.
Proof.
  unfold execute_then_undo. cbn [execute undo local_run].
  unfold UpdateMultipleObjectsCommand.undo.
  rewrite batch_execute_local, batch_undo_local, map_map. reflexivity.
Qed.

Lemma update_execute_then_undo c clockE clockU objs :
  execute_then_undo (UpdateObject c) clockE clockU objs
  = map (fun o => all_undone (rev [c]) clockU 0 (all_executed [c] (clockE 0%nat) o)) objs.
Proof.
  unfold execute_then_undo. cbn. unfold apply_updater. cbn.
  rewrite map_map. reflexivity.
Qed.

(** Appending an object with a new id and filtering that id away. *)
Lemma append_then_filter object objs :
  find (has_id (id object)) objs = None ->
  filter (fun obj => negb (has_id (id object) obj)) (objs ++ [object]) = objs.
Proof.
  intros Hnew. rewrite filter_app. cbn.
  unfold has_id at 2. rewrite String.eqb_refl. cbn. rewrite app_nil_r.
  apply forallb_filter_id, forallb_forall. intros obj Hin.
  rewrite (find_none _ _ Hnew obj Hin). reflexivity.
Qed.

Lemma filter_out_unique object before after :
  NoDup (map id (before ++ object :: after)) ->
  filter (fun obj => negb (has_id (id object) obj)) (before ++ object :: after)
  = before ++ after
  /\ find (has_id (id object)) (before ++ after) = None.
Proof.
  intros Hnd. rewrite map_app in Hnd. cbn in Hnd. apply NoDup_remove_2 in Hnd.
  rewrite <- map_app in Hnd.
  assert (Hother : forall obj, In obj (before ++ after) -> has_id (id object) obj = false).
  { intros obj Hin. unfold has_id. apply String.eqb_neq. intros Heq.
    apply Hnd. rewrite <- Heq. apply in_map, Hin. }
  split.
  - rewrite filter_app. cbn. unfold has_id at 2. rewrite String.eqb_refl. cbn.
    rewrite <- filter_app. apply forallb_filter_id, forallb_forall.
    intros obj Hin. rewrite (Hother obj Hin). reflexivity.
  - destruct (find (has_id (id object)) (before ++ after)) eqn:E; [|reflexivity].
    apply find_some in E. destruct E as [Hin Hid]. rewrite (Hother _ Hin) in Hid.
    discriminate.
Qed.
End CommandFacts.

Section RoundTrip.
Import Js Commands.

Lemma sample_ids_distinct :
  NoDup (map id [Sample.rectangle; Sample.circle]).
Proof.
  cbn. repeat constructor; cbn; intuition discriminate.
Qed.

Lemma sample_rectangle_well_formed : well_formed Sample.rectangle.
Proof.
  split; [|reflexivity]. cbn. repeat constructor; cbn; intuition discriminate.
Qed.

Lemma sample_circle_well_formed : well_formed Sample.circle.
Proof.
  split; [|reflexivity]. cbn. repeat constructor; cbn; intuition discriminate.
Qed.

Lemma sample_widen_on_store :
  Canvas.update_command_on [Sample.rectangle; Sample.circle] Sample.widen.
Proof.
  split; [reflexivity|]. exists Sample.rectangle.
  split; [reflexivity|]. split; [exact sample_rectangle_well_formed | reflexivity].
Qed.

Lemma sample_rename_on_store :
  Canvas.update_command_on [Sample.rectangle; Sample.circle] Sample.rename.
Proof.
  split; [reflexivity|]. exists Sample.circle.
  split; [reflexivity|]. split; [exact sample_circle_well_formed | reflexivity].
Qed.
End RoundTrip.

(** C1, as the code has it.  [execute()] followed at once by [undo()]
    gives back the very list for an Add and for a GroupCreate whose id is
    new to the store.  For a Delete of an object of a store with distinct
    ids it gives back the same objects, unchanged, with the deleted one now
    last.  For a FieldUpdate built by [updateObject] on a store with
    distinct ids (the patch not carrying [id]), and for a batch of such
    commands, every object that no command addresses is unchanged, and an
    addressed one reads as before at every key and holds the same values in
    the same order, except that [lastModified] is the clock reading of an
    [undo]. *)
Theorem execute_then_undo_restores :
  (forall object objs clockE clockU,
     find (Commands.has_id (Commands.id object)) objs = None ->
     Commands.execute_then_undo (Commands.AddObject object) clockE clockU objs = objs)
  /\ (forall groupObject groupedObjectIds objs clockE clockU,
     find (Commands.has_id (Commands.id groupObject)) objs = None ->
     Commands.execute_then_undo
       (Commands.CreateGroup groupObject groupedObjectIds) clockE clockU objs = objs)
  /\ (forall object before after clockE clockU,
     NoDup (map Commands.id (before ++ object :: after)) ->
     Commands.execute_then_undo (Commands.DeleteObject object) clockE clockU
       (before ++ object :: after)
     = before ++ after ++ [object])
  /\ (forall c objs clockE clockU,
     NoDup (map Commands.id objs) -> Canvas.update_command_on objs c ->
     Forall2 (fun before after =>
                if Commands.has_id (Commands.UpdateObjectCommand.objectId c) before
                then Commands.restored_at (clockU 0%nat) before after
                else after = before)
       objs (Commands.execute_then_undo (Commands.UpdateObject c) clockE clockU objs))
  /\ (forall cs objs clockE clockU,
     NoDup (map Commands.id objs) -> Forall (Canvas.update_command_on objs) cs ->
     Forall2 (fun before after =>
                if Commands.touches cs before
                then exists m, (m < List.length cs)%nat
                               /\ Commands.restored_at (clockU m) before after
                else after = before)
       objs
       (Commands.execute_then_undo (Commands.UpdateMultipleObjects cs)
          clockE clockU objs)).
Proof.
  split; [|split; [|split; [|split]]].
  - intros object objs clockE clockU Hnew.
    unfold Commands.execute_then_undo. cbn. unfold Commands.apply_updater.
    rewrite Hnew. apply append_then_filter, Hnew.
  - intros groupObject ids objs clockE clockU Hnew.
    unfold Commands.execute_then_undo. cbn. unfold Commands.apply_updater.
    rewrite Hnew. apply append_then_filter, Hnew.
  - intros object before after clockE clockU Hnd.
    destruct (filter_out_unique object before after Hnd) as [Hfilter Hfind].
    unfold Commands.execute_then_undo. cbn. unfold Commands.apply_updater.
    rewrite Hfilter, Hfind. symmetry. apply app_assoc.
  - intros c objs clockE clockU Hnd Hcmd.
    rewrite update_execute_then_undo. apply Forall2_map_in. intros o Hin.
    destruct (update_command_on_captured objs c o Hnd Hin Hcmd) as [Hcap Hwf].
    assert (Hgood : Forall (Canvas.captured_from o) [c]) by (repeat constructor; apply Hcap).
    destruct (Commands.has_id (Commands.UpdateObjectCommand.objectId c) o) eqn:Hid.
    + destruct (batch_restores_object o [c] clockU (clockE 0%nat) Hgood (Hwf eq_refl))
        as (m & Hm & Hrest).
      { cbn. rewrite Hid. reflexivity. }
      cbn in Hm. replace m with 0%nat in Hrest by lia. exact Hrest.
    + destruct (batch_on_object o [c] Hgood o clockU 0%nat (clockE 0%nat) eq_refl)
        as (_ & _ & _ & _ & Hsame).
      apply Hsame. cbn. rewrite Hid. reflexivity.
  - intros cs objs clockE clockU Hnd Hcmds.
    rewrite batch_execute_then_undo. apply Forall2_map_in. intros o Hin.
    assert (Hgood : Forall (Canvas.captured_from o) cs).
    { apply Forall_forall. intros c Hc.
      apply (update_command_on_captured objs c o Hnd Hin).
      exact (proj1 (Forall_forall _ _) Hcmds c Hc). }
    destruct (Commands.touches cs o) eqn:Ht.
    + apply batch_restores_object; [exact Hgood | | exact Ht].
      unfold Commands.touches in Ht. apply existsb_exists in Ht.
      destruct Ht as (c & Hc & Hid).
      apply (update_command_on_captured objs c o Hnd Hin); [|exact Hid].
      exact (proj1 (Forall_forall _ _) Hcmds c Hc).
    + destruct (batch_on_object o cs Hgood o clockU 0%nat (clockE 0%nat) eq_refl)
        as (_ & _ & _ & _ & Hsame).
      exact (Hsame Ht).
Qed.

Lemma execute_then_undo_restores_witness :
  let store := [Sample.rectangle; Sample.circle] in
  let clockE := Sample.at_time 2000 in
  let clockU := Sample.at_time 3000 in
  Commands.execute_then_undo (Commands.AddObject Sample.line) clockE clockU store
  = store
  /\ Commands.execute_then_undo (Commands.CreateGroup Sample.group ["a"; "b"])
       clockE clockU store
     = store
  /\ Commands.execute_then_undo (Commands.DeleteObject Sample.rectangle)
       clockE clockU store
     = [Sample.circle; Sample.rectangle]
  /\ Forall2 (fun before after =>
                if Commands.has_id "a" before
                then Commands.restored_at (clockU 0%nat) before after
                else after = before)
       store
       (Commands.execute_then_undo (Commands.UpdateObject Sample.widen)
          clockE clockU store)
  /\ Forall2 (fun before after =>
                if Commands.touches [Sample.widen; Sample.rename] before
                then exists m, (m < 2)%nat
                               /\ Commands.restored_at (clockU m) before after
                else after = before)
       store
       (Commands.execute_then_undo
          (Commands.UpdateMultipleObjects [Sample.widen; Sample.rename])
          clockE clockU store).
Proof.
  intros store clockE clockU.
  destruct execute_then_undo_restores as (Hadd & Hgroup & Hdelete & Hupdate & Hbatch).
  split; [apply Hadd; reflexivity|].
  split; [apply Hgroup; reflexivity|].
  split; [exact (Hdelete Sample.rectangle [] [Sample.circle] clockE clockU
                   sample_ids_distinct)|].
  split.
  - exact (Hupdate Sample.widen store clockE clockU sample_ids_distinct
             sample_widen_on_store).
  - apply (Hbatch [Sample.widen; Sample.rename] store clockE clockU
             sample_ids_distinct).
    constructor; [exact sample_widen_on_store|].
    constructor; [exact sample_rename_on_store | constructor].
Defined.

(** C1 as stated fails: with its precondition met, a Delete brings the
    object back at the end of the list, and a FieldUpdate leaves the clock
    reading of [undo] in [lastModified]. *)
Lemma execute_then_undo_changes_store :
  let store := [Sample.rectangle; Sample.circle] in
  let clockE := Sample.at_time 2000 in
  let clockU := Sample.at_time 3000 in
  (find (Commands.has_id "a") store = Some Sample.rectangle
   /\ Commands.execute_then_undo (Commands.DeleteObject Sample.rectangle)
        clockE clockU store
      = [Sample.circle; Sample.rectangle]
   /\ Commands.execute_then_undo (Commands.DeleteObject Sample.rectangle)
        clockE clockU store
      <> store)
  /\ (Canvas.update_command_on store Sample.widen
      /\ map (Js.get "lastModified")
           (Commands.execute_then_undo (Commands.UpdateObject Sample.widen)
              clockE clockU store)
         = [Sample.number 3000; Sample.number 1100]
      /\ Commands.execute_then_undo (Commands.UpdateObject Sample.widen)
           clockE clockU store
         <> store).
Proof.
  intros store clockE clockU. split.
  - split; [reflexivity|]. split; [reflexivity|].
    intros H. apply (f_equal (map Commands.id)) in H. cbn in H. discriminate.
  - split; [exact sample_widen_on_store|]. split; [reflexivity|].
    intros H.
    apply (f_equal (map (fun o => match Js.as_num (Js.get "lastModified" o) with
                                  | Js.Fin q => Some (this q)
                                  | _ => None
                                  end))) in H.
    vm_compute in H. discriminate.
Qed.

(** ** The operation log *)

Section LogFacts.
Import CommandHistory.
Local Open Scope Z_scope.
Variable C : Type.
Implicit Types (h : CommandHistory.t C) (c : Call C) (cs : list (Call C)).

Lemma done_part_length h :
    log_ok h -> Z.of_nat (List.length (done_part h)) = currentIndex h + 1.
Proof.
    unfold log_ok, done_part, length. intros [Hc _].
    rewrite length_firstn. lia.
Qed.

Lemma truncation_is_done_part h :
    log_ok h ->
    (if currentIndex h <? length h - 1
     then slice0 (currentIndex h + 1) (history h)
     else history h) = done_part h.
Proof.
    intros Hok. pose proof Hok as [Hc _]. unfold done_part, slice0.
    destruct (currentIndex h <? length h - 1) eqn:E.
    - replace (currentIndex h + 1 <? 0) with false by (symmetry; apply Z.ltb_ge; lia).
      reflexivity.
    - apply Z.ltb_ge in E. unfold length in *.
      rewrite firstn_all2; [reflexivity | lia].
Qed.

Lemma executeCommand_eq command h :
    log_ok h ->
    executeCommand command h =
    if evicts h
    then make (tl (done_part h ++ [command])) (currentIndex h + 1 - 1)
    else make (done_part h ++ [command]) (currentIndex h + 1).
Proof.
    intros Hok. unfold executeCommand, evicts.
    rewrite (truncation_is_done_part h Hok).
    rewrite length_app. cbn [List.length].
    replace (Z.of_nat (List.length (done_part h) + 1))
      with (Z.of_nat (List.length (done_part h)) + 1) by lia.
    reflexivity.
Qed.

  (** After a commit the cursor is on the last entry. *)
Lemma executeCommand_cursor_last command h :
    log_ok h ->
    let h' := executeCommand command h in
    currentIndex h' = length h' - 1 /\ log_ok h'.
Proof.
    intros Hok. cbn zeta. rewrite (executeCommand_eq command h Hok).
    pose proof (done_part_length h Hok) as Hlen.
    pose proof Hok as [Hc Hcap].
    unfold evicts, log_ok, length, maxHistorySize in *.
    destruct (Z.of_nat (List.length (done_part h)) + 1 >? 100) eqn:E; cbn.
    - destruct (done_part h) as [|e pre] eqn:Ed; cbn in *.
      + lia.
      + rewrite length_app in *. cbn in *. lia.
    - rewrite length_app. cbn. lia.
Qed.

Lemma call_preserves_log_ok h c : log_ok h -> log_ok (call h c).
Proof.
    intros Hok. destruct c as [command ok|ok|ok|]; cbn.
    - apply (executeCommand_cursor_last command h Hok).
    - unfold undo_start, canUndo. destruct (currentIndex h >=? 0) eqn:E; [|exact Hok].
      destruct (current h); [|exact Hok]. destruct ok; [|exact Hok].
      destruct Hok as [Hc Hcap]. unfold log_ok, undo_finish, length in *. cbn. lia.
    - unfold redo_start, canRedo. destruct (currentIndex h <? length h - 1) eqn:E; [|exact Hok].
      cbn. destruct Hok as [Hc Hcap]. unfold log_ok, length in *. cbn. lia.
    - unfold log_ok, clear, length, maxHistorySize. cbn. lia.
Qed.

Lemma calls_preserve_log_ok cs : forall h, log_ok h -> log_ok (calls h cs).
Proof.
    induction cs as [|c cs IH]; intros h Hok; cbn; [exact Hok|].
    apply IH, call_preserves_log_ok, Hok.
Qed.

Lemma empty_log_ok : log_ok (@empty C).
Proof. unfold log_ok, empty, length, maxHistorySize. cbn. lia. Qed.

Lemma reachable_log_ok cs : log_ok (calls empty cs).
Proof. apply calls_preserve_log_ok, empty_log_ok. Qed.

(** Entries never enter the log except through a commit. *)
Lemma executeCommand_in command h a :
  In a (history (executeCommand command h)) -> In a (history h) \/ a = command.
Proof.
  unfold executeCommand.
  set (h1 := if currentIndex h <? length h - 1
             then slice0 (currentIndex h + 1) (history h) else history h).
  assert (Hsub : forall b, In b h1 -> In b (history h)).
  { subst h1. destruct (currentIndex h <? length h - 1); [|auto].
    unfold slice0. intros b. apply in_firstn_in. }
  assert (Hpush : In a (h1 ++ [command]) -> In a (history h) \/ a = command).
  { intros Hin. apply in_app_or in Hin. destruct Hin as [Hin|[Hin|[]]]; auto. }
  destruct (Z.of_nat (List.length (h1 ++ [command])) >? maxHistorySize); cbn.
  - intros Hin. apply Hpush, in_tl_in, Hin.
  - exact Hpush.
Qed.

Lemma executeCommand_NoDup command h :
  NoDup (history h) -> ~ In command (history h) ->
  NoDup (history (executeCommand command h)).
Proof.
  intros Hnd Hnew. unfold executeCommand.
  set (h1 := if currentIndex h <? length h - 1
             then slice0 (currentIndex h + 1) (history h) else history h).
  assert (Hsub : forall b, In b h1 -> In b (history h)).
  { subst h1. destruct (currentIndex h <? length h - 1); [|auto].
    unfold slice0. intros b. apply in_firstn_in. }
  assert (Hnd1 : NoDup h1).
  { subst h1. destruct (currentIndex h <? length h - 1); [|auto].
    unfold slice0. apply NoDup_firstn_of, Hnd. }
  assert (Hnd2 : NoDup (h1 ++ [command])).
  { apply NoDup_app; [exact Hnd1 | repeat constructor; intros [] |].
    intros b Hb [Hc|[]]. subst b. apply Hnew, Hsub, Hb. }
  destruct (Z.of_nat (List.length (h1 ++ [command])) >? maxHistorySize); cbn.
  - apply NoDup_tl_of, Hnd2.
  - exact Hnd2.
Qed.

Lemma committed_cons c cs : committed (c :: cs) = committed [c] ++ committed cs.
Proof. destruct c; reflexivity. Qed.

Lemma call_history_in h c a :
  In a (history (call h c)) -> In a (history h) \/ In a (committed [c]).
Proof.
  destruct c as [command ok|ok|ok|]; cbn.
  - intros Hin. apply executeCommand_in in Hin. destruct Hin as [Hin| ->]; auto.
  - destruct (undo_start h); auto. destruct ok; auto.
  - unfold redo_start. destruct (canRedo h); auto.
  - tauto.
Qed.

Lemma calls_history_in cs : forall h a,
  In a (history (calls h cs)) -> In a (history h) \/ In a (committed cs).
Proof.
  induction cs as [|c cs IH]; intros h a Hin; [cbn in *; auto|].
  rewrite committed_cons. change (calls h (c :: cs)) with (calls (call h c) cs) in Hin.
  apply IH in Hin. rewrite in_app_iff. destruct Hin as [Hin|Hin]; [|tauto].
  apply call_history_in in Hin. tauto.
Qed.

Lemma call_history_NoDup h c :
  NoDup (history h ++ committed [c]) -> NoDup (history (call h c)).
Proof.
  destruct c as [command ok|ok|ok|]; cbn; rewrite ?app_nil_r.
  - intros Hnd. apply executeCommand_NoDup.
    + exact (NoDup_app_remove_r _ _ Hnd).
    + apply NoDup_remove_2 in Hnd. rewrite app_nil_r in Hnd. exact Hnd.
  - destruct (undo_start h); auto. destruct ok; auto.
  - unfold redo_start. destruct (canRedo h); auto.
  - intros _. constructor.
Qed.

Lemma calls_history_NoDup cs : forall h,
  NoDup (history h ++ committed cs) -> NoDup (history (calls h cs)).
Proof.
  induction cs as [|c cs IH]; intros h Hnd.
  - cbn in *. rewrite app_nil_r in Hnd. exact Hnd.
  - change (calls h (c :: cs)) with (calls (call h c) cs). apply IH.
    rewrite committed_cons, app_assoc in Hnd.
    apply NoDup_app_parts in Hnd. destruct Hnd as (Hhead & Hlater & Hdisj).
    apply NoDup_app; [apply call_history_NoDup, Hhead | exact Hlater |].
    intros a Hin. apply Hdisj, in_or_app.
    apply call_history_in in Hin. exact Hin.
Qed.

(** [undo] reverses an entry of the log. *)
Lemma undo_target_in h command :
  undo_target h = Some command -> In command (history h).
Proof.
  unfold undo_target, undo_start, current.
  destruct (canUndo h); [|discriminate].
  destruct (currentIndex h <? 0); [discriminate|].
  destruct (nth_error (history h) (Z.to_nat (currentIndex h))) eqn:E; [|discriminate].
  intros [= <-]. exact (nth_error_In _ _ E).
Qed.

Lemma committed_app cs cs' : committed (cs ++ cs') = committed cs ++ committed cs'.
Proof.
  induction cs as [|c cs IH]; [reflexivity|].
  cbn [app]. rewrite (committed_cons c (cs ++ cs')), (committed_cons c cs), IH.
  apply app_assoc.
Qed.

(** When a commit evicts, the cursor was on the hundredth and last entry. *)
Lemma evicts_full h :
  log_ok h -> evicts h = true ->
  done_part h = history h /\ currentIndex h = maxHistorySize - 1.
Proof.
  intros Hok Hev. pose proof (done_part_length h Hok) as Hlen.
  destruct Hok as [Hc Hcap]. unfold evicts in Hev.
  apply Z.gtb_lt in Hev.
  assert (Hidx : currentIndex h = maxHistorySize - 1) by lia.
  split; [|exact Hidx].
  unfold done_part. apply firstn_all2. unfold length in *. lia.
Qed.

Lemma executeCommand_current command h :
  log_ok h -> current (executeCommand command h) = Some command.
Proof.
  intros Hok. pose proof (done_part_length h Hok) as Hlen.
  rewrite (executeCommand_eq command h Hok). unfold current.
  destruct (evicts h) eqn:Hev; cbn [currentIndex history].
  - destruct (evicts_full h Hok Hev) as [_ Hidx].
    unfold maxHistorySize in Hidx.
    replace (currentIndex h + 1 - 1 <? 0) with false by (symmetry; apply Z.ltb_ge; lia).
    destruct (done_part h) as [|e pre] eqn:Ed; cbn [List.length] in Hlen; [lia|].
    cbn [app tl].
    replace (Z.to_nat (currentIndex h + 1 - 1)) with (List.length pre + 0)%nat by lia.
    rewrite nth_error_app2 by lia.
    replace (List.length pre + 0 - List.length pre)%nat with 0%nat by lia. reflexivity.
  - destruct Hok as [Hc _].
    replace (currentIndex h + 1 <? 0) with false by (symmetry; apply Z.ltb_ge; lia).
    replace (Z.to_nat (currentIndex h + 1)) with (List.length (done_part h) + 0)%nat by lia.
    rewrite nth_error_app2 by lia.
    replace (List.length (done_part h) + 0 - List.length (done_part h))%nat with 0%nat by lia.
    reflexivity.
Qed.

(** A call other than [undo] leaves the cursor on the last entry when it
    was there. *)
Lemma call_keeps_cursor_last h c :
  log_ok h -> is_undo c = false ->
  currentIndex h = length h - 1 ->
  currentIndex (call h c) = length (call h c) - 1.
Proof.
  intros Hok Hc Hlast. destruct c as [command ok|ok|ok|]; cbn in *.
  - apply (executeCommand_cursor_last command h Hok).
  - discriminate.
  - unfold redo_start, canRedo.
    replace (currentIndex h <? length h - 1) with false
      by (symmetry; apply Z.ltb_ge; lia).
    exact Hlast.
  - reflexivity.
Qed.

Lemma calls_keep_cursor_last cs : forall h,
  log_ok h -> forallb (fun c => negb (is_undo c)) cs = true ->
  currentIndex h = length h - 1 ->
  currentIndex (calls h cs) = length (calls h cs) - 1.
Proof.
  induction cs as [|c cs IH]; intros h Hok Hcs Hlast; [exact Hlast|].
  cbn in Hcs. apply andb_true_iff in Hcs. destruct Hcs as [Hc Hcs].
  apply negb_true_iff in Hc.
  change (calls h (c :: cs)) with (calls (call h c) cs).
  apply IH; [apply call_preserves_log_ok, Hok | exact Hcs |].
  apply call_keeps_cursor_last; assumption.
Qed.

Lemma cursor_last_no_redo h : currentIndex h = length h - 1 -> canRedo h = false.
Proof. intros H. unfold canRedo. apply Z.ltb_ge. lia. Qed.
End LogFacts.

(** C4. In every state of the log that a sequence of [executeCommand],
    [undo], [redo] and [clear] calls reaches from the empty log, the cursor
    is at least [-1] and below the length (so it is [-1] on an empty log)
    and the length is at most 100; and when a commit evicts, the oldest
    entry goes, the cursor is taken back by one after its advance, and, the
    committed commands being distinct objects, no later sequence of calls
    brings the evicted entry back into the log or makes it the target of
    [undo]. *)
Theorem history_cursor_and_cap (C : Type) (cs : list (CommandHistory.Call C)) :
  let h := CommandHistory.calls CommandHistory.empty cs in
  (-1 <= CommandHistory.currentIndex h < CommandHistory.length h)%Z
  /\ (CommandHistory.length h = 0%Z -> CommandHistory.currentIndex h = (-1)%Z)
  /\ (CommandHistory.length h <= 100)%Z
  /\ forall command ok later,
       CommandHistory.evicts h = true ->
       NoDup (CommandHistory.committed
                (cs ++ CommandHistory.ExecuteCommand command ok :: later)) ->
       exists oldest kept,
         CommandHistory.history h = oldest :: kept
         /\ CommandHistory.history (CommandHistory.executeCommand command h)
            = kept ++ [command]
         /\ CommandHistory.currentIndex (CommandHistory.executeCommand command h)
            = (CommandHistory.currentIndex h + 1 - 1)%Z
         /\ ~ In oldest (CommandHistory.history
                           (CommandHistory.calls
                              (CommandHistory.executeCommand command h) later))
         /\ CommandHistory.undo_target
              (CommandHistory.calls (CommandHistory.executeCommand command h) later)
            <> Some oldest.
Proof.
  intros h. pose proof (reachable_log_ok C cs) as Hok. fold h in Hok.
  pose proof Hok as [Hc Hcap].
  split; [exact Hc|]. split; [lia|]. split; [exact Hcap|].
  intros command ok later Hev Hnd.
  destruct (evicts_full C h Hok Hev) as [Hdone Hidx].
  assert (Hlen : (CommandHistory.length h = 100)%Z).
  { unfold CommandHistory.maxHistorySize in *. lia. }
  destruct (CommandHistory.history h) as [|oldest kept] eqn:Hh.
  { unfold CommandHistory.length in Hlen. rewrite Hh in Hlen. cbn in Hlen. lia. }
  exists oldest, kept.
  assert (Hnew : CommandHistory.executeCommand command h
                 = CommandHistory.make (kept ++ [command])
                     (CommandHistory.currentIndex h + 1 - 1)).
  { rewrite (executeCommand_eq C command h Hok), Hev, Hdone. reflexivity. }
  rewrite committed_app in Hnd. cbn [CommandHistory.committed] in Hnd.
  apply NoDup_app_parts in Hnd. destruct Hnd as (Hnd_cs & Hnd_later & Hdisj).
  assert (Hnd_h : NoDup (CommandHistory.history h)).
  { apply calls_history_NoDup. exact Hnd_cs. }
  assert (Hold_cs : In oldest (CommandHistory.committed cs)).
  { destruct (calls_history_in C cs CommandHistory.empty oldest) as [[]|Hin].
    - fold h. rewrite Hh. left. reflexivity.
    - exact Hin. }
  assert (Habsent : ~ In oldest (CommandHistory.history
                      (CommandHistory.calls
                         (CommandHistory.executeCommand command h) later))).
  { intros Hin. apply calls_history_in in Hin. destruct Hin as [Hin|Hin].
    - rewrite Hnew in Hin. cbn in Hin. apply in_app_or in Hin.
      destruct Hin as [Hin|[Heq|[]]].
      + rewrite Hh in Hnd_h. inversion Hnd_h; contradiction.
      + subst command. apply (Hdisj oldest Hold_cs). left. reflexivity.
    - apply (Hdisj oldest Hold_cs). right. exact Hin. }
  split; [reflexivity|]. split; [rewrite Hnew; reflexivity|].
  split; [rewrite Hnew; reflexivity|]. split; [exact Habsent|].
  intros Htarget. apply Habsent, undo_target_in, Htarget.
Qed.

Lemma history_cursor_and_cap_witness :
  let cs := map (fun n => CommandHistory.ExecuteCommand n true) (seq 0 100) in
  let later := [CommandHistory.Undo true; CommandHistory.Redo true;
                CommandHistory.Undo true; CommandHistory.Undo false] in
  let h := CommandHistory.calls CommandHistory.empty cs in
  CommandHistory.evicts h = true
  /\ NoDup (CommandHistory.committed
              (cs ++ CommandHistory.ExecuteCommand 100%nat true :: later))
  /\ exists oldest kept,
       CommandHistory.history h = oldest :: kept
       /\ CommandHistory.history (CommandHistory.executeCommand 100%nat h)
          = kept ++ [100%nat]
       /\ CommandHistory.currentIndex (CommandHistory.executeCommand 100%nat h)
          = (CommandHistory.currentIndex h + 1 - 1)%Z
       /\ ~ In oldest (CommandHistory.history
                         (CommandHistory.calls
                            (CommandHistory.executeCommand 100%nat h) later))
       /\ CommandHistory.undo_target
            (CommandHistory.calls (CommandHistory.executeCommand 100%nat h) later)
          <> Some oldest.
Proof.
  intros cs later h.
  assert (Hev : CommandHistory.evicts h = true) by (vm_compute; reflexivity).
  assert (Hnd : NoDup (CommandHistory.committed
                         (cs ++ CommandHistory.ExecuteCommand 100%nat true :: later))).
  { change (NoDup (seq 0 101)). apply seq_NoDup. }
  split; [exact Hev|]. split; [exact Hnd|].
  destruct (history_cursor_and_cap nat cs) as (_ & _ & _ & Hevict).
  exact (Hevict 100%nat true later Hev Hnd).
Defined.

(** C5. From any reachable state of the log, a commit keeps the entries up
    to the cursor, drops those after it and appends the new command (less
    the oldest entry when it evicts), so [canRedo()] is false right after
    the commit, and it is still false after any further calls among which
    there is no [undo]. *)
Theorem commit_discards_redo (C : Type) (cs : list (CommandHistory.Call C))
  (command : C) (ok : bool) (later : list (CommandHistory.Call C)) :
  let h := CommandHistory.calls CommandHistory.empty cs in
  let h' := CommandHistory.call h (CommandHistory.ExecuteCommand command ok) in
  forallb (fun c => negb (CommandHistory.is_undo c)) later = true ->
  CommandHistory.history h'
  = (if CommandHistory.evicts h
     then tl (CommandHistory.done_part h ++ [command])
     else CommandHistory.done_part h ++ [command])
  /\ CommandHistory.canRedo h' = false
  /\ CommandHistory.canRedo (CommandHistory.calls h' later) = false.
Proof.
  intros h h' Hlater. pose proof (reachable_log_ok C cs) as Hok. fold h in Hok.
  destruct (executeCommand_cursor_last C command h Hok) as [Hlast Hok'].
  change (CommandHistory.executeCommand command h) with h' in Hlast, Hok'.
  split.
  - unfold h'. cbn [CommandHistory.call].
    rewrite (executeCommand_eq C command h Hok).
    destruct (CommandHistory.evicts h); reflexivity.
  - split; apply cursor_last_no_redo; [exact Hlast|].
    apply calls_keep_cursor_last; assumption.
Qed.

Lemma commit_discards_redo_witness :
  let cs := [CommandHistory.ExecuteCommand 1%nat true;
             CommandHistory.ExecuteCommand 2%nat true;
             CommandHistory.ExecuteCommand 3%nat true;
             CommandHistory.Undo true; CommandHistory.Undo true] in
  let later := [CommandHistory.Redo true;
                CommandHistory.ExecuteCommand 5%nat false;
                CommandHistory.Clear; CommandHistory.Redo true] in
  let h := CommandHistory.calls CommandHistory.empty cs in
  let h' := CommandHistory.call h (CommandHistory.ExecuteCommand 4%nat true) in
  CommandHistory.canRedo h = true
  /\ CommandHistory.history h' = [1%nat; 4%nat]
  /\ CommandHistory.canRedo h' = false
  /\ CommandHistory.canRedo (CommandHistory.calls h' later) = false.
Proof.
  intros cs later h h'.
  destruct (commit_discards_redo nat cs 4%nat true later) as (Hhist & Hnow & Hstay).
  - reflexivity.
  - split; [reflexivity|]. split; [exact Hhist|]. split; [exact Hnow | exact Hstay].
Defined.


(** ** The session *)

Section SessionFacts.
Import Js Commands Canvas.

Lemma framed_refl s : framed s s.
Proof. repeat split. Qed.

Lemma framed_trans s1 s2 s3 : framed s1 s2 -> framed s2 s3 -> framed s1 s3.
Proof.
  unfold framed. intros (A1 & A2 & A3 & A4 & A5 & A6) (B1 & B2 & B3 & B4 & B5 & B6).
  repeat split; congruence.
Qed.

Lemma run_effect_framed now s e : framed s (run_effect now s e).
Proof.
  destruct e as [u|obj|i|i updates]; cbn.
  - unfold updateObjectsState. destruct (u (items (objects s))); repeat split.
  - repeat split.
  - repeat split.
  - unfold updateInFirestore. destruct (find (has_id i) (items (objects s))); repeat split.
Qed.

Lemma run_effects_framed now effects : forall s,
  framed s (fold_left (run_effect now) effects s).
Proof.
  induction effects as [|e effects IH]; intros s; cbn.
  - apply framed_refl.
  - eapply framed_trans; [apply run_effect_framed | apply IH].
Qed.

Lemma run_stage_framed now stage s : framed s (run_stage now stage s).
Proof. apply run_effects_framed. Qed.

(** A commit edits the log, parks its continuation with nothing left to
    run, and leaves the flag as it found it. *)
Lemma commit_log_and_flag command clear now s :
  let s' := commit command clear now s in
  commandHistoryRef s'
  = CommandHistory.executeCommand command (commandHistoryRef s)
  /\ isExecutingCommandRef s' = isExecutingCommandRef s
  /\ pending s' = pending s ++ [mkPending (AfterExecuteCommand clear) []].
Proof.
  cbn zeta. unfold commit.
  set (s1 := with_history _ s).
  assert (Hone : exists stage, execute command = [stage])
    by (destruct command; cbn; eauto).
  destruct Hone as [stage ->]. cbn [suspend].
  destruct (run_stage_framed now stage s1) as (_ & _ & Hh & Hf & _ & Hp).
  cbn. rewrite Hh, Hf, Hp. repeat split.
Qed.

Lemma commit_user command clear now s :
  currentUser (commit command clear now s) = currentUser s.
Proof.
  unfold commit. set (s1 := with_history _ s).
  assert (Hone : exists stage, execute command = [stage])
    by (destruct command; cbn; eauto).
  destruct Hone as [stage ->]. cbn [suspend].
  destruct (run_stage_framed now stage s1) as (_ & _ & _ & _ & Hu & _).
  cbn. rewrite Hu. reflexivity.
Qed.

Lemma addObject_accepted s newId now object uid :
  currentUser s = Some uid -> isExecutingCommandRef s = false ->
  exists command, addObject newId now object s = commit command false now s.
Proof.
  intros Hu Hf. unfold addObject. rewrite Hu, Hf. eauto.
Qed.

Lemma appended_in_flight s p : in_flight (with_pending (pending s ++ [p]) s) = true.
Proof. unfold in_flight. cbn. destruct (pending s); reflexivity. Qed.

Lemma commit_in_flight command clear now s :
  in_flight (commit command clear now s) = true.
Proof.
  destruct (commit_log_and_flag command clear now s) as (_ & _ & Hp).
  cbn zeta in Hp. unfold in_flight. rewrite Hp. destruct (pending s); reflexivity.
Qed.

(** While the flag is up the reconciler drops every snapshot. *)
Lemma setObjects_dropped_when_executing JSON_stringify newObjects s :
  isExecutingCommandRef s = true -> setObjects JSON_stringify newObjects s = s.
Proof. intros H. unfold setObjects. rewrite H. reflexivity. Qed.

(** A snapshot that serialises differently replaces the store when the
    flag is down. *)
Lemma setObjects_replaces JSON_stringify newObjects s :
  isExecutingCommandRef s = false ->
  JSON_stringify (items (objects s)) <> JSON_stringify (items newObjects) ->
  objects (setObjects JSON_stringify newObjects s) = newObjects.
Proof.
  intros Hflag Hdiff. unfold setObjects. rewrite Hflag.
  destruct (String.eqb_spec (JSON_stringify (items (objects s)))
              (JSON_stringify (items newObjects))) as [Heq|_]; [contradiction|].
  reflexivity.
Qed.

(** While the flag is up, [addObject], [updateObject], [deleteObject],
    [undo] and [redo] return at once. *)
Lemma guarded_intents_rejected s :
  isExecutingCommandRef s = true ->
  (forall newId now object, addObject newId now object s = s)
  /\ (forall i updates now, updateObject i updates now s = s)
  /\ (forall i now, deleteObject i now s = s)
  /\ (forall now, undo now s = s)
  /\ (forall now, redo now s = s).
Proof.
  intros H. unfold addObject, updateObject, deleteObject, undo, redo.
  rewrite H. repeat split; intros; destruct (currentUser s); reflexivity.
Qed.
End SessionFacts.

(** C2, evaluated on the code.  [updateObject] applies its patch to the
    local state and awaits the store without raising
    [isExecutingCommandRef]; a snapshot that arrives before the write
    settles, and serialises differently from the local state, replaces the
    local state. *)
Theorem snapshot_overwrites_commit_in_flight
  (JSON_stringify : list Commands.CanvasObject -> string) (s : Canvas.State)
  (i : string) (updates : Commands.Partial) (now : Js.num)
  (docs : list Commands.CanvasObject) :
  Canvas.currentUser s <> None ->
  Canvas.isExecutingCommandRef s = false ->
  find (Commands.has_id i) (Canvas.items (Canvas.objects s)) <> None ->
  let s1 := Canvas.updateObject i updates now s in
  Canvas.in_flight s1 = true
  /\ Canvas.isExecutingCommandRef s1 = false
  /\ (JSON_stringify (Canvas.items (Canvas.objects s1)) <> JSON_stringify docs ->
      Canvas.items (Canvas.objects (Canvas.onSnapshot JSON_stringify docs s1)) = docs).
Proof.
  intros Huser Hflag Hfound. unfold Canvas.updateObject.
  destruct (Canvas.currentUser s) as [uid|]; [|contradiction].
  rewrite Hflag.
  destruct (find (Commands.has_id i) (Canvas.items (Canvas.objects s)))
    as [existingObject|]; [|contradiction].
  cbn zeta.
  set (command := Commands.UpdateObject _).
  destruct (commit_log_and_flag command false now s) as (_ & Hf & _). cbn zeta in Hf.
  split; [apply commit_in_flight|]. split; [rewrite Hf; exact Hflag|].
  intros Hdiff. unfold Canvas.onSnapshot, Canvas.alloc.
  rewrite setObjects_replaces; [reflexivity | exact (eq_trans Hf Hflag) | exact Hdiff].
Qed.

Lemma snapshot_overwrites_commit_in_flight_witness :
  let s1 := Canvas.updateObject "a" [("width", Sample.number 150)]
              (Js.of_Z 2000) Sample.session in
  let s2 := Canvas.onSnapshot Sample.stringify [Sample.rectangle; Sample.circle] s1 in
  map (Js.get "width") (Canvas.items (Canvas.objects Sample.session))
  = [Sample.number 100; Sample.number 100]
  /\ map (Js.get "width") (Canvas.items (Canvas.objects s1))
     = [Sample.number 150; Sample.number 100]
  /\ Canvas.in_flight s1 = true
  /\ Canvas.isExecutingCommandRef s1 = false
  /\ Canvas.items (Canvas.objects s2) = [Sample.rectangle; Sample.circle]
  /\ map (Js.get "width") (Canvas.items (Canvas.objects s2))
     = [Sample.number 100; Sample.number 100].
Proof.
  intros s1 s2.
  destruct (snapshot_overwrites_commit_in_flight Sample.stringify Sample.session
              "a" [("width", Sample.number 150)] (Js.of_Z 2000)
              [Sample.rectangle; Sample.circle])
    as (Hflight & Hflag & Hreplace).
  - discriminate.
  - reflexivity.
  - discriminate.
  - fold s1 in Hflight, Hflag, Hreplace.
    assert (Hitems : Canvas.items (Canvas.objects s2) = [Sample.rectangle; Sample.circle]).
    { apply Hreplace. vm_compute. discriminate. }
    split; [reflexivity|]. split; [reflexivity|].
    split; [exact Hflight|]. split; [exact Hflag|].
    split; [exact Hitems|]. rewrite Hitems. reflexivity.
Defined.

(** C3, evaluated on the code.  [createGroup] does not read
    [isExecutingCommandRef]: with a user and two selected ids it commits
    whatever is in flight.  And [addObject] (as the other commits) leaves
    the flag down while its command is in flight, so the next intent is
    committed too. *)
Theorem intents_accepted_while_in_flight :
  (forall s newId now uid,
     Canvas.currentUser s = Some uid ->
     (2 <= List.length (Canvas.selectedIds s))%nat ->
     let command :=
       Commands.CreateGroup (Canvas.newGroupObject newId now s uid)
         (Canvas.selectedIds s) in
     let s' := Canvas.createGroup newId now s in
     Canvas.commandHistoryRef s'
     = CommandHistory.executeCommand command (Canvas.commandHistoryRef s)
     /\ Canvas.pending s'
        = Canvas.pending s
          ++ [Canvas.mkPending (Canvas.AfterExecuteCommand true) []])
  /\ (forall s newId now object uid,
     Canvas.currentUser s = Some uid ->
     Canvas.isExecutingCommandRef s = false ->
     let s1 := Canvas.addObject newId now object s in
     Canvas.in_flight s1 = true
     /\ Canvas.isExecutingCommandRef s1 = false
     /\ forall newId' now' object',
          let s2 := Canvas.addObject newId' now' object' s1 in
          exists command,
            Canvas.commandHistoryRef s2
            = CommandHistory.executeCommand command (Canvas.commandHistoryRef s1)
            /\ Canvas.pending s2
               = Canvas.pending s1
                 ++ [Canvas.mkPending (Canvas.AfterExecuteCommand false) []]).
Proof.
  split.
  - intros s newId now uid Huser Hsel. cbn zeta. unfold Canvas.createGroup.
    rewrite Huser.
    replace (List.length (Canvas.selectedIds s) <? 2)%nat with false
      by (symmetry; apply Nat.ltb_ge; exact Hsel).
    destruct (commit_log_and_flag
                (Commands.CreateGroup (Canvas.newGroupObject newId now s uid)
                   (Canvas.selectedIds s)) true now s) as (Hh & _ & Hp).
    split; [exact Hh | exact Hp].
  - intros s newId now object uid Huser Hflag. cbn zeta.
    destruct (addObject_accepted s newId now object uid Huser Hflag) as [command ->].
    destruct (commit_log_and_flag command false now s) as (_ & Hf & _).
    cbn zeta in Hf. rewrite Hflag in Hf.
    pose proof (commit_user command false now s) as Hu. rewrite Huser in Hu.
    split; [apply commit_in_flight|]. split; [exact Hf|].
    intros newId' now' object'. cbn zeta.
    destruct (addObject_accepted _ newId' now' object' uid Hu Hf) as [command' ->].
    exists command'.
    destruct (commit_log_and_flag command' false now'
                (Canvas.commit command false now s)) as (Hh & _ & Hp).
    split; [exact Hh | exact Hp].
Qed.

Lemma intents_accepted_while_in_flight_witness :
  let undoing := Canvas.undo (Js.of_Z 2000) Sample.session in
  let grouped := Canvas.createGroup "g" (Js.of_Z 2001) undoing in
  Canvas.in_flight undoing = true
  /\ Canvas.isExecutingCommandRef undoing = true
  /\ Canvas.commandHistoryRef grouped
     = CommandHistory.executeCommand
         (Commands.CreateGroup
            (Canvas.newGroupObject "g" (Js.of_Z 2001) undoing "u") ["a"; "b"])
         (Canvas.commandHistoryRef undoing)
  /\ List.length (CommandHistory.history (Canvas.commandHistoryRef grouped)) = 3%nat
  /\ map Commands.id (Canvas.items (Canvas.objects grouped)) = ["a"; "g"]
  /\ List.length (Canvas.pending grouped) = 2%nat.
Proof.
  intros undoing grouped.
  destruct intents_accepted_while_in_flight as [Hgroup _].
  destruct (Hgroup undoing "g" (Js.of_Z 2001) "u") as [Hlog Hpending].
  - reflexivity.
  - vm_compute. lia.
  - split; [reflexivity|]. split; [reflexivity|]. split; [exact Hlog|].
    split; [reflexivity|]. split; [reflexivity|].
    fold grouped in Hpending. rewrite Hpending. reflexivity.
Defined.

(** C8, as the code has it.  The check of the reconciler is equality of
    the two JSON texts.  A snapshot that passes it, as it does whenever it
    holds the same objects, with their keys in the same order, in the same
    order, is dropped: [setObjects] returns with every cell as it was, so
    the state cell still holds the array it held, not the equal one that
    arrived.  A snapshot that fails it replaces the array while the flag is
    down, whatever the two hold. *)
Theorem equal_snapshot_keeps_the_array
  (JSON_stringify : list Commands.CanvasObject -> string)
  (newObjects : Canvas.Arr) (s : Canvas.State) :
  (JSON_stringify (Canvas.items newObjects)
   = JSON_stringify (Canvas.items (Canvas.objects s)) ->
   Canvas.setObjects JSON_stringify newObjects s = s)
  /\ (Canvas.items newObjects = Canvas.items (Canvas.objects s) ->
      Canvas.setObjects JSON_stringify newObjects s = s
      /\ Canvas.objects
           (Canvas.onSnapshot JSON_stringify (Canvas.items newObjects) s)
         = Canvas.objects s)
  /\ (Canvas.isExecutingCommandRef s = false ->
      JSON_stringify (Canvas.items newObjects)
      <> JSON_stringify (Canvas.items (Canvas.objects s)) ->
      Canvas.objects (Canvas.setObjects JSON_stringify newObjects s) = newObjects
      /\ Canvas.objects
           (Canvas.onSnapshot JSON_stringify (Canvas.items newObjects) s)
         = Canvas.mkArr (Canvas.heap s) (Canvas.items newObjects)).
Proof.
  assert (Hdrop : forall a s',
             JSON_stringify (Canvas.items a)
             = JSON_stringify (Canvas.items (Canvas.objects s')) ->
             Canvas.setObjects JSON_stringify a s' = s').
  { intros a s' Ha. unfold Canvas.setObjects.
    destruct (Canvas.isExecutingCommandRef s'); [reflexivity|].
    rewrite Ha, String.eqb_refl. reflexivity. }
  split; [apply Hdrop|]. split.
  - intros Hsame. split; [apply Hdrop; rewrite Hsame; reflexivity|].
    unfold Canvas.onSnapshot, Canvas.alloc.
    rewrite Hdrop; [reflexivity | cbn; rewrite Hsame; reflexivity].
  - intros Hflag Hdiff. split.
    + apply setObjects_replaces; [exact Hflag|].
      intros H. apply Hdiff. symmetry. exact H.
    + unfold Canvas.onSnapshot, Canvas.alloc.
      apply (setObjects_replaces JSON_stringify
               (Canvas.mkArr (Canvas.heap s) (Canvas.items newObjects))
               (Canvas.with_heap (S (Canvas.heap s)) s)); [exact Hflag|].
      intros H. apply Hdiff. symmetry. exact H.
Qed.

Lemma equal_snapshot_keeps_the_array_witness :
  let arrived := Canvas.mkArr 9 [Sample.rectangle; Sample.circle] in
  let other := Canvas.mkArr 9 [Sample.circle] in
  Canvas.ref arrived <> Canvas.ref (Canvas.objects Sample.session)
  /\ Canvas.setObjects Sample.stringify arrived Sample.session = Sample.session
  /\ Canvas.objects
       (Canvas.onSnapshot Sample.stringify [Sample.rectangle; Sample.circle]
          Sample.session)
     = Canvas.mkArr 2 [Sample.rectangle; Sample.circle]
  /\ Canvas.objects (Canvas.setObjects Sample.stringify other Sample.session)
     = other
  /\ Canvas.objects (Canvas.onSnapshot Sample.stringify [Sample.circle] Sample.session)
     = Canvas.mkArr 3 [Sample.circle].
Proof.
  intros arrived other.
  destruct (equal_snapshot_keeps_the_array Sample.stringify arrived Sample.session)
    as (Hjson & Hitems & _).
  destruct (equal_snapshot_keeps_the_array Sample.stringify other Sample.session)
    as (_ & _ & Hother).
  destruct (Hitems eq_refl) as [_ Hsnap].
  destruct (Hother eq_refl) as [Hset Hsnap'];
    [vm_compute; discriminate|].
  split; [cbn; discriminate|]. split; [apply Hjson; reflexivity|].
  split; [exact Hsnap|]. split; [exact Hset|exact Hsnap'].
Defined.

(** C8 as stated fails.  The snapshot that holds the rectangle with its
    keys in the opposite order, and the circle, has the same objects as the
    local state, property by property; so has the one with the two documents
    the other way round.  Each serialises to another text, and the reconciler
    puts the new array in the place of the one the state held. *)
Lemma reordered_snapshot_replaces_the_array :
  let local := Canvas.objects Sample.session in
  let reordered := [rev Sample.rectangle; Sample.circle] in
  let swapped := [Sample.circle; Sample.rectangle] in
  let s1 := Canvas.onSnapshot Sample.stringify reordered Sample.session in
  let s2 := Canvas.onSnapshot Sample.stringify swapped Sample.session in
  (Canvas.isExecutingCommandRef Sample.session = false
   /\ Canvas.ref local = 2%nat)
  /\ (Forall2 Js.same_properties (Canvas.items local) reordered
      /\ Canvas.objects s1 = Canvas.mkArr 3 reordered
      /\ Canvas.ref (Canvas.objects s1) <> Canvas.ref local)
  /\ ((forall obj, In obj swapped <-> In obj (Canvas.items local))
      /\ Canvas.objects s2 = Canvas.mkArr 3 swapped
      /\ Canvas.ref (Canvas.objects s2) <> Canvas.ref local).
Proof.
  intros local reordered swapped s1 s2.
  split; [split; reflexivity|]. split.
  - split; [|split; [vm_compute; reflexivity|cbn; discriminate]].
    constructor.
    + split; intros k.
      * symmetry. apply has_rev.
      * symmetry. apply get_rev. exact (proj1 sample_rectangle_well_formed).
    + constructor; [split; reflexivity|constructor].
  - split; [|split; [vm_compute; reflexivity|cbn; discriminate]].
    intros obj. cbn. tauto.
Qed.

(** C9. [createGroup] with fewer than two selected ids, and
    [updateObject] and [deleteObject] on an id that no object of the local
    state has, return at once with every cell as it was: no command is
    built, the log, the local state and the list of store calls are the
    same, and nothing is left pending. *)
Theorem failed_precondition_changes_nothing (s : Canvas.State) :
  (forall newId now,
     (List.length (Canvas.selectedIds s) < 2)%nat ->
     Canvas.createGroup newId now s = s)
  /\ (forall i updates now,
     find (Commands.has_id i) (Canvas.items (Canvas.objects s)) = None ->
     Canvas.updateObject i updates now s = s)
  /\ (forall i now,
     find (Commands.has_id i) (Canvas.items (Canvas.objects s)) = None ->
     Canvas.deleteObject i now s = s).
Proof.
  split; [|split].
  - intros newId now Hfew. unfold Canvas.createGroup.
    destruct (Canvas.currentUser s); [|reflexivity].
    replace (List.length (Canvas.selectedIds s) <? 2)%nat with true
      by (symmetry; apply Nat.ltb_lt; exact Hfew).
    reflexivity.
  - intros i updates now Hnone. unfold Canvas.updateObject.
    destruct (Canvas.currentUser s); [|reflexivity].
    destruct (Canvas.isExecutingCommandRef s); [reflexivity|].
    rewrite Hnone. reflexivity.
  - intros i now Hnone. unfold Canvas.deleteObject.
    destruct (Canvas.currentUser s); [|reflexivity].
    destruct (Canvas.isExecutingCommandRef s); [reflexivity|].
    rewrite Hnone. reflexivity.
Qed.

Lemma failed_precondition_changes_nothing_witness :
  let one := Canvas.selectObject (Some "a") Sample.session in
  Canvas.selectedIds one = ["a"]
  /\ Canvas.createGroup "g" (Js.of_Z 2000) one = one
  /\ Canvas.updateObject "zz" [("width", Sample.number 150)] (Js.of_Z 2000)
       Sample.session
     = Sample.session
  /\ Canvas.deleteObject "zz" (Js.of_Z 2000) Sample.session = Sample.session.
Proof.
  intros one.
  destruct (failed_precondition_changes_nothing one) as (Hgroup & _ & _).
  destruct (failed_precondition_changes_nothing Sample.session) as (_ & Hupdate & Hdelete).
  split; [reflexivity|].
  split; [apply Hgroup; vm_compute; lia|].
  split; [apply Hupdate; reflexivity | apply Hdelete; reflexivity].
Defined.

(** ** A commit whose write fails *)

Section RejectedCommit.
Import Js Commands Canvas.

Lemma remove_nth_last (A : Type) (l : list A) (a : A) :
  remove_nth (List.length l) (l ++ [a]) = l.
Proof. induction l as [|b l IH]; cbn; [reflexivity|]. rewrite IH. reflexivity. Qed.

Lemma nth_error_last (A : Type) (l : list A) (a : A) :
  nth_error (l ++ [a]) (List.length l) = Some a.
Proof. induction l as [|b l IH]; cbn; [reflexivity | exact IH]. Qed.

Lemma executeCommand_target (C : Type) (command : C) h :
  CommandHistory.log_ok h ->
  let h' := CommandHistory.executeCommand command h in
  In command (CommandHistory.history h')
  /\ CommandHistory.current h' = Some command
  /\ CommandHistory.canUndo h' = true
  /\ CommandHistory.undo_target h' = Some command.
Proof.
  intros Hok h'. pose proof (executeCommand_current C command h Hok) as Hcur.
  fold h' in Hcur.
  assert (Hcan : CommandHistory.canUndo h' = true).
  { unfold CommandHistory.current in Hcur. unfold CommandHistory.canUndo.
    destruct (CommandHistory.currentIndex h' <? 0)%Z eqn:E; [discriminate|].
    apply Z.ltb_ge in E. apply Z.geb_le. exact E. }
  assert (Htarget : CommandHistory.undo_target h' = Some command).
  { unfold CommandHistory.undo_target, CommandHistory.undo_start.
    rewrite Hcan, Hcur. reflexivity. }
  split; [exact (undo_target_in C h' command Htarget)|].
  split; [exact Hcur|]. split; [exact Hcan | exact Htarget].
Qed.
End RejectedCommit.

(** C10.  [executeCommand] has truncated, pushed, advanced the cursor and
    evicted before it awaits [command.execute()].  So, on every log reached
    from the empty one, a commit whose promise is rejected leaves the log as
    a fulfilled one does: the command is the entry at the cursor,
    [canUndo()] is true and the next [undo()] reverses that command.  And in
    the session, once the write of an accepted [addObject] is rejected, the
    [catch] has left the command in the log, at the cursor, as the target of
    the next [undo()]. *)
Theorem rejected_commit_stays_in_log :
  (forall (C : Type) (cs : list (CommandHistory.Call C)) (command : C),
     let h := CommandHistory.calls CommandHistory.empty cs in
     let h' := CommandHistory.call h (CommandHistory.ExecuteCommand command false) in
     h' = CommandHistory.call h (CommandHistory.ExecuteCommand command true)
     /\ In command (CommandHistory.history h')
     /\ CommandHistory.current h' = Some command
     /\ CommandHistory.canUndo h' = true
     /\ CommandHistory.undo_target h' = Some command)
  /\ (forall s newId now now' object uid,
     Canvas.currentUser s = Some uid ->
     Canvas.isExecutingCommandRef s = false ->
     CommandHistory.log_ok (Canvas.commandHistoryRef s) ->
     let started := Canvas.addObject newId now object s in
     let failed := Canvas.settle (List.length (Canvas.pending s)) false now' started in
     exists command,
       Canvas.commandHistoryRef failed
       = CommandHistory.executeCommand command (Canvas.commandHistoryRef s)
       /\ Canvas.pending failed = Canvas.pending s
       /\ CommandHistory.canUndo (Canvas.commandHistoryRef failed) = true
       /\ CommandHistory.undo_target (Canvas.commandHistoryRef failed) = Some command).
Proof.
  split.
  - intros C cs command h h'. split; [reflexivity|].
    apply executeCommand_target, reachable_log_ok.
  - intros s newId now now' object uid Huser Hflag Hlog. cbn zeta.
    destruct (addObject_accepted s newId now object uid Huser Hflag) as [command ->].
    exists command.
    destruct (commit_log_and_flag command false now s) as (Hh & _ & Hp).
    cbn zeta in Hh, Hp. unfold Canvas.settle.
    rewrite Hp, nth_error_last, remove_nth_last. cbn.
    rewrite Hh. split; [reflexivity|]. split; [reflexivity|].
    apply (executeCommand_target _ command _ Hlog).
Qed.

Lemma rejected_commit_stays_in_log_witness :
  let object := [("type", Js.VStr "text"); ("x", Sample.number 5);
                 ("y", Sample.number 5)] in
  let started := Canvas.addObject "t" (Js.of_Z 2000) object Sample.session in
  let failed := Canvas.settle 0 false (Js.of_Z 2005) started in
  List.length (CommandHistory.history (Canvas.commandHistoryRef failed)) = 3%nat
  /\ exists command,
       Canvas.commandHistoryRef failed
       = CommandHistory.executeCommand command
           (Canvas.commandHistoryRef Sample.session)
       /\ Canvas.pending failed = Canvas.pending Sample.session
       /\ CommandHistory.canUndo (Canvas.commandHistoryRef failed) = true
       /\ CommandHistory.undo_target (Canvas.commandHistoryRef failed) = Some command.
Proof.
  intros object started failed. split; [reflexivity|].
  destruct rejected_commit_stays_in_log as [_ Hsession].
  apply (Hsession Sample.session "t" (Js.of_Z 2000) (Js.of_Z 2005) object "u").
  - reflexivity.
  - reflexivity.
  - unfold CommandHistory.log_ok, CommandHistory.length, CommandHistory.maxHistorySize.
    cbn. lia.
Defined.

(** ** The group object *)

Section GroupFacts.
Import Js Commands Canvas.

Lemma Qc_leb_le (a b : Qc) : Qc_leb a b = true -> (a <= b)%Qc.
Proof. unfold Qc_leb, Qcle. apply Qle_bool_iff. Qed.

Lemma Qc_leb_gt (a b : Qc) : Qc_leb a b = false -> (b <= a)%Qc.
Proof.
  unfold Qc_leb, Qcle. intros H. apply Qlt_le_weak, Qnot_le_lt.
  intros Hle. apply Qle_bool_iff in Hle. congruence.
Qed.

(** [zIndex || 0] is the index itself: [0] is the only falsy one. *)
Lemma zIndex_or_0_of obj q : zIndex_of obj = Some q -> zIndex_or_0 obj = Fin q.
Proof.
  unfold zIndex_of, zIndex_or_0, or_else.
  destruct (get "zIndex" obj) as [| | |n| | |]; try discriminate.
  destruct n as [| |p|]; try discriminate. intros [= ->]. cbn.
  destruct (Qeq_bool (this q) 0) eqn:E; cbn; [|reflexivity].
  unfold of_Z. f_equal. apply Qc_is_canon. apply Qeq_bool_iff in E.
  rewrite E. reflexivity.
Qed.

Lemma fold_max_zIndex objs :
  (forall obj, In obj objs -> zIndex_of obj <> None) ->
  forall top0 a, zIndex_of top0 = Some a ->
  exists top m,
    (top = top0 \/ In top objs)
    /\ zIndex_of top = Some m
    /\ (a <= m)%Qc
    /\ (forall obj z, In obj objs -> zIndex_of obj = Some z -> (z <= m)%Qc)
    /\ fold_left max (map zIndex_or_0 objs) (Fin a) = Fin m.
Proof.
  induction objs as [|o objs IH]; intros Hall top0 a Htop0; cbn.
  - exists top0, a. split; [left; reflexivity|]. split; [exact Htop0|].
    split; [apply Qcle_refl|]. split; [intros obj z []|reflexivity].
  - destruct (zIndex_of o) as [z|] eqn:Hz;
      [|exfalso; apply (Hall o); [left; reflexivity | exact Hz]].
    rewrite (zIndex_or_0_of o z Hz). cbn.
    assert (Hrest : forall obj, In obj objs -> zIndex_of obj <> None)
      by (intros obj Hin; apply Hall; right; exact Hin).
    destruct (Qc_leb a z) eqn:Hle.
    + destruct (IH Hrest o z Hz) as (top & m & Hin & Hm & Hzm & Hmax & Hfold).
      exists top, m. split; [destruct Hin as [->|Hin]; auto|].
      split; [exact Hm|].
      split; [eapply Qcle_trans; [apply Qc_leb_le, Hle | exact Hzm]|].
      split; [|exact Hfold].
      intros obj z' [<-|Hin'] Hz'.
      * rewrite Hz in Hz'. injection Hz' as <-. exact Hzm.
      * exact (Hmax obj z' Hin' Hz').
    + destruct (IH Hrest top0 a Htop0) as (top & m & Hin & Hm & Ham & Hmax & Hfold).
      exists top, m. split; [destruct Hin as [->|Hin]; auto|].
      split; [exact Hm|]. split; [exact Ham|]. split; [|exact Hfold].
      intros obj z' [<-|Hin'] Hz'.
      * rewrite Hz in Hz'. injection Hz' as <-.
        eapply Qcle_trans; [apply Qc_leb_gt, Hle | exact Ham].
      * exact (Hmax obj z' Hin' Hz').
Qed.

Lemma newGroupObject_zIndex newId now s uid :
  get "zIndex" (newGroupObject newId now s uid)
  = VNum (add (max_list (map zIndex_or_0 (selectedObjects s))) (of_Z 1)).
Proof. unfold newGroupObject. rewrite !get_set. reflexivity. Qed.

Ltac by_order :=
  repeat match goal with
         | |- context [Qc_leb ?a ?b] => destruct (Qc_leb a b) eqn:?; cbn
         end;
  try congruence;
  repeat match goal with
         | H : Qc_leb _ _ = true |- _ => apply Qc_leb_le in H
         | H : Qc_leb _ _ = false |- _ => apply Qc_leb_gt in H
         end;
  try reflexivity;
  f_equal; apply Qcle_antisym; eauto using Qcle_trans, Qcle_refl.

Lemma min_assoc (a b c : num) : min (min a b) c = min a (min b c).
Proof. destruct a as [| |p|], b as [| |q|], c as [| |r|]; cbn; by_order. Qed.

Lemma max_assoc (a b c : num) : max (max a b) c = max a (max b c).
Proof. destruct a as [| |p|], b as [| |q|], c as [| |r|]; cbn; by_order. Qed.

(** Where every end point of a line is a coordinate that [||] lets
    through, the loop of [createGroup] follows the rule. *)
Lemma extend_by_rule b obj :
  (type obj = "line" ->
   truthy (get "x2" obj) = true /\ truthy (get "y2" obj) = true) ->
  extend b obj = rule_union b (rule_extent obj).
Proof.
  intros Hline. unfold extend, rule_extent, rule_union.
  destruct (String.eqb_spec (type obj) "line") as [Heq|_].
  - destruct (Hline Heq) as [Hx Hy]. unfold or_else. rewrite Hx, Hy. cbn.
    rewrite !min_assoc, !max_assoc. reflexivity.
  - destruct (String.eqb (type obj) "circle"); reflexivity.
Qed.

Lemma fold_extend_by_rule objs : forall b,
  (forall obj, In obj objs -> type obj = "line" ->
               truthy (get "x2" obj) = true /\ truthy (get "y2" obj) = true) ->
  fold_left extend objs b
  = fold_left (fun acc obj => rule_union acc (rule_extent obj)) objs b.
Proof.
  induction objs as [|obj objs IH]; intros b Hall; cbn; [reflexivity|].
  rewrite extend_by_rule by (apply Hall; left; reflexivity).
  apply IH. intros o Hin. apply Hall. right. exact Hin.
Qed.

Lemma padded_bounds_by_rule objs :
  (forall obj, In obj objs -> type obj = "line" ->
               truthy (get "x2" obj) = true /\ truthy (get "y2" obj) = true) ->
  padded_bounds objs = rule_box objs.
Proof.
  intros Hall. unfold padded_bounds, rule_box.
  rewrite (fold_extend_by_rule objs _ Hall). reflexivity.
Qed.

(** Comparing two rationals by their values. *)
Lemma Fin_eq (a b : Qc) : Qeq_bool (this a) (this b) = true -> Fin a = Fin b.
Proof. intros H. f_equal. apply Qc_is_canon, Qeq_bool_iff, H. Qed.
(** The members of the group: the objects of the store whose id is
    selected. *)
Lemma selectedObjects_In s obj :
  In obj (selectedObjects s)
  <-> In obj (items (objects s)) /\ In (id obj) (selectedIds s).
Proof.
  unfold selectedObjects. rewrite filter_In. split; intros [Hin Hsel].
  - split; [exact Hin|]. apply existsb_exists in Hsel as [j [Hj Heq]].
    apply String.eqb_eq in Heq. rewrite Heq. exact Hj.
  - split; [exact Hin|]. apply existsb_exists. exists (id obj).
    split; [exact Hsel|apply String.eqb_refl].
Qed.

Lemma zIndex_above_selected newId now s uid :
  selectedObjects s <> [] ->
  (forall obj, In obj (selectedObjects s) -> zIndex_of obj <> None) ->
  exists top m,
    In top (selectedObjects s)
    /\ zIndex_of top = Some m
    /\ (forall obj z, In obj (selectedObjects s) ->
                      zIndex_of obj = Some z -> (z <= m)%Qc)
    /\ get "zIndex" (newGroupObject newId now s uid) = VNum (Fin (m + 1)%Qc).
Proof.
  intros Hsome Hall. rewrite newGroupObject_zIndex. unfold max_list.
  destruct (selectedObjects s) as [|o objs]; [contradiction|].
  destruct (zIndex_of o) as [z|] eqn:Hz;
    [|exfalso; apply (Hall o); [left; reflexivity | exact Hz]].
  cbn [map fold_left]. rewrite (zIndex_or_0_of o z Hz). cbn [max].
  destruct (fold_max_zIndex objs) with (top0 := o) (a := z)
    as (top & m & Hin & Hm & Hzm & Hmax & Hfold);
    [intros obj Hobj; apply Hall; right; exact Hobj | exact Hz |].
  exists top, m. split; [destruct Hin as [->|Hin]; [left|right]; auto|].
  split; [exact Hm|]. split.
  - intros obj z' [<-|Hin'] Hz'.
    + rewrite Hz in Hz'. injection Hz' as <-. exact Hzm.
    + exact (Hmax obj z' Hin' Hz').
  - rewrite Hfold. reflexivity.
Qed.

(** What an accepted [createGroup] does with the group object it builds. *)
Lemma createGroup_commits newId now s uid :
  currentUser s = Some uid -> (2 <= List.length (selectedIds s))%nat ->
  let g := newGroupObject newId now s uid in
  let s' := createGroup newId now s in
  (id g = newId /\ type g = "group"%string
   /\ get "groupedObjects" g = VArr (map VStr (selectedIds s)))
  /\ commandHistoryRef s'
     = CommandHistory.executeCommand (CreateGroup g (selectedIds s))
         (commandHistoryRef s)
  /\ firestore s'
     = firestore s ++ [SetDoc newId (removeUndefinedValues (VObj g))]
  /\ (find (has_id newId) (items (objects s)) = None ->
      items (objects s') = items (objects s) ++ [g]).
Proof.
  intros Huser Hsel g s'.
  assert (Hget : forall k, get k g
            = if String.eqb k "lastModified" then VNum now
              else if String.eqb k "createdAt" then VNum now
              else if String.eqb k "id" then VStr newId
              else get k (groupObject uid (selectedIds s) (selectedObjects s))).
  { intros k. unfold g, newGroupObject. rewrite !get_set. reflexivity. }
  assert (Hid : id g = newId) by (unfold id; rewrite Hget; reflexivity).
  assert (Hs' : s' = commit (CreateGroup g (selectedIds s)) true now s).
  { unfold s', createGroup. rewrite Huser.
    destruct (Nat.ltb_spec (List.length (selectedIds s)) 2) as [Hlt|_]; [lia|].
    reflexivity. }
  split; [|split; [|split]].
  - split; [exact Hid|]. unfold type. rewrite !Hget. split; reflexivity.
  - rewrite Hs'. exact (proj1 (commit_log_and_flag _ true now s)).
  - rewrite Hs'. unfold commit. cbn [execute suspend].
    unfold run_stage, CreateGroupCommand.execute. cbn [fold_left run_effect].
    unfold addToFirestore. cbn [firestore with_pending with_firestore].
    rewrite Hid. f_equal.
    unfold updateObjectsState. cbn [items objects with_history].
    destruct (find (has_id newId) (items (objects s))); reflexivity.
  - intros Hnew. rewrite Hs'. unfold commit. cbn [execute suspend].
    unfold run_stage, CreateGroupCommand.execute. cbn [fold_left run_effect].
    unfold addToFirestore. cbn [objects with_pending with_firestore].
    unfold updateObjectsState. cbn [items objects with_history].
    rewrite Hid, Hnew. reflexivity.
Qed.
End GroupFacts.

(** C7. When [createGroup] is accepted (a user is signed in and at least
    two ids are selected), some object of the store has a selected id and
    every such object has a z-order index, the group object that
    [createGroup] builds, logs in its command, writes to the store and, its
    id being new, appends to the local array has the largest z-order index
    among the objects of the store whose id is selected, plus one. *)
Theorem group_zIndex_above_members (newId : string) (now : Js.num)
  (s : Canvas.State) (uid : string) :
  Canvas.currentUser s = Some uid ->
  (2 <= List.length (Canvas.selectedIds s))%nat ->
  (exists obj, In obj (Canvas.items (Canvas.objects s))
               /\ In (Commands.id obj) (Canvas.selectedIds s)) ->
  (forall obj, In obj (Canvas.items (Canvas.objects s)) ->
               In (Commands.id obj) (Canvas.selectedIds s) ->
               Canvas.zIndex_of obj <> None) ->
  let s' := Canvas.createGroup newId now s in
  exists g top m,
    (In top (Canvas.items (Canvas.objects s))
     /\ In (Commands.id top) (Canvas.selectedIds s)
     /\ Canvas.zIndex_of top = Some m
     /\ (forall obj z, In obj (Canvas.items (Canvas.objects s)) ->
                       In (Commands.id obj) (Canvas.selectedIds s) ->
                       Canvas.zIndex_of obj = Some z -> (z <= m)%Qc))
    /\ Js.get "zIndex" g = Js.VNum (Js.Fin (m + 1)%Qc)
    /\ (Commands.id g = newId /\ Commands.type g = "group"%string
        /\ Js.get "groupedObjects" g
           = Js.VArr (map Js.VStr (Canvas.selectedIds s)))
    /\ Canvas.commandHistoryRef s'
       = CommandHistory.executeCommand
           (Commands.CreateGroup g (Canvas.selectedIds s))
           (Canvas.commandHistoryRef s)
    /\ Canvas.firestore s'
       = Canvas.firestore s
         ++ [Canvas.SetDoc newId (Canvas.removeUndefinedValues (Js.VObj g))]
    /\ (find (Commands.has_id newId) (Canvas.items (Canvas.objects s)) = None ->
        Canvas.items (Canvas.objects s')
        = Canvas.items (Canvas.objects s) ++ [g]).
Proof.
  intros Huser Hsel [member [Hin Hid]] Hall s'.
  destruct (zIndex_above_selected newId now s uid)
    as (top & m & Htop & Hm & Hmax & Hz).
  - intros Hnone.
    assert (Hmem : In member (Canvas.selectedObjects s))
      by (apply selectedObjects_In; split; assumption).
    rewrite Hnone in Hmem. destruct Hmem.
  - intros obj Hobj. apply selectedObjects_In in Hobj as [Ho Hs].
    exact (Hall obj Ho Hs).
  - destruct (createGroup_commits newId now s uid Huser Hsel)
      as (Hg & Hlog & Hstore & Hitems).
    exists (Canvas.newGroupObject newId now s uid), top, m.
    apply selectedObjects_In in Htop as [Htop Htopsel].
    split; [|split; [exact Hz|split; [exact Hg|split; [exact Hlog|split]]]].
    + split; [exact Htop|]. split; [exact Htopsel|]. split; [exact Hm|].
      intros obj z Ho Hs Hzo. apply (Hmax obj z); [|exact Hzo].
      apply selectedObjects_In. split; assumption.
    + exact Hstore.
    + exact Hitems.
Qed.

Lemma group_zIndex_above_members_witness :
  let s' := Canvas.createGroup "g" (Js.of_Z 2000) Sample.session in
  map Canvas.zIndex_of (Canvas.items (Canvas.objects Sample.session))
  = [Some (Q2Qc 1); Some (Q2Qc 2)]
  /\ exists g top m,
       (In top (Canvas.items (Canvas.objects Sample.session))
        /\ In (Commands.id top) (Canvas.selectedIds Sample.session)
        /\ Canvas.zIndex_of top = Some m
        /\ (forall obj z, In obj (Canvas.items (Canvas.objects Sample.session)) ->
                          In (Commands.id obj) (Canvas.selectedIds Sample.session) ->
                          Canvas.zIndex_of obj = Some z -> (z <= m)%Qc))
       /\ Js.get "zIndex" g = Js.VNum (Js.Fin (m + 1)%Qc)
       /\ (Commands.id g = "g"%string /\ Commands.type g = "group"%string
           /\ Js.get "groupedObjects" g
              = Js.VArr (map Js.VStr (Canvas.selectedIds Sample.session)))
       /\ Canvas.commandHistoryRef s'
          = CommandHistory.executeCommand
              (Commands.CreateGroup g (Canvas.selectedIds Sample.session))
              (Canvas.commandHistoryRef Sample.session)
       /\ Canvas.firestore s'
          = Canvas.firestore Sample.session
            ++ [Canvas.SetDoc "g" (Canvas.removeUndefinedValues (Js.VObj g))]
       /\ (find (Commands.has_id "g") (Canvas.items (Canvas.objects Sample.session))
           = None ->
           Canvas.items (Canvas.objects s')
           = Canvas.items (Canvas.objects Sample.session) ++ [g]).
Proof.
  intros s'. split; [reflexivity|].
  apply (group_zIndex_above_members "g" (Js.of_Z 2000) Sample.session "u").
  - reflexivity.
  - apply le_n.
  - exists Sample.rectangle. split; [left; reflexivity|left; reflexivity].
  - intros obj [<-|[<-|[]]] _; discriminate.
Defined.

(** C6, evaluated on the code.  For a line from (100, 100) to (0, 0)
    grouped with the circle centred at (200, 0) of radius 50, [x2 || x]
    reads the end point [0] as absent: the padded box starts at [x = 80]
    and leaves the end of the line outside, where the box of the rule, over
    both end points, starts at [-20]. *)
Theorem group_box_misses_line_end :
  let b := Canvas.padded_bounds [Sample.line; Sample.circle] in
  let g := Canvas.groupObject "u" ["c"; "b"] [Sample.line; Sample.circle] in
  Js.get "x2" Sample.line = Sample.number 0
  /\ Canvas.minX b = Js.of_Z 80
  /\ Canvas.maxX b = Js.of_Z 270
  /\ Canvas.minY b = Js.of_Z (-70)
  /\ Canvas.maxY b = Js.of_Z 120
  /\ Commands.x g = Js.of_Z 175
  /\ Commands.width g = Js.of_Z 190
  /\ Js.min (Canvas.minX b) (Js.of_Z 0) = Js.of_Z 0
  /\ Canvas.minX (Canvas.rule_box [Sample.line; Sample.circle]) = Js.of_Z (-20).
Proof.
  cbn zeta. repeat split; try reflexivity; apply Fin_eq; vm_compute; reflexivity.
Qed.

(** The instance that C6 gives: the rectangle centred at (0, 0), 100 by
    100, with the circle centred at (200, 0) of radius 50. *)
Lemma group_of_rectangle_and_circle :
  let b := Canvas.padded_bounds [Sample.rectangle; Sample.circle] in
  let g := Canvas.groupObject "u" ["a"; "b"] [Sample.rectangle; Sample.circle] in
  (Canvas.minX b = Js.of_Z (-70) /\ Canvas.maxX b = Js.of_Z 270
   /\ Canvas.minY b = Js.of_Z (-70) /\ Canvas.maxY b = Js.of_Z 70)
  /\ Commands.x g = Js.of_Z 100
  /\ Commands.y g = Js.of_Z 0
  /\ Commands.width g = Js.of_Z 340
  /\ Commands.height g = Js.of_Z 140.
Proof.
  cbn zeta. repeat split; apply Fin_eq; vm_compute; reflexivity.
Qed.

(** ** The log under every interleaving the session allows *)

Section SessionInvariant.
Import Js Commands Canvas.
Variable JSON_stringify : list CanvasObject -> string.

Lemma remove_nth_in (A : Type) (l : list A) : forall n a,
  In a (remove_nth n l) -> In a l.
Proof.
  induction l as [|b l IH]; intros n a; destruct n; cbn; auto.
  intros [->|Hin]; eauto.
Qed.

Lemma replace_nth_in (A : Type) (l : list A) : forall n b a,
  In a (replace_nth n b l) -> a = b \/ In a l.
Proof.
  induction l as [|c l IH]; intros n b a; destruct n; cbn; auto.
  - intros [->|Hin]; auto.
  - intros [->|Hin]; auto. destruct (IH n b a Hin); auto.
Qed.

Lemma remove_nth_count (A : Type) (f : A -> bool) (l : list A) : forall n p,
  nth_error l n = Some p ->
  List.length (filter f l)
  = ((if f p then 1 else 0) + List.length (filter f (remove_nth n l)))%nat.
Proof.
  induction l as [|b l IH]; intros n p; destruct n; cbn; try discriminate.
  - intros [= ->]. destruct (f p); reflexivity.
  - intros Hn. specialize (IH n p Hn). destruct (f b), (f p); cbn in *; lia.
Qed.

Lemma replace_nth_count (A : Type) (f : A -> bool) (l : list A) : forall n p p',
  nth_error l n = Some p -> f p' = f p ->
  List.length (filter f (replace_nth n p' l)) = List.length (filter f l).
Proof.
  induction l as [|b l IH]; intros n p p'; destruct n; cbn; try discriminate.
  - intros [= ->] ->. destruct (f p); reflexivity.
  - intros Hn Hf. specialize (IH n p p' Hn Hf). destruct (f b); cbn; lia.
Qed.

Lemma commit_ok command clear now s :
  session_ok s -> session_ok (commit command clear now s).
Proof.
  intros (Hlog & Hcount & Hundo).
  destruct (commit_log_and_flag command clear now s) as (Hh & Hf & Hp).
  cbn zeta in *. unfold session_ok. rewrite Hh, Hf, Hp.
  split; [apply (call_preserves_log_ok _ _ (CommandHistory.ExecuteCommand command true)), Hlog|].
  split.
  - rewrite filter_app, length_app. cbn. rewrite Hcount. lia.
  - intros _ _ _. apply (executeCommand_target _ command _ Hlog).
Qed.

Lemma suspend_fields k stages now s :
  let s' := suspend k stages now s in
  commandHistoryRef s' = commandHistoryRef s
  /\ isExecutingCommandRef s' = isExecutingCommandRef s
  /\ pending s' = pending s ++ [mkPending k (tl stages)].
Proof.
  cbn zeta. destruct stages as [|stage more]; cbn; [repeat split|].
  destruct (run_stage_framed now stage s) as (_ & _ & Hh & Hf & _ & Hp).
  rewrite Hh, Hf, Hp. repeat split.
Qed.

Lemma session_ok_ext s s' :
  commandHistoryRef s' = commandHistoryRef s ->
  isExecutingCommandRef s' = isExecutingCommandRef s ->
  pending s' = pending s ->
  session_ok s -> session_ok s'.
Proof. unfold session_ok. intros -> -> ->. auto. Qed.

Lemma none_holds_flag (l : list Pending) :
  List.length (filter holds_flag l) = 0%nat ->
  forall p, In p l -> holds_flag p = false.
Proof.
  induction l as [|q l IH]; cbn; intros Hzero p Hin; [contradiction|].
  destruct (holds_flag q) eqn:Hq; [discriminate|].
  destruct Hin as [<-|Hin]; [exact Hq | exact (IH Hzero p Hin)].
Qed.

Lemma undo_finish_ok (h : CommandHistory.t Command) :
  CommandHistory.log_ok h -> CommandHistory.canUndo h = true ->
  CommandHistory.log_ok (CommandHistory.undo_finish h).
Proof.
  unfold CommandHistory.log_ok, CommandHistory.canUndo, CommandHistory.undo_finish,
    CommandHistory.length.
  intros [Hc Hcap] Hcan. apply Z.geb_le in Hcan. cbn. lia.
Qed.

(** Taking a suspended call off the list: the flag, if that call held it,
    comes down with it. *)
Lemma released s n p :
  session_ok s -> nth_error (pending s) n = Some p ->
  let s' := with_pending (remove_nth n (pending s)) s in
  (holds_flag p = false -> session_ok s')
  /\ (holds_flag p = true ->
      forall h, CommandHistory.log_ok h ->
                session_ok (with_executing false (with_history h s'))).
Proof.
  intros (Hlog & Hcount & Hundo) Hn. cbn zeta.
  pose proof (remove_nth_count _ holds_flag (pending s) n p Hn) as Hc.
  split; intros Hp; rewrite Hp in Hc.
  - split; [exact Hlog|]. split; [cbn; lia|].
    intros q Hq. apply Hundo. exact (remove_nth_in _ _ _ _ Hq).
  - intros h Hh. split; [exact Hh|]. cbn.
    assert (Hzero : List.length (filter holds_flag (remove_nth n (pending s))) = 0%nat)
      by (destruct (isExecutingCommandRef s); lia).
    split; [exact Hzero|].
    intros q Hq Hk. pose proof (none_holds_flag _ Hzero q Hq) as Hnot.
    unfold holds_flag in Hnot. rewrite Hk in Hnot. discriminate.
Qed.

Lemma settle_ok n ok now s : session_ok s -> session_ok (settle n ok now s).
Proof.
  intros Hs. unfold settle.
  destruct (nth_error (pending s) n) as [p|] eqn:Hn; [|exact Hs].
  destruct (released s n p Hs Hn) as [Hfree Hheld]. cbn zeta in Hfree, Hheld.
  pose proof Hs as (Hlog & Hcount & Hundo).
  assert (Hfail : session_ok (fail (continuation p)
                    (with_pending (remove_nth n (pending s)) s))).
  { unfold fail. destruct (continuation p) eqn:Hk;
      try (apply (Hheld ltac:(unfold holds_flag; rewrite Hk; reflexivity)
                    (commandHistoryRef s) Hlog)).
    apply Hfree. unfold holds_flag. rewrite Hk. reflexivity. }
  destruct ok; [|exact Hfail].
  destruct (rest p) as [|stage more] eqn:Hrest.
  - unfold finish. destruct (continuation p) eqn:Hk.
    + assert (Hok : session_ok (with_pending (remove_nth n (pending s)) s))
        by (apply Hfree; unfold holds_flag; rewrite Hk; reflexivity).
      destruct clear; [|exact Hok].
      eapply session_ok_ext; [| | |exact Hok]; reflexivity.
    + assert (Hcan : CommandHistory.canUndo (commandHistoryRef s) = true)
        by (apply (Hundo p (nth_error_In _ _ Hn) Hk)).
      eapply session_ok_ext;
        [| | |exact (Hheld ltac:(unfold holds_flag; rewrite Hk; reflexivity)
                       _ (undo_finish_ok _ Hlog Hcan))]; reflexivity.
    + eapply session_ok_ext;
        [| | |exact (Hheld ltac:(unfold holds_flag; rewrite Hk; reflexivity)
                       _ Hlog)]; reflexivity.
    + exact (Hheld ltac:(unfold holds_flag; rewrite Hk; reflexivity) _ Hlog).
  - destruct (run_stage_framed now stage s) as (_ & _ & Hh & Hf & _ & Hp).
    unfold session_ok. cbn. rewrite Hh, Hf, Hp.
    split; [exact Hlog|]. split.
    + rewrite (replace_nth_count _ holds_flag (pending s) n p); [exact Hcount | exact Hn | reflexivity].
    + intros q Hq Hk. apply replace_nth_in in Hq. destruct Hq as [->|Hq].
      * exact (Hundo p (nth_error_In _ _ Hn) Hk).
      * exact (Hundo q Hq Hk).
Qed.

Lemma undo_ok now s : session_ok s -> session_ok (undo now s).
Proof.
  intros Hs. pose proof Hs as (Hlog & Hcount & Hundo). unfold undo.
  destruct (isExecutingCommandRef s) eqn:Hflag; [exact Hs|].
  destruct (CommandHistory.canUndo (commandHistoryRef s)) eqn:Hcan; [|exact Hs].
  cbn [negb].
  assert (Hgen : forall k stages, holds_flag (mkPending k (tl stages)) = true ->
                 session_ok (suspend k stages now (with_executing true s))).
  { intros k stages Hk.
    destruct (suspend_fields k stages now (with_executing true s)) as (Hh & Hf & Hp).
    cbn zeta in *. unfold session_ok. rewrite Hh, Hf, Hp. cbn.
    split; [exact Hlog|]. split.
    - rewrite filter_app, length_app, Hcount. cbn. rewrite Hk. reflexivity.
    - intros _ _ _. exact Hcan. }
  destruct (CommandHistory.undo_start (commandHistoryRef (with_executing true s)));
    apply Hgen; reflexivity.
Qed.

Lemma redo_ok now s : session_ok s -> session_ok (redo now s).
Proof.
  intros Hs. pose proof Hs as (Hlog & Hcount & Hundo). unfold redo.
  destruct (isExecutingCommandRef s) eqn:Hflag; [exact Hs|].
  destruct (CommandHistory.canRedo (commandHistoryRef s)) eqn:Hcan; [|exact Hs].
  cbn [negb].
  pose proof (call_preserves_log_ok _ _ (CommandHistory.Redo true) Hlog) as Hlog'.
  cbn [CommandHistory.call] in Hlog'.
  change (commandHistoryRef (with_executing true s)) with (commandHistoryRef s).
  destruct (CommandHistory.redo_start (commandHistoryRef s)) as [h started].
  cbn [fst] in Hlog'.
  assert (Hgen : forall k stages,
             holds_flag (mkPending k (tl stages)) = true -> k <> AfterUndo ->
             session_ok (suspend k stages now (with_history h (with_executing true s)))).
  { intros k stages Hk Hnot.
    destruct (suspend_fields k stages now (with_history h (with_executing true s)))
      as (Hh & Hf & Hp).
    cbn zeta in *. unfold session_ok. rewrite Hh, Hf, Hp. cbn.
    split; [exact Hlog'|]. split.
    - rewrite filter_app, length_app, Hcount. cbn. rewrite Hk. reflexivity.
    - intros q Hq Hkq. apply in_app_or in Hq. destruct Hq as [Hq|[<-|[]]].
      + pose proof (none_holds_flag _ Hcount q Hq) as Hnone.
        unfold holds_flag in Hnone. rewrite Hkq in Hnone. discriminate.
      + cbn in Hkq. contradiction. }
  destruct started; apply Hgen; try reflexivity; discriminate.
Qed.

Lemma step_ok s timed : session_ok s -> session_ok (step JSON_stringify s timed).
Proof.
  intros Hs. destruct timed as [now e]. destruct e; cbn [step].
  - unfold addObject. destruct (currentUser s); [|exact Hs].
    destruct (isExecutingCommandRef s); [exact Hs | apply commit_ok, Hs].
  - unfold updateObject. destruct (currentUser s); [|exact Hs].
    destruct (isExecutingCommandRef s); [exact Hs|].
    destruct (find (has_id i) (items (objects s))); [apply commit_ok, Hs | exact Hs].
  - eapply session_ok_ext; [| | |exact Hs]; reflexivity.
  - unfold deleteObject. destruct (currentUser s); [|exact Hs].
    destruct (isExecutingCommandRef s) eqn:Hflag; [exact Hs|].
    destruct (find (has_id i) (items (objects s))); [|exact Hs].
    apply commit_ok. destruct (selectedId s) as [j|]; [|exact Hs].
    destruct (String.eqb j i); [|exact Hs].
    eapply session_ok_ext; [| | |exact Hs]; reflexivity.
  - eapply session_ok_ext; [| | |exact Hs]; reflexivity.
  - eapply session_ok_ext; [| | |exact Hs]; reflexivity.
  - unfold addToSelection. destruct (existsb (String.eqb i) (selectedIds s)); [exact Hs|].
    eapply session_ok_ext; [| | |exact Hs]; reflexivity.
  - eapply session_ok_ext; [| | |exact Hs]; reflexivity.
  - eapply session_ok_ext; [| | |exact Hs]; reflexivity.
  - unfold createGroup. destruct (currentUser s); [|exact Hs].
    destruct (List.length (selectedIds s) <? 2)%nat; [exact Hs | apply commit_ok, Hs].
  - apply undo_ok, Hs.
  - apply redo_ok, Hs.
  - unfold onSnapshot, alloc, setObjects. cbn.
    destruct (isExecutingCommandRef s);
      [eapply session_ok_ext; [| | |exact Hs]; reflexivity|].
    destruct (String.eqb _ _).
    + eapply session_ok_ext; [| | |exact Hs]; reflexivity.
    + eapply session_ok_ext; [| | |exact Hs]; reflexivity.
  - apply settle_ok, Hs.
Qed.

Lemma initial_ok uid : session_ok (initial uid).
Proof.
  split; [apply empty_log_ok|]. split; [reflexivity|]. intros p [].
Qed.

(** Whatever the session goes through, overlapping calls included, its
    log keeps the cursor within bounds and its length within the cap. *)
Lemma session_log_ok uid events :
  CommandHistory.log_ok (commandHistoryRef (run JSON_stringify (initial uid) events)).
Proof.
  assert (Hrun : forall evs s, session_ok s -> session_ok (run JSON_stringify s evs)).
  { induction evs as [|e evs IH]; intros s Hs; cbn; [exact Hs|].
    apply IH, step_ok, Hs. }
  exact (proj1 (Hrun events (initial uid) (initial_ok uid))).
Qed.
End SessionInvariant.

(** * Further properties *)

(** ** Undo and redo on the log *)

Section LogRoundTrips.
Import CommandHistory.
Local Open Scope Z_scope.
Variable C : Type.
Implicit Types (h : CommandHistory.t C) (cs : list (Call C)).

Lemma make_eta h i : i = currentIndex h -> make (history h) i = h.
Proof. intros ->. destruct h; reflexivity. Qed.

(** Within bounds the slot at the cursor holds a command. *)
Lemma current_some h :
  log_ok h -> canUndo h = true -> exists command, current h = Some command.
Proof.
  intros [Hc _] Hcan. unfold canUndo in Hcan. apply Z.geb_le in Hcan.
  unfold current. replace (currentIndex h <? 0) with false
    by (symmetry; apply Z.ltb_ge; lia).
  destruct (nth_error (history h) (Z.to_nat (currentIndex h))) eqn:E; [eauto|].
  apply nth_error_None in E. unfold length in Hc. lia.
Qed.

Lemma undo_then_redo h ok :
  log_ok h -> canUndo h = true ->
  let h1 := call h (Undo true) in
  canRedo h1 = true
  /\ snd (redo_start h1) = undo_start h
  /\ call h1 (Redo ok) = h.
Proof.
  intros Hok Hcan. destruct (current_some h Hok Hcan) as [command Hcur].
  pose proof Hok as [Hc _]. cbn zeta. cbn [call].
  unfold undo_start. rewrite Hcan, Hcur. unfold undo_finish.
  assert (Hredo : canRedo (make (history h) (currentIndex h - 1)) = true).
  { unfold canRedo, length. cbn. apply Z.ltb_lt. unfold length in Hc. lia. }
  split; [exact Hredo|].
  unfold redo_start. rewrite Hredo. cbn [history currentIndex fst snd].
  rewrite (make_eta h (currentIndex h - 1 + 1)) by lia.
  rewrite Hcur. split; reflexivity.
Qed.

Lemma redo_then_undo h :
  log_ok h -> canRedo h = true ->
  let h1 := fst (redo_start h) in
  canUndo h1 = true
  /\ undo_start h1 = snd (redo_start h)
  /\ call h1 (Undo true) = h.
Proof.
  intros Hok Hcan. pose proof Hok as [Hc _]. cbn zeta.
  unfold redo_start. rewrite Hcan. cbn [fst snd].
  set (h1 := make (history h) (currentIndex h + 1)).
  assert (Hok1 : log_ok h1).
  { unfold canRedo in Hcan. apply Z.ltb_lt in Hcan. destruct Hok as [_ Hcap].
    unfold log_ok, h1, length in *. cbn. lia. }
  assert (Hundo : canUndo h1 = true).
  { unfold canUndo, h1. cbn. apply Z.geb_le. lia. }
  destruct (current_some h1 Hok1 Hundo) as [command Hcur].
  split; [exact Hundo|]. cbn [call]. unfold undo_start. rewrite Hundo, Hcur.
  split; [reflexivity|]. unfold undo_finish, h1. cbn.
  apply make_eta. lia.
Qed.

(** [n] fulfilled undos take the cursor back by [n], down to [-1]. *)
Lemma undos_cursor n : forall h,
  log_ok h ->
  history (calls h (undos n)) = history h
  /\ currentIndex (calls h (undos n)) = Z.max (-1) (currentIndex h - Z.of_nat n).
Proof.
  induction n as [|n IH]; intros h Hok.
  - cbn. pose proof Hok as [Hc _]. split; [reflexivity | lia].
  - change (calls h (undos (S n))) with (calls (call h (Undo true)) (undos n)).
    destruct (IH (call h (Undo true)) (call_preserves_log_ok _ _ _ Hok)) as [Hh Hi].
    rewrite Hh, Hi. pose proof Hok as [Hc _]. cbn [call]. unfold undo_start.
    destruct (canUndo h) eqn:Hcan.
    + destruct (current_some h Hok Hcan) as [command ->]. cbn.
      unfold canUndo in Hcan. apply Z.geb_le in Hcan. split; [reflexivity | lia].
    + unfold canUndo in Hcan. rewrite Z.geb_leb in Hcan. apply Z.leb_gt in Hcan.
      split; [reflexivity | lia].
Qed.

(** Commits that fit under the cap pile up after the entries up to the
    cursor. *)
Lemma commit_fits (d : C) h :
  log_ok h ->
  Z.of_nat (List.length (done_part h)) + 1 <= maxHistorySize ->
  executeCommand d h = make (done_part h ++ [d]) (currentIndex h + 1).
Proof.
  intros Hok Hfit. rewrite (executeCommand_eq C d h Hok). unfold evicts.
  replace (Z.of_nat (List.length (done_part h)) + 1 >? maxHistorySize) with false
    by (symmetry; rewrite Z.gtb_ltb; apply Z.ltb_ge; lia).
  reflexivity.
Qed.

Lemma done_part_all h :
  currentIndex h = length h - 1 -> done_part h = history h.
Proof.
  intros Hlast. unfold done_part. apply firstn_all2. unfold length in Hlast. lia.
Qed.

Lemma commits_after_last (ds : list C) : forall h,
  log_ok h -> currentIndex h = length h - 1 ->
  length h + Z.of_nat (List.length ds) <= maxHistorySize ->
  history (calls h (commits ds)) = history h ++ ds
  /\ currentIndex (calls h (commits ds)) = currentIndex h + Z.of_nat (List.length ds).
Proof.
  induction ds as [|d ds IH]; intros h Hok Hlast Hfit.
  - cbn. rewrite app_nil_r. split; [reflexivity | lia].
  - change (calls h (commits (d :: ds)))
      with (calls (executeCommand d h) (commits ds)).
    pose proof (done_part_all h Hlast) as Hdone.
    assert (Hlen : Z.of_nat (List.length (done_part h)) = length h)
      by (rewrite Hdone; reflexivity).
    cbn [List.length] in Hfit.
    assert (Hexec : executeCommand d h = make (history h ++ [d]) (currentIndex h + 1)).
    { rewrite commit_fits; [rewrite Hdone; reflexivity | exact Hok | lia]. }
    destruct (executeCommand_cursor_last C d h Hok) as [Hlast' Hok'].
    destruct (IH (executeCommand d h) Hok' Hlast') as [Hh Hi].
    { rewrite Hexec. unfold length. cbn. rewrite length_app. cbn.
      unfold length in Hfit. lia. }
    rewrite Hh, Hi, Hexec. cbn [history currentIndex List.length].
    rewrite <- app_assoc. split; [reflexivity | lia].
Qed.

Lemma commits_pile_up (d : C) (ds : list C) h :
  log_ok h ->
  Z.of_nat (List.length (done_part h)) + Z.of_nat (List.length (d :: ds))
  <= maxHistorySize ->
  history (calls h (commits (d :: ds))) = done_part h ++ d :: ds
  /\ currentIndex (calls h (commits (d :: ds)))
     = currentIndex h + Z.of_nat (List.length (d :: ds)).
Proof.
  intros Hok Hfit. cbn [List.length] in Hfit.
  change (calls h (commits (d :: ds))) with (calls (executeCommand d h) (commits ds)).
  pose proof (done_part_length C h Hok) as Hlen.
  assert (Hexec : executeCommand d h = make (done_part h ++ [d]) (currentIndex h + 1))
    by (apply commit_fits; [exact Hok | lia]).
  destruct (executeCommand_cursor_last C d h Hok) as [Hlast' Hok'].
  destruct (commits_after_last ds (executeCommand d h) Hok' Hlast') as [Hh Hi].
  { rewrite Hexec. unfold length. cbn. rewrite length_app. cbn. lia. }
  rewrite Hh, Hi, Hexec. cbn [history currentIndex List.length].
  rewrite <- app_assoc. split; [reflexivity | lia].
Qed.

(** Undoing walks back over the entries before the cursor, last first. *)
Lemma undone_commands_rev (ds : list C) : forall pre post : list C,
  undone_commands (List.length ds)
    (make (pre ++ ds ++ post) (Z.of_nat (List.length pre + List.length ds) - 1))
  = rev ds.
Proof.
  induction ds as [|d ds IH] using rev_ind; intros pre post; [reflexivity|].
  rewrite length_app, rev_app_distr. cbn [List.length rev app].
  replace (List.length ds + 1)%nat with (S (List.length ds)) by lia.
  cbn [undone_commands]. unfold undo_target, undo_start, canUndo, current.
  cbn [currentIndex history].
  replace (Z.of_nat (List.length pre + S (List.length ds)) - 1 >=? 0) with true
    by (symmetry; apply Z.geb_le; lia).
  replace (Z.of_nat (List.length pre + S (List.length ds)) - 1 <? 0) with false
    by (symmetry; apply Z.ltb_ge; lia).
  replace (Z.to_nat (Z.of_nat (List.length pre + S (List.length ds)) - 1))
    with (List.length (pre ++ ds) + 0)%nat by (rewrite length_app; lia).
  replace (pre ++ (ds ++ [d]) ++ post) with ((pre ++ ds) ++ d :: post)
    by (rewrite <- !app_assoc; reflexivity).
  rewrite nth_error_app2 by lia.
  replace (List.length (pre ++ ds) + 0 - List.length (pre ++ ds))%nat with 0%nat by lia.
  cbn [nth_error]. f_equal.
  cbn [call]. unfold undo_start, canUndo, current. cbn [currentIndex history].
  replace (Z.of_nat (List.length pre + S (List.length ds)) - 1 >=? 0) with true
    by (symmetry; apply Z.geb_le; lia).
  replace (Z.of_nat (List.length pre + S (List.length ds)) - 1 <? 0) with false
    by (symmetry; apply Z.ltb_ge; lia).
  replace (Z.to_nat (Z.of_nat (List.length pre + S (List.length ds)) - 1))
    with (List.length (pre ++ ds) + 0)%nat by (rewrite length_app; lia).
  rewrite nth_error_app2 by lia.
  replace (List.length (pre ++ ds) + 0 - List.length (pre ++ ds))%nat with 0%nat by lia.
  cbn [nth_error]. unfold undo_finish. cbn [currentIndex history].
  replace (Z.of_nat (List.length pre + S (List.length ds)) - 1 - 1)
    with (Z.of_nat (List.length pre + List.length ds) - 1) by lia.
  replace ((pre ++ ds) ++ d :: post) with (pre ++ ds ++ d :: post)
    by (rewrite <- app_assoc; reflexivity).
  apply IH.
Qed.
End LogRoundTrips.

(** X1. On a log reached from the empty one, a fulfilled [undo()]
    followed by [redo()] brings the log back as it was, and [redo()] awaits
    the command that [undo()] reversed; likewise [redo()] followed by a
    fulfilled [undo()]. *)
Theorem undo_and_redo_are_inverse (C : Type) (cs : list (CommandHistory.Call C))
  (ok : bool) :
  let h := CommandHistory.calls CommandHistory.empty cs in
  (CommandHistory.canUndo h = true ->
   let h1 := CommandHistory.call h (CommandHistory.Undo true) in
   CommandHistory.canRedo h1 = true
   /\ snd (CommandHistory.redo_start h1) = CommandHistory.undo_start h
   /\ CommandHistory.call h1 (CommandHistory.Redo ok) = h)
  /\ (CommandHistory.canRedo h = true ->
      let h1 := CommandHistory.call h (CommandHistory.Redo ok) in
      CommandHistory.canUndo h1 = true
      /\ CommandHistory.undo_start h1 = snd (CommandHistory.redo_start h)
      /\ CommandHistory.call h1 (CommandHistory.Undo true) = h).
Proof.
  intros h. pose proof (reachable_log_ok C cs) as Hok. fold h in Hok. split.
  - intros Hcan. exact (undo_then_redo C h ok Hok Hcan).
  - intros Hcan. exact (redo_then_undo C h Hok Hcan).
Qed.

Lemma undo_and_redo_are_inverse_witness :
  let cs := [CommandHistory.ExecuteCommand 1%nat true;
             CommandHistory.ExecuteCommand 2%nat true;
             CommandHistory.ExecuteCommand 3%nat true;
             CommandHistory.Undo true] in
  let h := CommandHistory.calls CommandHistory.empty cs in
  (CommandHistory.undo_start h = CommandHistory.Awaits 2%nat
   /\ CommandHistory.call (CommandHistory.call h (CommandHistory.Undo true))
        (CommandHistory.Redo true) = h)
  /\ (snd (CommandHistory.redo_start h) = CommandHistory.Awaits 3%nat
      /\ CommandHistory.call (CommandHistory.call h (CommandHistory.Redo true))
           (CommandHistory.Undo true) = h).
Proof.
  intros cs h.
  destruct (undo_and_redo_are_inverse nat cs true) as [Hundo Hredo].
  destruct (Hundo eq_refl) as (_ & _ & Hback).
  destruct (Hredo eq_refl) as (_ & _ & Hback').
  split; (split; [reflexivity|]); [exact Hback | exact Hback'].
Defined.

(** X2. A rejected [undo()] leaves the log as it was.  A rejected [redo()]
    does not: the cursor has moved onto the command before [execute()] is
    awaited, so that command, which did not run, is what the next [undo()]
    reverses. *)
Theorem rejected_redo_has_moved_the_cursor (C : Type)
  (cs : list (CommandHistory.Call C)) :
  let h := CommandHistory.calls CommandHistory.empty cs in
  CommandHistory.call h (CommandHistory.Undo false) = h
  /\ (CommandHistory.canRedo h = true ->
      let h1 := CommandHistory.call h (CommandHistory.Redo false) in
      CommandHistory.currentIndex h1 = (CommandHistory.currentIndex h + 1)%Z
      /\ exists command,
           snd (CommandHistory.redo_start h) = CommandHistory.Awaits command
           /\ CommandHistory.undo_target h1 = Some command).
Proof.
  intros h. pose proof (reachable_log_ok C cs) as Hok. fold h in Hok. split.
  - cbn. destruct (CommandHistory.undo_start h); reflexivity.
  - intros Hcan. destruct (redo_then_undo C h Hok Hcan) as (Hundo & Hsame & _).
    cbn zeta in *. cbn [CommandHistory.call].
    split; [unfold CommandHistory.redo_start; rewrite Hcan; reflexivity|].
    pose proof (call_preserves_log_ok C h (CommandHistory.Redo false) Hok) as Hok1.
    cbn [CommandHistory.call] in Hok1.
    destruct (current_some C _ Hok1 Hundo) as [command Hcur].
    exists command. unfold CommandHistory.undo_target. rewrite <- Hsame.
    unfold CommandHistory.undo_start. rewrite Hundo, Hcur. split; reflexivity.
Qed.

Lemma rejected_redo_has_moved_the_cursor_witness :
  let cs := [CommandHistory.ExecuteCommand 1%nat true;
             CommandHistory.ExecuteCommand 2%nat true;
             CommandHistory.Undo true] in
  let h := CommandHistory.calls CommandHistory.empty cs in
  let h1 := CommandHistory.call h (CommandHistory.Redo false) in
  CommandHistory.undo_target h = Some 1%nat
  /\ CommandHistory.currentIndex h1 = 1%Z
  /\ exists command,
       snd (CommandHistory.redo_start h) = CommandHistory.Awaits command
       /\ CommandHistory.undo_target h1 = Some command.
Proof.
  intros cs h h1.
  destruct (rejected_redo_has_moved_the_cursor nat cs) as [_ Hredo].
  destruct (Hredo eq_refl) as [Hidx Hcmd].
  split; [reflexivity|]. split; [exact Hidx | exact Hcmd].
Defined.

(** X3. On a log reached from the empty one, commits that fit under the
    cap, all fulfilled, followed by as many fulfilled [undo()]s: the log
    holds the entries up to the old cursor and then the new commands, the
    cursor is where it was before the commits, the [undo()]s have reversed
    the new commands last first, and all of them can be redone. *)
Theorem commits_then_as_many_undos (C : Type) (cs : list (CommandHistory.Call C))
  (d : C) (ds : list C) :
  let h := CommandHistory.calls CommandHistory.empty cs in
  let n := List.length (d :: ds) in
  (Z.of_nat (List.length (CommandHistory.done_part h)) + Z.of_nat n
   <= CommandHistory.maxHistorySize)%Z ->
  let h1 := CommandHistory.calls h (CommandHistory.commits (d :: ds)) in
  let h2 := CommandHistory.calls h1 (CommandHistory.undos n) in
  CommandHistory.undone_commands n h1 = rev (d :: ds)
  /\ CommandHistory.history h2 = CommandHistory.done_part h ++ d :: ds
  /\ CommandHistory.currentIndex h2 = CommandHistory.currentIndex h
  /\ CommandHistory.canUndo h2 = CommandHistory.canUndo h
  /\ CommandHistory.canRedo h2 = true.
Proof.
  intros h n Hfit h1 h2. pose proof (reachable_log_ok C cs) as Hok. fold h in Hok.
  destruct (commits_pile_up C d ds h Hok Hfit) as [Hh1 Hi1]. fold h1 in Hh1, Hi1.
  pose proof (calls_preserve_log_ok C (CommandHistory.commits (d :: ds)) h Hok) as Hok1.
  fold h1 in Hok1.
  destruct (undos_cursor C n h1 Hok1) as [Hh2 Hi2]. fold h2 in Hh2, Hi2.
  pose proof (done_part_length C h Hok) as Hlen. pose proof Hok as [Hc _].
  assert (Hidx : CommandHistory.currentIndex h2 = CommandHistory.currentIndex h).
  { rewrite Hi2, Hi1. fold n. lia. }
  split.
  - rewrite <- (make_eta C h1 (CommandHistory.currentIndex h1) eq_refl).
    rewrite Hh1, Hi1.
    replace (CommandHistory.done_part h ++ d :: ds)
      with (CommandHistory.done_part h ++ (d :: ds) ++ []) by (rewrite app_nil_r; reflexivity).
    replace (CommandHistory.currentIndex h + Z.of_nat (List.length (d :: ds)))%Z
      with (Z.of_nat (List.length (CommandHistory.done_part h) + List.length (d :: ds)) - 1)%Z
      by lia.
    apply undone_commands_rev.
  - split; [rewrite Hh2; exact Hh1|]. split; [exact Hidx|].
    split; [unfold CommandHistory.canUndo; rewrite Hidx; reflexivity|].
    unfold CommandHistory.canRedo, CommandHistory.length. rewrite Hidx, Hh2, Hh1.
    apply Z.ltb_lt. rewrite length_app. cbn [List.length]. lia.
Qed.

Lemma commits_then_as_many_undos_witness :
  let cs := [CommandHistory.ExecuteCommand 1%nat true;
             CommandHistory.ExecuteCommand 2%nat true;
             CommandHistory.Undo true] in
  let h := CommandHistory.calls CommandHistory.empty cs in
  let h1 := CommandHistory.calls h (CommandHistory.commits [7%nat; 8%nat; 9%nat]) in
  let h2 := CommandHistory.calls h1 (CommandHistory.undos 3) in
  CommandHistory.history h = [1%nat; 2%nat]
  /\ CommandHistory.undone_commands 3 h1 = [9%nat; 8%nat; 7%nat]
  /\ CommandHistory.history h2 = [1%nat; 7%nat; 8%nat; 9%nat]
  /\ CommandHistory.currentIndex h2 = 0%Z
  /\ CommandHistory.canRedo h2 = true.
Proof.
  intros cs h h1 h2.
  destruct (commits_then_as_many_undos nat cs 7%nat [8%nat; 9%nat])
    as (Hrev & Hhist & Hidx & _ & Hredo).
  - vm_compute. discriminate.
  - split; [reflexivity|]. split; [exact Hrev|]. split; [exact Hhist|].
    split; [exact Hidx | exact Hredo].
Defined.

(** X4. However many commands were committed, a hundred fulfilled
    [undo()]s exhaust what can be undone: after them [canUndo()] is false,
    and the entries are all still in the log, to be redone. *)
Theorem a_hundred_undos_exhaust_the_log (C : Type)
  (cs : list (CommandHistory.Call C)) :
  let h := CommandHistory.calls CommandHistory.empty cs in
  let h' := CommandHistory.calls h (CommandHistory.undos 100) in
  CommandHistory.canUndo h' = false
  /\ CommandHistory.currentIndex h' = (-1)%Z
  /\ CommandHistory.history h' = CommandHistory.history h.
Proof.
  intros h h'. pose proof (reachable_log_ok C cs) as Hok. fold h in Hok.
  destruct (undos_cursor C 100 h Hok) as [Hh Hi]. fold h' in Hh, Hi.
  destruct Hok as [Hc Hcap]. unfold CommandHistory.maxHistorySize in Hcap.
  assert (Hidx : CommandHistory.currentIndex h' = (-1)%Z) by lia.
  split; [unfold CommandHistory.canUndo; rewrite Hidx; reflexivity|].
  split; [exact Hidx | exact Hh].
Qed.

(** ** What the commands keep *)

Section CommandFrames.
Import Js Commands.
Implicit Types (o obj object : CanvasObject) (objs : list CanvasObject) (i : string).

Lemma map_id_filter (f : CanvasObject -> bool) objs :
  NoDup (map id objs) -> NoDup (map id (filter f objs)).
Proof.
  induction objs as [|o objs IH]; cbn; intros Hnd; [constructor|].
  inversion Hnd as [|? ? Hnotin Hrest]; subst.
  destruct (f o); cbn; auto.
  constructor; auto.
  intros Hin. apply Hnotin.
  apply in_map_iff in Hin as [o' [Heq Hin]].
  apply filter_In in Hin as [Hin _].
  apply in_map_iff. eauto.
Qed.

Lemma find_none_not_in i objs :
  find (has_id i) objs = None -> ~ In i (map id objs).
Proof.
  intros Hfind Hin. apply in_map_iff in Hin as [o [Hid Hin]].
  pose proof (find_none _ _ Hfind o Hin) as Hno.
  unfold has_id in Hno. rewrite Hid, String.eqb_refl in Hno. discriminate.
Qed.

Lemma append_absent_ids object objs :
  NoDup (map id objs) ->
  NoDup (map id (apply_updater (fun prev =>
    match find (has_id (id object)) prev with
    | Some _ => None
    | None => Some (prev ++ [object])
    end) objs)).
Proof.
  intros Hnd. unfold apply_updater.
  destruct (find (has_id (id object)) objs) eqn:Hfind; [exact Hnd|].
  rewrite map_app. cbn.
  pose proof (find_none_not_in _ _ Hfind) as Hnotin.
  clear Hfind. induction (map id objs) as [|j l IH]; cbn.
  - repeat constructor. intros [].
  - inversion Hnd as [|? ? Hj Hl]; subst. constructor.
    + intros Hin. apply in_app_or in Hin as [Hin|[Hin|[]]]; [exact (Hj Hin)|].
      apply Hnotin. left. symmetry. exact Hin.
    + apply IH; [exact Hl|]. intros Hin. apply Hnotin. right. exact Hin.
Qed.

Lemma others_app ids l1 l2 : others ids (l1 ++ l2) = others ids l1 ++ others ids l2.
Proof. apply filter_app. Qed.

Lemma others_target ids o : In (id o) ids -> others ids [o] = [].
Proof.
  intros Hin. unfold others. cbn.
  replace (existsb (String.eqb (id o)) ids) with true; [reflexivity|].
  symmetry. apply existsb_exists. exists (id o). split; [exact Hin|apply String.eqb_refl].
Qed.

Lemma others_append ids object objs :
  In (id object) ids ->
  others ids (apply_updater (fun prev =>
    match find (has_id (id object)) prev with
    | Some _ => None
    | None => Some (prev ++ [object])
    end) objs) = others ids objs.
Proof.
  intros Hin. unfold apply_updater.
  destruct (find (has_id (id object)) objs); [reflexivity|].
  rewrite others_app, (others_target _ _ Hin). apply app_nil_r.
Qed.

Lemma others_remove ids i objs :
  In i ids ->
  others ids (filter (fun obj => negb (has_id i obj)) objs) = others ids objs.
Proof.
  intros Hin. unfold others.
  induction objs as [|o objs IH]; [reflexivity|]. cbn.
  destruct (has_id i o) eqn:Hid; cbn.
  - replace (existsb (String.eqb (id o)) ids) with true; [exact IH|].
    symmetry. apply existsb_exists. exists i. split; [exact Hin|exact Hid].
  - rewrite IH. reflexivity.
Qed.

Lemma patch_keeps_ids i fields now objs :
  has "id" fields = false ->
  map id (map (fun o => if has_id i o
                        then UpdateObjectCommand.patched fields now o else o) objs)
  = map id objs.
Proof.
  intros Hno. rewrite map_map. apply map_ext. intros o.
  destruct (has_id i o); [apply id_patched; exact Hno|reflexivity].
Qed.

Lemma others_patch ids i fields now objs :
  In i ids -> has "id" fields = false ->
  others ids (map (fun o => if has_id i o
                            then UpdateObjectCommand.patched fields now o else o) objs)
  = others ids objs.
Proof.
  intros Hin Hno. unfold others.
  induction objs as [|o objs IH]; [reflexivity|]. cbn.
  destruct (has_id i o) eqn:Hid.
  - rewrite (id_patched _ _ _ Hno).
    replace (existsb (String.eqb (id o)) ids) with true; [exact IH|].
    symmetry. apply existsb_exists. exists i. split; [exact Hin|exact Hid].
  - rewrite IH. reflexivity.
Qed.

Lemma all_executed_map cs now : forall objs,
  map (all_executed cs now) objs
  = fold_left (fun l c => map (UpdateObjectCommand.executed c now) l) cs objs.
Proof.
  induction cs as [|c cs IH]; intros objs; cbn.
  - apply map_id.
  - rewrite <- IH, map_map. reflexivity.
Qed.

Lemma all_undone_map cs clock : forall n objs,
  map (all_undone cs clock n) objs
  = snd (fold_left (fun nl c => (S (fst nl), map (UpdateObjectCommand.undone c (clock (fst nl))) (snd nl)))
                   cs (n, objs)).
Proof.
  induction cs as [|c cs IH]; intros n objs; cbn.
  - apply map_id.
  - rewrite <- IH, map_map. reflexivity.
Qed.

Lemma batch_execute_frame ids cs now :
  forallb keeps_id cs = true -> incl (map UpdateObjectCommand.objectId cs) ids ->
  forall objs,
  map id (map (all_executed cs now) objs) = map id objs
  /\ others ids (map (all_executed cs now) objs) = others ids objs.
Proof.
  induction cs as [|c cs IH]; intros Hkeep Hincl objs.
  - cbn. rewrite map_id. split; reflexivity.
  - cbn in Hkeep. apply andb_prop in Hkeep as [Hc Hkeep].
    unfold keeps_id in Hc. apply andb_prop in Hc as [Hu _].
    apply negb_true_iff in Hu.
    assert (Hin : In (UpdateObjectCommand.objectId c) ids)
      by (apply Hincl; left; reflexivity).
    assert (Hincl' : incl (map UpdateObjectCommand.objectId cs) ids)
      by (intros j Hj; apply Hincl; right; exact Hj).
    replace (map (all_executed (c :: cs) now) objs)
      with (map (all_executed cs now) (map (UpdateObjectCommand.executed c now) objs))
      by (rewrite map_map; reflexivity).
    destruct (IH Hkeep Hincl' (map (UpdateObjectCommand.executed c now) objs)) as [-> ->].
    split.
    + apply patch_keeps_ids. exact Hu.
    + apply others_patch; assumption.
Qed.

Lemma batch_undo_frame ids clock cs :
  forallb keeps_id cs = true -> incl (map UpdateObjectCommand.objectId cs) ids ->
  forall n objs,
  map id (map (all_undone cs clock n) objs) = map id objs
  /\ others ids (map (all_undone cs clock n) objs) = others ids objs.
Proof.
  induction cs as [|c cs IH]; intros Hkeep Hincl n objs.
  - cbn. rewrite map_id. split; reflexivity.
  - cbn in Hkeep. apply andb_prop in Hkeep as [Hc Hkeep].
    unfold keeps_id in Hc. apply andb_prop in Hc as [_ Hp].
    apply negb_true_iff in Hp.
    assert (Hin : In (UpdateObjectCommand.objectId c) ids)
      by (apply Hincl; left; reflexivity).
    assert (Hincl' : incl (map UpdateObjectCommand.objectId cs) ids)
      by (intros j Hj; apply Hincl; right; exact Hj).
    replace (map (all_undone (c :: cs) clock n) objs)
      with (map (all_undone cs clock (S n)) (map (UpdateObjectCommand.undone c (clock n)) objs))
      by (rewrite map_map; reflexivity).
    destruct (IH Hkeep Hincl' (S n) (map (UpdateObjectCommand.undone c (clock n)) objs)) as [-> ->].
    split.
    + apply patch_keeps_ids. exact Hp.
    + apply others_patch; assumption.
Qed.

Lemma forallb_rev {A} (f : A -> bool) (l : list A) :
  forallb f (rev l) = forallb f l.
Proof.
  destruct (forallb f l) eqn:H.
  - apply forallb_forall. intros a Ha. apply in_rev in Ha.
    rewrite forallb_forall in H. auto.
  - destruct (forallb f (rev l)) eqn:H'; [|reflexivity].
    rewrite forallb_forall in H'.
    assert (forallb f l = true) as Hc.
    { apply forallb_forall. intros a Ha. apply H'. apply in_rev. rewrite rev_involutive. exact Ha. }
    congruence.
Qed.

Lemma batch_frames cs :
  forallb keeps_id cs = true ->
  forall clock n objs,
  (map id (local_run (execute (UpdateMultipleObjects cs)) clock n objs) = map id objs
   /\ others (map UpdateObjectCommand.objectId cs)
        (local_run (execute (UpdateMultipleObjects cs)) clock n objs)
      = others (map UpdateObjectCommand.objectId cs) objs)
  /\ (map id (local_run (undo (UpdateMultipleObjects cs)) clock n objs) = map id objs
      /\ others (map UpdateObjectCommand.objectId cs)
           (local_run (undo (UpdateMultipleObjects cs)) clock n objs)
         = others (map UpdateObjectCommand.objectId cs) objs).
Proof.
  intros Hkeep clock n objs. split.
  - cbn [execute local_run]. rewrite batch_execute_local.
    apply batch_execute_frame; [exact Hkeep|apply incl_refl].
  - cbn [undo]. unfold UpdateMultipleObjectsCommand.undo.
    rewrite batch_undo_local.
    apply batch_undo_frame.
    + rewrite forallb_rev. exact Hkeep.
    + intros j Hj. rewrite map_rev in Hj. apply in_rev in Hj. exact Hj.
Qed.

Lemma update_frames c :
  keeps_id c = true ->
  forall clock n objs,
  (map id (local_run (execute (UpdateObject c)) clock n objs) = map id objs
   /\ others [UpdateObjectCommand.objectId c]
        (local_run (execute (UpdateObject c)) clock n objs)
      = others [UpdateObjectCommand.objectId c] objs)
  /\ (map id (local_run (undo (UpdateObject c)) clock n objs) = map id objs
      /\ others [UpdateObjectCommand.objectId c]
           (local_run (undo (UpdateObject c)) clock n objs)
         = others [UpdateObjectCommand.objectId c] objs).
Proof.
  intros Hkeep clock n objs.
  unfold keeps_id in Hkeep. apply andb_prop in Hkeep as [Hu Hp].
  apply negb_true_iff in Hu. apply negb_true_iff in Hp.
  cbn -[others]. unfold apply_updater.
  repeat split.
  - apply patch_keeps_ids. exact Hu.
  - apply others_patch; [left; reflexivity|exact Hu].
  - apply patch_keeps_ids. exact Hp.
  - apply others_patch; [left; reflexivity|exact Hp].
Qed.

(** X5. A command never puts two objects with one id into the local
    state: when the ids of the array are distinct before [execute()] or
    [undo()], they are distinct after it.  [AddObjectCommand.execute],
    [DeleteObjectCommand.undo] and [CreateGroupCommand.execute] append only
    an id that is absent; the others filter; an update keeps the list of ids
    as it is, as long as neither of its payloads carries the key [id]. *)
Theorem commands_keep_ids_distinct (command : Command) (clock : nat -> num)
  (n : nat) objs :
  leaves_id command = true ->
  NoDup (map id objs) ->
  NoDup (map id (local_run (execute command) clock n objs))
  /\ NoDup (map id (local_run (undo command) clock n objs)).
Proof.
  intros Hkeep Hnd.
  destruct command as [object|object|c|cs|g ids].
  - split; cbn.
    + apply append_absent_ids. exact Hnd.
    + apply map_id_filter. exact Hnd.
  - split; cbn.
    + apply map_id_filter. exact Hnd.
    + apply append_absent_ids. exact Hnd.
  - destruct (update_frames c Hkeep clock n objs) as [[-> _] [-> _]].
    split; exact Hnd.
  - destruct (batch_frames cs Hkeep clock n objs) as [[-> _] [-> _]].
    split; exact Hnd.
  - split; cbn.
    + apply append_absent_ids. exact Hnd.
    + apply map_id_filter. exact Hnd.
Qed.

Lemma commands_keep_ids_distinct_witness :
  let objs := [Sample.rectangle; Sample.circle] in
  NoDup (map id (local_run (execute (UpdateObject Sample.widen)) (Sample.at_time 7) 0 objs))
  /\ NoDup (map id (local_run (undo (UpdateObject Sample.widen)) (Sample.at_time 7) 0 objs)).
Proof.
  intros objs.
  apply (commands_keep_ids_distinct (UpdateObject Sample.widen) (Sample.at_time 7) 0 objs).
  - reflexivity.
  - exact sample_ids_distinct.
Defined.

(** X6. A command changes only the objects it addresses: the objects whose
    id is not among its targets are, after [execute()] and after [undo()],
    the same objects in the same order as before. *)
Theorem commands_leave_the_others (command : Command) (clock : nat -> num)
  (n : nat) objs :
  leaves_id command = true ->
  others (targets command) (local_run (execute command) clock n objs)
  = others (targets command) objs
  /\ others (targets command) (local_run (undo command) clock n objs)
     = others (targets command) objs.
Proof.
  intros Hkeep.
  destruct command as [object|object|c|cs|g ids].
  - split; cbn -[others].
    + apply others_append. left; reflexivity.
    + apply others_remove. left; reflexivity.
  - split; cbn -[others].
    + apply others_remove. left; reflexivity.
    + apply others_append. left; reflexivity.
  - destruct (update_frames c Hkeep clock n objs) as [[_ He] [_ Hu]].
    split; assumption.
  - destruct (batch_frames cs Hkeep clock n objs) as [[_ He] [_ Hu]].
    split; assumption.
  - split; cbn -[others].
    + apply others_append. left; reflexivity.
    + apply others_remove. left; reflexivity.
Qed.

Lemma commands_leave_the_others_witness :
  let objs := [Sample.rectangle; Sample.circle] in
  let command := UpdateObject Sample.widen in
  others (targets command) (local_run (execute command) (Sample.at_time 7) 0 objs)
  = others (targets command) objs
  /\ others (targets command) (local_run (undo command) (Sample.at_time 7) 0 objs)
     = others (targets command) objs.
Proof.
  intros objs command.
  apply (commands_leave_the_others command (Sample.at_time 7) 0 objs).
  reflexivity.
Defined.

End CommandFrames.

(** ** Redoing a command *)

Section PatchSequences.
Import Js Commands.
Implicit Types (o X Y : CanvasObject) (F : Partial) (i j k : string).

(** A sequence of patches [(i, F, t)]: the object with id [i] becomes
    [{ ...obj, ...F, lastModified: t }]. *)
Local Abbreviation Patch := (string * Partial * num)%type.
Local Abbreviation step_patch :=
  (fun (o : CanvasObject) (p : Patch) =>
     if has_id (fst (fst p)) o
     then UpdateObjectCommand.patched (snd (fst p)) (snd p) o else o).
Local Abbreviation run_patches ps o := (fold_left step_patch ps o).
Local Abbreviation no_id j ps :=
  (Forall (fun p : Patch => String.eqb j (fst (fst p)) = true ->
                            has "id" (snd (fst p)) = false) ps).
Local Abbreviation written ps j k :=
  (existsb (fun p : Patch => String.eqb j (fst (fst p))
                             && (String.eqb k "lastModified" || has k (snd (fst p)))) ps).

Lemma object_ext (a b : JsObject) :
  NoDup (keys a) -> keys a = keys b -> (forall k, get k a = get k b) -> a = b.
Proof.
  intros Hnd Hkeys Hget.
  rewrite (object_by_keys a Hnd).
  rewrite (object_by_keys b) by (rewrite <- Hkeys; exact Hnd).
  rewrite Hkeys. apply map_ext. intros k. rewrite Hget. reflexivity.
Qed.

Lemma keys_set_same k v v' o o' :
  keys o = keys o' -> keys (set k v o) = keys (set k v' o').
Proof.
  intros Hk. rewrite !keys_set, !has_keys, Hk. reflexivity.
Qed.

Lemma keys_spread_same (p : JsObject) : forall p' o o',
  keys p = keys p' -> keys o = keys o' -> keys (spread o p) = keys (spread o' p').
Proof.
  unfold spread.
  induction p as [|[k v] p IH]; intros [|[k' v'] p'] o o' Hp Ho; cbn in *;
    try discriminate; [exact Ho|].
  injection Hp as -> Hp. apply IH; [exact Hp|]. apply keys_set_same, Ho.
Qed.

Lemma keys_patched_same F t t' o o' :
  keys o = keys o' ->
  keys (UpdateObjectCommand.patched F t o) = keys (UpdateObjectCommand.patched F t' o').
Proof.
  intros Ho. unfold UpdateObjectCommand.patched.
  apply keys_set_same, keys_spread_same; [reflexivity|exact Ho].
Qed.

Lemma keys_set_full k v o : has k o = true -> keys (set k v o) = keys o.
Proof. intros H. rewrite keys_set, H. apply app_nil_r. Qed.

Lemma keys_spread_full (p : JsObject) : forall o,
  (forall k, has k p = true -> has k o = true) -> keys (spread o p) = keys o.
Proof.
  unfold spread.
  induction p as [|[k v] p IH]; intros o Hall; cbn; [reflexivity|].
  rewrite IH.
  - apply keys_set_full. apply Hall. cbn. rewrite String.eqb_refl. reflexivity.
  - intros k' Hk'. rewrite has_set. apply orb_true_iff. right.
    apply Hall. cbn. rewrite Hk'. apply orb_true_r.
Qed.

Lemma has_patched k F t o :
  has k (UpdateObjectCommand.patched F t o)
  = String.eqb k "lastModified" || (has k o || has k F).
Proof. unfold UpdateObjectCommand.patched. rewrite has_set, has_spread. reflexivity. Qed.

Lemma keys_patched_full F t o :
  (forall k, has k F = true -> has k o = true) -> has "lastModified" o = true ->
  keys (UpdateObjectCommand.patched F t o) = keys o.
Proof.
  intros Hall Hlm. unfold UpdateObjectCommand.patched.
  rewrite keys_set_full; [apply keys_spread_full, Hall|].
  rewrite has_spread, Hlm. reflexivity.
Qed.

Lemma step_patch_id j (p : Patch) X :
  (String.eqb j (fst (fst p)) = true -> has "id" (snd (fst p)) = false) ->
  id X = j -> id (step_patch X p) = j.
Proof.
  intros Hp HX. unfold has_id. rewrite HX.
  destruct (String.eqb j (fst (fst p))); [|exact HX].
  rewrite id_patched; auto.
Qed.

Lemma run_patches_id (ps : list Patch) : forall j X,
  no_id j ps -> id X = j -> id (run_patches ps X) = j.
Proof.
  induction ps as [|p ps IH]; intros j X Hno HX; [exact HX|].
  inversion Hno as [|? ? Hp Hrest]; subst. cbn [fold_left].
  apply IH; [exact Hrest|]. apply step_patch_id; auto.
Qed.

Lemma run_patches_has (ps : list Patch) : forall j X k,
  no_id j ps -> id X = j ->
  has k (run_patches ps X) = has k X || written ps j k.
Proof.
  induction ps as [|p ps IH]; intros j X k Hno HX.
  - cbn. rewrite orb_false_r. reflexivity.
  - inversion Hno as [|? ? Hp Hrest]; subst. cbn [fold_left existsb].
    rewrite (IH (id X) _ _ Hrest) by (apply step_patch_id; auto).
    unfold has_id.
    destruct (String.eqb (id X) (fst (fst p))); cbn [andb orb]; [|reflexivity].
    rewrite has_patched.
    destruct (has k X), (String.eqb k "lastModified"), (has k (snd (fst p)));
      reflexivity.
Qed.

Lemma run_patches_keys_same (ps : list Patch) : forall (qs : list Patch) j X Y,
  Forall2 (fun p q : Patch => fst p = fst q) ps qs -> no_id j ps ->
  id X = j -> id Y = j -> keys X = keys Y ->
  keys (run_patches ps X) = keys (run_patches qs Y).
Proof.
  induction ps as [|p ps IH]; intros qs j X Y Hsame Hno HX HY Hkeys;
    inversion Hsame as [|? q ? qs' Hpq Hrest]; subst; [exact Hkeys|].
  inversion Hno as [|? ? Hp Hno']; subst. cbn [fold_left].
  apply (IH qs' (id X)); [exact Hrest|exact Hno'| | |].
  - apply step_patch_id; auto.
  - apply step_patch_id; [rewrite <- Hpq; exact Hp|exact HY].
  - unfold has_id. rewrite HY, <- Hpq.
    destruct (String.eqb (id X) (fst (fst p))); [|exact Hkeys].
    apply keys_patched_same, Hkeys.
Qed.

Lemma run_patches_keys_full (ps : list Patch) : forall j X,
  no_id j ps -> id X = j ->
  (forall k, written ps j k = true -> has k X = true) ->
  keys (run_patches ps X) = keys X.
Proof.
  induction ps as [|p ps IH]; intros j X Hno HX Hall; [reflexivity|].
  inversion Hno as [|? ? Hp Hno']; subst. cbn [fold_left existsb] in *.
  assert (Hk : keys (step_patch X p) = keys X).
  { unfold has_id. destruct (String.eqb (id X) (fst (fst p))) eqn:Hi; [|reflexivity].
    apply keys_patched_full.
    - intros k Hk. apply Hall. rewrite Hk, orb_true_r. reflexivity.
    - apply Hall. reflexivity. }
  rewrite (IH (id X)); [exact Hk|exact Hno'|apply step_patch_id; auto|].
  intros k Hw. rewrite has_keys, Hk, <- has_keys. apply Hall.
  rewrite Hw. apply orb_true_r.
Qed.

Lemma run_patches_reads (ps : list Patch) : forall j X Y k,
  no_id j ps -> id X = j -> id Y = j ->
  if written ps j k
  then get k (run_patches ps X) = get k (run_patches ps Y)
  else get k (run_patches ps X) = get k X /\ get k (run_patches ps Y) = get k Y.
Proof.
  induction ps as [|p ps IH] using rev_ind; intros j X Y k Hno HX HY.
  - cbn. split; reflexivity.
  - apply Forall_app in Hno as [Hno Hp]. inversion Hp as [|? ? Hp' _]; subst.
    rewrite !fold_left_app, existsb_app. cbn [fold_left existsb].
    specialize (IH (id X) X Y k Hno eq_refl HY).
    assert (HiX : has_id (fst (fst p)) (run_patches ps X)
                  = String.eqb (id X) (fst (fst p))).
    { pose proof (run_patches_id ps (id X) X Hno eq_refl) as E.
      unfold has_id at 1. rewrite E. reflexivity. }
    assert (HiY : has_id (fst (fst p)) (run_patches ps Y)
                  = String.eqb (id X) (fst (fst p))).
    { pose proof (run_patches_id ps (id X) Y Hno HY) as E.
      unfold has_id at 1. rewrite E. reflexivity. }
    rewrite HiX, HiY, orb_false_r.
    destruct (String.eqb (id X) (fst (fst p))) eqn:Hi; cbn [andb].
    + rewrite !get_patched.
      destruct (String.eqb k "lastModified"); cbn [orb].
      * rewrite orb_true_r. reflexivity.
      * destruct (has k (snd (fst p))); [rewrite orb_true_r; reflexivity|].
        rewrite orb_false_r. exact IH.
    + rewrite orb_false_r. exact IH.
Qed.

(** The two loops of a batch as sequences of patches. *)
Lemma all_executed_patches cs t : forall X,
  all_executed cs t X
  = run_patches (map (fun c => (UpdateObjectCommand.objectId c,
                                UpdateObjectCommand.updates c, t)) cs) X.
Proof.
  unfold all_executed.
  induction cs as [|c cs IH]; intros X; [reflexivity|]. cbn [fold_left map].
  rewrite IH. reflexivity.
Qed.

Lemma all_undone_patches cs clock : forall n X,
  all_undone cs clock n X
  = run_patches (map (fun cm => (UpdateObjectCommand.objectId (fst cm),
                                 UpdateObjectCommand.previousState (fst cm),
                                 clock (snd cm)))
                     (combine cs (seq n (List.length cs)))) X.
Proof.
  induction cs as [|c cs IH]; intros n X; [reflexivity|].
  cbn [all_undone List.length seq combine map fold_left].
  rewrite IH. reflexivity.
Qed.

Lemma batch_redo_on_object (o0 : CanvasObject) (cs : list UpdateObjectCommand.t) :
  Forall (Canvas.captured_from o0) cs ->
  (touches cs o0 = true -> NoDup (keys o0)) ->
  forall clock n t1 t3,
  all_executed cs t3 (all_undone (rev cs) clock n (all_executed cs t1 o0))
  = all_executed cs t3 o0.
Proof.
  intros Hcap Hnd clock n t1 t3.
  destruct (batch_on_object o0 cs Hcap o0 clock n t1 eq_refl)
    as (HidB & _ & HgetB & _ & HsameB).
  destruct (touches cs o0) eqn:Htouched; [|rewrite (HsameB eq_refl); reflexivity].
  specialize (Hnd eq_refl).
  rewrite Forall_forall in Hcap.
  set (A := all_executed cs t1 o0) in *.
  set (B := all_undone (rev cs) clock n A) in *.
  assert (Hget : forall k, k <> "lastModified"%string -> get k B = get k o0).
  { intros k Hk. rewrite (HgetB k Hk). destruct (writes cs o0 k); reflexivity. }
  clear HgetB.
  set (ps := fun t : num => map (fun c => (UpdateObjectCommand.objectId c,
                                     UpdateObjectCommand.updates c, t)) cs).
  set (qs := map (fun cm => (UpdateObjectCommand.objectId (fst cm),
                             UpdateObjectCommand.previousState (fst cm),
                             clock (snd cm)))
                 (combine (rev cs) (seq n (List.length (rev cs))))).
  assert (Hno : forall t, no_id (id o0) (ps t)).
  { intros t. unfold ps. apply Forall_map, Forall_forall.
    intros c Hin _. cbn. apply (Hcap c Hin). }
  assert (Hwr : forall t k,
            written (ps t) (id o0) k
            = touches cs o0 && String.eqb k "lastModified" || writes cs o0 k).
  { intros t k. unfold ps, touches, writes.
    clear. induction cs as [|c cs IH]; [reflexivity|].
    cbn [map existsb fst snd]. rewrite IH. unfold has_id.
    destruct (String.eqb (id o0) (UpdateObjectCommand.objectId c)),
      (String.eqb k "lastModified"), (has k (UpdateObjectCommand.updates c)),
      (existsb (fun c0 => String.eqb (id o0) (UpdateObjectCommand.objectId c0)) cs);
      reflexivity. }
  assert (HA : A = run_patches (ps t1) o0) by apply all_executed_patches.
  assert (HB : B = run_patches qs A) by apply all_undone_patches.
  assert (HidA : id A = id o0) by (rewrite HA; apply run_patches_id; auto).
  (* the payloads of the undos carry keys of the updates only *)
  assert (Hq1 : no_id (id o0) qs).
  { unfold qs. apply Forall_map, Forall_forall. intros [c m] Hin Hi. cbn [fst snd] in *.
    apply in_combine_l, in_rev in Hin.
    destruct (Hcap c Hin) as [Hu Hprev].
    rewrite (Hprev Hi).
    destruct (capture_reads o0 (UpdateObjectCommand.updates c) "id") as [-> _].
    exact Hu. }
  assert (Hq2 : forall k, written qs (id o0) k = true ->
                          written (ps t1) (id o0) k = true).
  { intros k Hw. apply existsb_exists in Hw as [q [Hin Hq]].
    unfold qs in Hin. apply in_map_iff in Hin as [[c m] [<- Hin]].
    cbn [fst snd] in Hq. apply in_combine_l, in_rev in Hin.
    apply andb_prop in Hq as [Hi Hk].
    destruct (Hcap c Hin) as [Hu Hprev].
    rewrite (Hprev Hi) in Hk.
    destruct (capture_reads o0 (UpdateObjectCommand.updates c) k) as [Hhas _].
    rewrite Hhas in Hk.
    apply existsb_exists. exists (UpdateObjectCommand.objectId c,
                                  UpdateObjectCommand.updates c, t1).
    split; [unfold ps; apply in_map_iff; eauto|].
    cbn [fst snd]. rewrite Hi. exact Hk. }
  assert (HkeysB : keys B = keys A).
  { rewrite HB. apply (run_patches_keys_full qs (id o0)); auto.
    intros k Hw. rewrite HA, (run_patches_has _ (id o0)) by auto.
    rewrite (Hq2 k Hw). apply orb_true_r. }
  assert (HkeysA : keys A = keys (run_patches (ps t3) o0)).
  { rewrite HA. apply (run_patches_keys_same _ _ (id o0)); auto.
    unfold ps. clear. induction cs; cbn; constructor; auto. }
  rewrite (all_executed_patches cs t3 B), (all_executed_patches cs t3 o0).
  fold (ps t3).
  assert (HkeysC : keys (run_patches (ps t3) B) = keys B).
  { apply (run_patches_keys_full _ (id o0)); auto.
    intros k Hw. rewrite has_keys, HkeysB, <- has_keys.
    rewrite HA, (run_patches_has _ (id o0)) by auto.
    rewrite Hwr in *. rewrite Hw. apply orb_true_r. }
  symmetry. apply object_ext.
  - rewrite <- HkeysA. rewrite HA.
    assert (Hgrow : forall (l : list (string * Partial * num)) X,
              NoDup (keys X) -> NoDup (keys (run_patches l X))).
    { induction l as [|p l IH]; intros X HX; [exact HX|]. cbn [fold_left].
      apply IH. destruct (has_id (fst (fst p)) X); [|exact HX].
      apply grows_patched, HX. }
    apply Hgrow, Hnd.
  - rewrite HkeysC, HkeysB, HkeysA. reflexivity.
  - intros k.
    pose proof (run_patches_reads (ps t3) (id o0) o0 B k (Hno t3) eq_refl HidB) as Hr.
    rewrite Hwr, Htouched in Hr.
    destruct (String.eqb k "lastModified") eqn:Hk; cbn [andb orb] in Hr.
    + exact Hr.
    + destruct (writes cs o0 k); [exact Hr|]. destruct Hr as [-> ->].
      symmetry. apply Hget. intros ->. discriminate.
Qed.

Lemma batch_redo cs objs clockE clockU clockR :
  NoDup (map id objs) -> Forall (Canvas.update_command_on objs) cs ->
  local_run (execute (UpdateMultipleObjects cs)) clockR 0
    (execute_then_undo (UpdateMultipleObjects cs) clockE clockU objs)
  = local_run (execute (UpdateMultipleObjects cs)) clockR 0 objs.
Proof.
  intros Hnd Hon.
  rewrite batch_execute_then_undo. cbn [execute local_run].
  rewrite !batch_execute_local, map_map.
  apply map_ext_in. intros o Hin.
  apply batch_redo_on_object.
  - eapply Forall_impl; [|exact Hon]. intros c Hc.
    apply (update_command_on_captured objs c o Hnd Hin Hc).
  - intros Ht. apply existsb_exists in Ht as [c [Hc Hi]].
    rewrite Forall_forall in Hon.
    destruct (update_command_on_captured objs c o Hnd Hin (Hon c Hc)) as [_ Hwf].
    apply (Hwf Hi).
Qed.

(** X7. Redo gives the state of the commit.  For a command built on an
    array with distinct ids, [execute()], [undo()] and [execute()] again
    leave the local state that one [execute()] at the clock reading of the
    last call gives on the array: the added object or group is last again,
    the deleted object is gone again, and an updated object holds the new
    values, key by key and in the same order of keys. *)
Theorem redo_gives_the_committed_state (command : Command)
  (objs : list CanvasObject) (clockE clockU clockR : nat -> num) :
  NoDup (map id objs) -> Canvas.command_on objs command ->
  local_run (execute command) clockR 0
    (execute_then_undo command clockE clockU objs)
  = local_run (execute command) clockR 0 objs.
Proof.
  intros Hnd Hon.
  destruct command as [object|object|c|cs|g ids]; cbn [Canvas.command_on] in Hon.
  - unfold execute_then_undo. cbn. unfold apply_updater.
    rewrite Hon, (append_then_filter object objs Hon), Hon. reflexivity.
  - apply in_split in Hon as [before [after ->]].
    destruct (filter_out_unique object before after Hnd) as [Hfilter Hfind].
    unfold execute_then_undo. cbn. unfold apply_updater.
    rewrite Hfilter, Hfind.
    apply (append_then_filter object (before ++ after) Hfind).
  - assert (Hb : Forall (Canvas.update_command_on objs) [c]) by (constructor; auto).
    pose proof (batch_redo [c] objs clockE clockU clockR Hnd Hb) as H.
    rewrite batch_execute_then_undo in H. rewrite update_execute_then_undo.
    cbn [execute local_run] in *. rewrite batch_execute_local in H.
    rewrite batch_execute_local in H.
    cbn in *. unfold apply_updater in *. cbn in *.
    exact H.
  - apply batch_redo; assumption.
  - unfold execute_then_undo. cbn. unfold apply_updater.
    rewrite Hon, (append_then_filter g objs Hon), Hon. reflexivity.
Qed.

Lemma redo_gives_the_committed_state_witness :
  let objs := [Sample.rectangle; Sample.circle] in
  let command := UpdateObject Sample.widen in
  local_run (execute command) (Sample.at_time 9) 0
    (execute_then_undo command (Sample.at_time 7) (Sample.at_time 8) objs)
  = local_run (execute command) (Sample.at_time 9) 0 objs.
Proof.
  intros objs command.
  apply (redo_gives_the_committed_state command objs).
  - exact sample_ids_distinct.
  - exact sample_widen_on_store.
Defined.
End PatchSequences.

(** ** Values for the store *)

Section CleanValues.
Import Js Commands Canvas.

(** Induction on a value together with the values it holds. *)
Lemma JsVal_nested_ind (P : JsVal -> Prop) :
  P VUndef -> P VNull -> (forall b, P (VBool b)) -> (forall n, P (VNum n)) ->
  (forall s, P (VStr s)) ->
  (forall elems, Forall P elems -> P (VArr elems)) ->
  (forall props, Forall (fun kv => P (snd kv)) props -> P (VObj props)) ->
  forall v, P v.
Proof.
  intros Hu Hn Hb Hnum Hs Harr Hobj.
  fix IH 1. intros [| |b|n|s|elems|props].
  - exact Hu.
  - exact Hn.
  - exact (Hb b).
  - exact (Hnum n).
  - exact (Hs s).
  - apply Harr. induction elems as [|v elems IHe]; constructor.
    + exact (IH v).
    + exact IHe.
  - apply Hobj. induction props as [|[k v] props IHp]; constructor.
    + exact (IH v).
    + exact IHp.
Qed.

Lemma cleaned_object_eq (o : JsObject) :
  cleaned_object o
  = map (fun kv => (fst kv, removeUndefinedValues (snd kv))) (defined_props o).
Proof.
  unfold cleaned_object, defined_props. cbn.
  induction o as [|[k v] o IH]; [reflexivity|].
  destruct v; cbn; rewrite IH; reflexivity.
Qed.

Lemma removeUndefinedValues_object (o : JsObject) :
  removeUndefinedValues (VObj o) = VObj (cleaned_object o).
Proof. reflexivity. Qed.

Lemma removeUndefinedValues_defined (v : JsVal) :
  v <> VUndef -> removeUndefinedValues v <> VUndef.
Proof. destruct v; cbn; congruence. Qed.

Lemma removeUndefinedValues_clean (v : JsVal) :
  clean (removeUndefinedValues v) = true.
Proof.
  induction v as [| | | | |elems IH|props IH] using JsVal_nested_ind;
    try reflexivity.
  - cbn. apply forallb_forall. intros w Hin.
    apply in_map_iff in Hin as [v [<- Hin]].
    rewrite Forall_forall in IH. exact (IH v Hin).
  - rewrite removeUndefinedValues_object, cleaned_object_eq. cbn [clean].
    apply forallb_forall. intros [k w] Hin.
    apply in_map_iff in Hin as [[k' v] [Heq Hin]].
    cbn in Heq. injection Heq as <- <-.
    unfold defined_props in Hin. apply filter_In in Hin as [Hin Hdef].
    rewrite Forall_forall in IH. specialize (IH _ Hin). cbn [snd] in *.
    destruct v; try discriminate; cbn in *; try reflexivity; exact IH.
Qed.

Lemma clean_is_fixed (v : JsVal) :
  clean v = true -> removeUndefinedValues v = v.
Proof.
  induction v as [| | | | |elems IH|props IH] using JsVal_nested_ind;
    try reflexivity; intros Hclean.
  - cbn in *. f_equal.
    rewrite <- (map_id elems) at 2. apply map_ext_in. intros v Hin.
    rewrite Forall_forall in IH. apply (IH v Hin).
    rewrite forallb_forall in Hclean. exact (Hclean v Hin).
  - rewrite removeUndefinedValues_object. f_equal.
    cbn [clean] in Hclean. unfold cleaned_object. cbn.
    induction props as [|[k v] props IHp]; [reflexivity|].
    inversion IH as [|? ? Hv Hrest]; subst.
    cbn [forallb snd] in Hclean. apply andb_prop in Hclean as [Hcv Hcp].
    cbn [snd] in Hv.
    rewrite (IHp Hrest Hcp).
    destruct v; try discriminate; try reflexivity.
    + rewrite <- (Hv Hcv) at 2. reflexivity.
    + rewrite <- (Hv Hcv) at 2. reflexivity.
Qed.

(** X8. [removeUndefinedValues] leaves no property that holds [undefined],
    at any depth of objects and arrays; a value that has none is returned
    as it is, so cleaning twice is cleaning once; at the top of an object it
    keeps the properties that hold a value, in their order, each one
    cleaned; and an array keeps its length, an [undefined] element
    included. *)
Theorem removeUndefinedValues_cleans :
  (forall v, clean (removeUndefinedValues v) = true)
  /\ (forall v, clean v = true -> removeUndefinedValues v = v)
  /\ (forall v, removeUndefinedValues (removeUndefinedValues v)
                = removeUndefinedValues v)
  /\ (forall o, removeUndefinedValues (VObj o)
                = VObj (map (fun kv => (fst kv, removeUndefinedValues (snd kv)))
                            (defined_props o)))
  /\ (forall elems,
       exists cleaned,
         removeUndefinedValues (VArr elems) = VArr cleaned
         /\ List.length cleaned = List.length elems
         /\ (In VUndef elems -> In VUndef cleaned)).
Proof.
  split; [exact removeUndefinedValues_clean|].
  split; [exact clean_is_fixed|].
  split; [|split].
  - intros v. apply clean_is_fixed, removeUndefinedValues_clean.
  - intros o. rewrite removeUndefinedValues_object, cleaned_object_eq. reflexivity.
  - intros elems. exists (map removeUndefinedValues elems).
    split; [reflexivity|]. split; [apply length_map|].
    intros Hin. apply in_map_iff. exists VUndef. split; [reflexivity|exact Hin].
Qed.
End CleanValues.

(** ** The session as a whole *)

Section SessionRuns.
Import Js Commands Canvas.
Variable JSON_stringify : list CanvasObject -> string.

Lemma run_ok (events : list (num * Event)) : forall s,
  session_ok s -> session_ok (run JSON_stringify s events).
Proof.
  induction events as [|e events IH]; intros s Hs; cbn; [exact Hs|].
  apply IH, step_ok, Hs.
Qed.

Lemma flag_of_pending s p :
  session_ok s -> In p (pending s) -> holds_flag p = true ->
  isExecutingCommandRef s = true.
Proof.
  intros (_ & Hcount & _) Hin Hp.
  destruct (isExecutingCommandRef s); [reflexivity|].
  rewrite (none_holds_flag _ Hcount p Hin) in Hp. discriminate.
Qed.

(** *** What reaches the store *)

Local Abbreviation all_cleaned s :=
  (Forall (fun c => no_undefined_property c = true) (firestore s)).

Lemma run_effect_cleaned now s e :
  all_cleaned s -> all_cleaned (run_effect now s e).
Proof.
  intros Hs.
  destruct e as [u|obj|i|i updates]; cbn [run_effect].
  - unfold updateObjectsState. destruct (u (items (objects s))); exact Hs.
  - unfold addToFirestore. cbn [firestore with_firestore].
    apply Forall_app. split; [exact Hs|]. constructor; [|constructor].
    apply removeUndefinedValues_clean.
  - unfold removeFromFirestore. cbn [firestore with_firestore].
    apply Forall_app. split; [exact Hs|]. constructor; [reflexivity|constructor].
  - unfold updateInFirestore.
    destruct (find (has_id i) (items (objects s))); [|exact Hs].
    cbn [firestore with_firestore].
    apply Forall_app. split; [exact Hs|]. constructor; [|constructor].
    apply removeUndefinedValues_clean.
Qed.

Lemma run_stage_cleaned now stage s :
  all_cleaned s -> all_cleaned (run_stage now stage s).
Proof.
  unfold run_stage. generalize (stage now). intros effects. revert s.
  induction effects as [|e effects IH]; intros s Hs; [exact Hs|].
  cbn. apply IH, run_effect_cleaned, Hs.
Qed.

Lemma suspend_cleaned k stages now s :
  all_cleaned s -> all_cleaned (suspend k stages now s).
Proof.
  intros Hs. destruct stages as [|stage more]; cbn; [exact Hs|].
  exact (run_stage_cleaned now stage s Hs).
Qed.

Lemma commit_cleaned command clear now s :
  all_cleaned s -> all_cleaned (commit command clear now s).
Proof. intros Hs. unfold commit. apply suspend_cleaned. exact Hs. Qed.

Lemma step_cleaned s timed :
  all_cleaned s -> all_cleaned (step JSON_stringify s timed).
Proof.
  intros Hs. destruct timed as [now e]. destruct e; cbn [step].
  - unfold addObject. destruct (currentUser s); [|exact Hs].
    destruct (isExecutingCommandRef s); [exact Hs|apply commit_cleaned, Hs].
  - unfold updateObject. destruct (currentUser s); [|exact Hs].
    destruct (isExecutingCommandRef s); [exact Hs|].
    destruct (find (has_id i) (items (objects s))); [apply commit_cleaned, Hs|exact Hs].
  - exact Hs.
  - unfold deleteObject. destruct (currentUser s); [|exact Hs].
    destruct (isExecutingCommandRef s); [exact Hs|].
    destruct (find (has_id i) (items (objects s))); [|exact Hs].
    apply commit_cleaned. destruct (selectedId s) as [j|]; [|exact Hs].
    destruct (String.eqb j i); exact Hs.
  - exact Hs.
  - exact Hs.
  - unfold addToSelection. destruct (existsb _ _); exact Hs.
  - exact Hs.
  - exact Hs.
  - unfold createGroup. destruct (currentUser s); [|exact Hs].
    destruct (List.length (selectedIds s) <? 2)%nat; [exact Hs|apply commit_cleaned, Hs].
  - unfold undo. destruct (isExecutingCommandRef s); [exact Hs|].
    destruct (negb _); [exact Hs|].
    destruct (CommandHistory.undo_start _); apply suspend_cleaned; exact Hs.
  - unfold redo. destruct (isExecutingCommandRef s); [exact Hs|].
    destruct (negb _); [exact Hs|].
    destruct (CommandHistory.redo_start _) as [h started].
    destruct started; apply suspend_cleaned; exact Hs.
  - unfold onSnapshot, alloc, setObjects. cbn.
    destruct (isExecutingCommandRef s); [exact Hs|].
    destruct (String.eqb _ _); exact Hs.
  - unfold settle. destruct (nth_error (pending s) n) as [p|]; [|exact Hs].
    destruct ok.
    + destruct (rest p) as [|stage more].
      * destruct (continuation p) as [[|]| | |]; exact Hs.
      * exact (run_stage_cleaned now stage s Hs).
    + destruct (continuation p); exact Hs.
Qed.

(** X9. Through any sequence of calls, snapshots and settled promises,
    overlapping ones included, [isExecutingCommandRef] is up exactly while
    one [undo()] or [redo()] is suspended, and never two of them are; while
    it is down, every suspended call is a commit; and a suspended [undo()]
    still has the command it reverses under the cursor. *)
Theorem flag_is_up_exactly_while_undo_or_redo_waits (uid : string)
  (events : list (num * Event)) :
  let s := run JSON_stringify (initial uid) events in
  List.length (filter holds_flag (pending s))
  = (if isExecutingCommandRef s then 1%nat else 0%nat)
  /\ (isExecutingCommandRef s = false ->
      forall p, In p (pending s) ->
                exists clear, continuation p = AfterExecuteCommand clear)
  /\ (forall p, In p (pending s) -> continuation p = AfterUndo ->
                CommandHistory.canUndo (commandHistoryRef s) = true).
Proof.
  intros s.
  destruct (run_ok events (initial uid) (initial_ok uid)) as (_ & Hcount & Hundo).
  fold s in Hcount, Hundo.
  split; [exact Hcount|]. split; [|exact Hundo].
  intros Hflag p Hin. rewrite Hflag in Hcount.
  pose proof (none_holds_flag _ Hcount p Hin) as Hp.
  unfold holds_flag in Hp. destruct (continuation p); try discriminate.
  eexists. reflexivity.
Qed.

(** X10. While an [undo()] or a [redo()] is suspended, in any state that
    the session can reach, the flag is up: a snapshot leaves the array of
    objects as it is, and [addObject], [updateObject], [deleteObject],
    [undo] and [redo] return without doing anything. *)
Theorem suspended_undo_or_redo_shuts_the_session (uid : string)
  (events : list (num * Event)) (p : Pending) :
  let s := run JSON_stringify (initial uid) events in
  In p (pending s) -> holds_flag p = true ->
  isExecutingCommandRef s = true
  /\ (forall docs, objects (onSnapshot JSON_stringify docs s) = objects s)
  /\ (forall newId now object, addObject newId now object s = s)
  /\ (forall i updates now, updateObject i updates now s = s)
  /\ (forall i now, deleteObject i now s = s)
  /\ (forall now, undo now s = s)
  /\ (forall now, redo now s = s).
Proof.
  intros s Hin Hp.
  pose proof (run_ok events (initial uid) (initial_ok uid)) as Hok. fold s in Hok.
  pose proof (flag_of_pending s p Hok Hin Hp) as Hflag.
  split; [exact Hflag|]. split.
  - intros docs. unfold onSnapshot, alloc, setObjects. cbn. rewrite Hflag. reflexivity.
  - apply guarded_intents_rejected, Hflag.
Qed.

(** X11. Whatever the session goes through, every call that it sends to
    the store carries data in which no property holds [undefined], in the
    written object and in every object inside it. *)
Theorem store_writes_hold_no_undefined_property (uid : string) (events : list (num * Event)) :
  Forall (fun c => no_undefined_property c = true)
    (firestore (run JSON_stringify (initial uid) events)).
Proof.
  assert (Hrun : forall evs s, all_cleaned s -> all_cleaned (run JSON_stringify s evs)).
  { induction evs as [|e evs IH]; intros s Hs; cbn; [exact Hs|].
    apply IH, step_cleaned, Hs. }
  apply (Hrun events (initial uid)). constructor.
Qed.
(** X12. After a snapshot that arrives while the flag is down, the local
    array reads, as JSON text, like the snapshot; and the same snapshot
    delivered again changes nothing: the array of the first delivery stays,
    with its identity. *)
Theorem repeated_snapshot_changes_nothing (docs : list CanvasObject) (s : State) :
  let s1 := onSnapshot JSON_stringify docs s in
  objects (onSnapshot JSON_stringify docs s1) = objects s1
  /\ (isExecutingCommandRef s = false ->
      JSON_stringify (items (objects s1)) = JSON_stringify docs).
Proof.
  intros s1.
  assert (Hflag1 : isExecutingCommandRef s1 = isExecutingCommandRef s).
  { unfold s1, onSnapshot, alloc, setObjects. cbn.
    destruct (isExecutingCommandRef s) eqn:E; [exact E|].
    destruct (String.eqb _ _); exact E. }
  assert (Hjson : isExecutingCommandRef s = false ->
                  JSON_stringify (items (objects s1)) = JSON_stringify docs).
  { intros Hflag. unfold s1, onSnapshot, alloc, setObjects. cbn. rewrite Hflag.
    destruct (String.eqb_spec (JSON_stringify (items (objects s)))
                (JSON_stringify docs)) as [E|_]; [exact E|reflexivity]. }
  split; [|exact Hjson].
  unfold onSnapshot at 1. unfold alloc, setObjects.
  cbn [isExecutingCommandRef objects items with_heap]. rewrite Hflag1.
  destruct (isExecutingCommandRef s) eqn:Hflag; [reflexivity|].
  rewrite (Hjson eq_refl), String.eqb_refl. reflexivity.
Qed.
End SessionRuns.

Lemma suspended_undo_or_redo_shuts_the_session_witness :
  let object := [("type", Js.VStr "text"); ("x", Sample.number 5);
                 ("y", Sample.number 5)] in
  let events := [(Js.of_Z 2000, Canvas.OnAddObject "t" object);
                 (Js.of_Z 2001, Canvas.OnSettle 0 true);
                 (Js.of_Z 2002, Canvas.OnUndo)] in
  let s := Canvas.run Sample.stringify (Canvas.initial "u") events in
  let p := Canvas.mkPending Canvas.AfterUndo [] in
  In p (Canvas.pending s)
  /\ Canvas.isExecutingCommandRef s = true
  /\ (forall docs, Canvas.objects (Canvas.onSnapshot Sample.stringify docs s)
                   = Canvas.objects s)
  /\ (forall newId now object, Canvas.addObject newId now object s = s)
  /\ (forall i updates now, Canvas.updateObject i updates now s = s)
  /\ (forall i now, Canvas.deleteObject i now s = s)
  /\ (forall now, Canvas.undo now s = s)
  /\ (forall now, Canvas.redo now s = s).
Proof.
  intros object events s p.
  assert (Hin : In p (Canvas.pending s)) by (left; reflexivity).
  split; [exact Hin|].
  apply (suspended_undo_or_redo_shuts_the_session Sample.stringify "u" events p Hin).
  reflexivity.
Defined.

(** ** Intents, undo and redo on the session *)

Section SessionFlows.
Import Js Commands Canvas.
Implicit Types (s : State) (o obj : CanvasObject) (i k : string).

Lemma run_effect_items now s e :
  items (objects (run_effect now s e)) = local_effect e (items (objects s)).
Proof.
  destruct e as [u|obj|i|i updates]; cbn [run_effect local_effect]; try reflexivity.
  - unfold updateObjectsState, apply_updater.
    destruct (u (items (objects s))); reflexivity.
  - unfold updateInFirestore.
    destruct (find (has_id i) (items (objects s))); reflexivity.
Qed.

Lemma run_effects_items now effects : forall s,
  items (objects (fold_left (run_effect now) effects s))
  = local_stage effects (items (objects s)).
Proof.
  unfold local_stage.
  induction effects as [|e effects IH]; intros s; [reflexivity|].
  cbn [fold_left]. rewrite IH, run_effect_items. reflexivity.
Qed.

Lemma run_stage_items now stage s :
  items (objects (run_stage now stage s))
  = local_stage (stage now) (items (objects s)).
Proof. apply run_effects_items. Qed.

Lemma find_map_same_id i (f : CanvasObject -> CanvasObject) (l : list CanvasObject) :
  (forall o, has_id i (f o) = has_id i o) ->
  find (has_id i) (map f l) = option_map f (find (has_id i) l).
Proof.
  intros Hf. induction l as [|o l IH]; [reflexivity|]. cbn.
  rewrite Hf. destruct (has_id i o); [reflexivity|exact IH].
Qed.

Lemma id_spread o (p : Partial) : has "id" p = false -> id (spread o p) = id o.
Proof. intros Hno. unfold id. rewrite get_spread, Hno. reflexivity. Qed.

Lemma set_absent k v (o : JsObject) : has k o = false -> set k v o = o ++ [(k, v)].
Proof.
  induction o as [|[k' v'] o IH]; cbn; [reflexivity|].
  intros H. apply orb_false_iff in H as [Hk Ho]. rewrite Hk, (IH Ho). reflexivity.
Qed.

Lemma capture_by_keys (e : CanvasObject) (updates : Partial) :
  NoDup (keys updates) ->
  capture e updates = map (fun k => (k, get k e)) (keys updates).
Proof.
  unfold capture. generalize (keys updates). intros ks Hnd.
  assert (H : forall acc : JsObject,
            (forall k, In k ks -> has k acc = false) ->
            fold_left (fun previousState key => set key (get key e) previousState) ks acc
            = acc ++ map (fun k => (k, get k e)) ks).
  { induction Hnd as [|k ks Hk Hnd IH]; intros acc Hdis; cbn.
    - symmetry. apply app_nil_r.
    - rewrite IH.
      + rewrite set_absent by (apply Hdis; left; reflexivity).
        rewrite <- app_assoc. reflexivity.
      + intros k' Hin. rewrite has_set.
        rewrite (Hdis k' (or_intror Hin)), orb_false_r.
        apply String.eqb_neq. intros ->. exact (Hk Hin). }
  apply (H []). reflexivity.
Qed.

(** X13. A patch shown with [updateObjectLive] and then committed with
    [updateObject] is logged with the shown values as the state to restore:
    [updateObject] reads the object that the live update has already
    changed, so for every key of the live patch the inverse holds the live
    value, and for the same patch the inverse is the patch itself. *)
Theorem live_update_then_commit_captures_live_values s i
  (live updates : Partial) (now : num) (uid : string) o :
  currentUser s = Some uid -> isExecutingCommandRef s = false ->
  find (has_id i) (items (objects s)) = Some o ->
  has "id" live = false ->
  let s1 := updateObjectLive i live s in
  let s2 := updateObject i updates now s1 in
  let previousState := capture (spread o live) updates in
  find (has_id i) (items (objects s1)) = Some (spread o live)
  /\ commandHistoryRef s2
     = CommandHistory.executeCommand
         (UpdateObject (UpdateObjectCommand.make i updates previousState))
         (commandHistoryRef s)
  /\ (forall k, has k updates = true ->
        get k (rev previousState)
        = if has k live then get k (rev live) else get k o)
  /\ (NoDup (keys updates) -> live = updates -> previousState = updates).
Proof.
  intros Huser Hflag Hfind Hlive s1 s2 previousState.
  assert (Hfind1 : find (has_id i) (items (objects s1)) = Some (spread o live)).
  { unfold s1, updateObjectLive, alloc. cbn [items objects with_objects].
    rewrite find_map_same_id.
    - rewrite Hfind.
      cbn. apply find_some in Hfind as [_ Hi]. rewrite Hi. reflexivity.
    - intros o'. destruct (has_id i o') eqn:Hi; [|exact Hi].
      unfold has_id. rewrite (id_spread _ _ Hlive). exact Hi. }
  split; [exact Hfind1|]. split; [|split].
  - unfold s2, updateObject.
    replace (currentUser s1) with (currentUser s) by reflexivity.
    replace (isExecutingCommandRef s1) with (isExecutingCommandRef s) by reflexivity.
    rewrite Huser, Hflag, Hfind1.
    exact (proj1 (commit_log_and_flag _ false now s1)).
  - intros k Hk.
    destruct (capture_reads (spread o live) updates k) as [_ Hget].
    unfold previousState. rewrite (Hget Hk). apply get_spread.
  - intros Hnd ->. unfold previousState.
    rewrite (capture_by_keys _ _ Hnd).
    etransitivity; [|symmetry; apply (object_by_keys updates Hnd)].
    apply map_ext_in. intros k Hin.
    apply has_In in Hin.
    rewrite get_spread, Hin, (get_rev _ _ Hnd). reflexivity.
Qed.

Lemma live_update_then_commit_captures_live_values_witness :
  let moved := [("x", Sample.number 50); ("y", Sample.number 60)] in
  let s1 := updateObjectLive "a" moved Sample.session in
  let s2 := updateObject "a" moved (of_Z 2000) s1 in
  map (get "x") (items (objects s1)) = [Sample.number 50; get "x" Sample.circle]
  /\ commandHistoryRef s2
     = CommandHistory.executeCommand
         (UpdateObject (UpdateObjectCommand.make "a" moved moved))
         (commandHistoryRef Sample.session).
Proof.
  intros moved s1 s2.
  destruct (live_update_then_commit_captures_live_values Sample.session "a"
              moved moved (of_Z 2000) "u" Sample.rectangle
              eq_refl eq_refl eq_refl eq_refl) as (_ & Hlog & _ & Hsame).
  split; [reflexivity|].
  fold s1 s2 in Hlog. rewrite Hlog, Hsame; [reflexivity| |reflexivity].
  repeat constructor; cbn; intuition discriminate.
Defined.

Lemma cleaned_get (o : JsObject) k :
  NoDup (keys o) -> get k (cleaned_object o) = removeUndefinedValues (get k o).
Proof.
  rewrite cleaned_object_eq. unfold defined_props.
  induction o as [|[k' v] o IH]; intros Hnd; [reflexivity|].
  inversion Hnd as [|? ? Hk Hrest]; subst. specialize (IH Hrest).
  assert (Hout : String.eqb k k' = true ->
            get k (map (fun kv => (fst kv, removeUndefinedValues (snd kv)))
                       (filter (fun kv => match snd kv with VUndef => false | _ => true end) o))
            = VUndef).
  { intros E. apply String.eqb_eq in E. subst k'.
    apply get_absent. destruct (has k _) eqn:Hh; [|reflexivity].
    exfalso. apply Hk. apply has_In in Hh. unfold keys in *.
    rewrite map_map in Hh. cbn in Hh.
    apply in_map_iff in Hh as [kv [<- Hin]]. apply filter_In in Hin as [Hin _].
    apply in_map. exact Hin. }
  cbn [filter snd get].
  destruct v; cbn [map fst snd get];
    destruct (String.eqb k k') eqn:E; try reflexivity; try exact IH.
  exact (Hout eq_refl).
Qed.

Lemma cleaned_has (o : JsObject) k :
  has k (cleaned_object o) = true -> has k o = true.
Proof.
  rewrite cleaned_object_eq. unfold defined_props. intros Hh.
  apply has_In in Hh. apply has_In. unfold keys in *.
  rewrite map_map in Hh. cbn in Hh.
  apply in_map_iff in Hh as [kv [<- Hin]]. apply filter_In in Hin as [Hin _].
  apply in_map. exact Hin.
Qed.

Lemma cleaned_keys_NoDup (o : JsObject) :
  NoDup (keys o) -> NoDup (keys (cleaned_object o)).
Proof.
  rewrite cleaned_object_eq. unfold defined_props, keys.
  rewrite map_map. cbn.
  induction o as [|[k v] o IH]; intros Hnd; [constructor|].
  inversion Hnd as [|? ? Hk Hrest]; subst. cbn [filter snd].
  destruct v; cbn [map fst]; try (apply IH; exact Hrest);
    (constructor; [|apply IH; exact Hrest]);
    intros Hin; apply Hk; apply in_map_iff in Hin as [kv [<- Hin]];
    apply filter_In in Hin as [Hin _]; apply in_map; exact Hin.
Qed.

Lemma cleaned_by_reads (a b : JsObject) :
  NoDup (keys a) -> keys a = keys b ->
  (forall k, removeUndefinedValues (get k a) = removeUndefinedValues (get k b)) ->
  cleaned_object a = cleaned_object b.
Proof.
  intros Hnd Hkeys Hget.
  rewrite !cleaned_object_eq.
  rewrite (object_by_keys a Hnd).
  rewrite (object_by_keys b) by (rewrite <- Hkeys; exact Hnd).
  rewrite <- Hkeys. unfold defined_props.
  clear Hnd Hkeys.
  induction (keys a) as [|k ks IH]; [reflexivity|].
  assert (Hd : match get k a with VUndef => false | _ => true end
               = match get k b with VUndef => false | _ => true end).
  { specialize (Hget k).
    destruct (get k a), (get k b); cbn in Hget; try discriminate; reflexivity. }
  cbn [map filter snd]. rewrite Hd.
  destruct (get k b) eqn:Hb; cbn [map fst snd]; rewrite IH;
    try reflexivity; rewrite (Hget k), Hb; reflexivity.
Qed.

Lemma patch_stage_writes s i (F : Partial) (now : num) o :
  find (has_id i) (items (objects s)) = Some o ->
  has "id" F = false -> NoDup (keys o) -> NoDup (keys F) ->
  let o' := UpdateObjectCommand.patched F now o in
  let s' := fold_left (run_effect now)
              [UpdateLocalState (fun prev =>
                 Some (map (fun x => if has_id i x
                                     then UpdateObjectCommand.patched F now x
                                     else x) prev));
               UpdateInFirestore i F] s in
  find (has_id i) (items (objects s')) = Some o'
  /\ firestore s'
     = firestore s ++ [SetDocMerge i (removeUndefinedValues (VObj o'))].
Proof.
  intros Hfind Hid Hndo Hndu o' s'.
  set (s1 := updateObjectsState
               (fun prev => Some (map (fun x => if has_id i x
                                                then UpdateObjectCommand.patched F now x
                                                else x) prev)) s).
  assert (Hfind1 : find (has_id i) (items (objects s1)) = Some o').
  { unfold s1, updateObjectsState, alloc. cbn [items objects with_objects].
    rewrite find_map_same_id.
    - rewrite Hfind. cbn [option_map].
      apply find_some in Hfind as [_ Hi]. rewrite Hi. reflexivity.
    - intros x. destruct (has_id i x) eqn:Hi; [|exact Hi].
      unfold has_id. rewrite (id_patched _ _ _ Hid). exact Hi. }
  assert (Hwrite : s' = with_firestore
                          (firestore s ++
                           [SetDocMerge i (removeUndefinedValues
                              (VObj (UpdateObjectCommand.patched (cleaned_object F) now o')))])
                          s1).
  { unfold s'. cbn [fold_left run_effect]. fold s1.
    unfold updateInFirestore. rewrite Hfind1. reflexivity. }
  rewrite Hwrite. cbn [items objects firestore with_firestore].
  split; [exact Hfind1|].
  do 3 f_equal. rewrite !removeUndefinedValues_object. f_equal.
  assert (Hndo' : NoDup (keys o')) by (apply grows_patched, Hndo).
  symmetry. apply cleaned_by_reads; [exact Hndo'| |].
  - symmetry. apply keys_patched_full.
    + intros k Hk. apply cleaned_has in Hk.
      unfold o'. rewrite has_patched, Hk. rewrite !orb_true_r. reflexivity.
    + unfold o'. rewrite has_patched. reflexivity.
  - intros k. rewrite get_patched.
    destruct (String.eqb k "lastModified") eqn:Hk.
    + unfold o'. rewrite get_patched, Hk. reflexivity.
    + destruct (has k (cleaned_object F)) eqn:Hc; [|reflexivity].
      rewrite (get_rev _ _ (cleaned_keys_NoDup _ Hndu)), (cleaned_get _ _ Hndu).
      unfold o'. rewrite get_patched, Hk, (cleaned_has _ _ Hc), (get_rev _ _ Hndu).
      symmetry. apply clean_is_fixed, removeUndefinedValues_clean.
Qed.

(** X14. The one store call of an accepted [updateObject] is a merge write
    of the whole object as the local state holds it after the update, cleaned
    of [undefined], not of the patch alone. *)
Theorem update_writes_the_whole_object s i (updates : Partial) (now : num)
  (uid : string) o :
  currentUser s = Some uid -> isExecutingCommandRef s = false ->
  find (has_id i) (items (objects s)) = Some o ->
  has "id" updates = false -> NoDup (keys o) -> NoDup (keys updates) ->
  let s' := updateObject i updates now s in
  let o' := UpdateObjectCommand.patched updates now o in
  find (has_id i) (items (objects s')) = Some o'
  /\ firestore s'
     = firestore s ++ [SetDocMerge i (removeUndefinedValues (VObj o'))].
Proof.
  intros Huser Hflag Hfind Hid Hndo Hndu s' o'.
  set (c := UpdateObjectCommand.make i updates (capture o updates)).
  set (s0 := with_history
               (CommandHistory.executeCommand (UpdateObject c) (commandHistoryRef s)) s).
  destruct (patch_stage_writes s0 i updates now o Hfind Hid Hndo Hndu) as [Hf Hw].
  cbn zeta in Hf, Hw.
  assert (Hs' : s' = commit (UpdateObject c) false now s).
  { unfold s', updateObject. rewrite Huser, Hflag, Hfind. reflexivity. }
  rewrite Hs'. unfold commit. cbn [execute suspend].
  cbn [items objects firestore with_pending].
  split; [exact Hf|exact Hw].
Qed.

Lemma update_writes_the_whole_object_witness :
  let updates := [("width", Sample.number 150)] in
  let s' := updateObject "a" updates (of_Z 2000) Sample.session in
  let o' := UpdateObjectCommand.patched updates (of_Z 2000) Sample.rectangle in
  find (has_id "a") (items (objects s')) = Some o'
  /\ firestore s'
     = firestore Sample.session
       ++ [SetDocMerge "a" (removeUndefinedValues (VObj o'))].
Proof.
  intros updates s' o'.
  apply (update_writes_the_whole_object Sample.session "a" updates (of_Z 2000)
           "u" Sample.rectangle); try reflexivity.
  - exact (proj1 sample_rectangle_well_formed).
  - repeat constructor. intros [].
Defined.

Lemma settle_single (cont : Continuation) now s0 :
  pending s0 = [] ->
  settle 0 true now (with_pending (pending s0 ++ [mkPending cont []]) s0)
  = finish cont (with_pending [] s0).
Proof. intros Hp. unfold settle. cbn. rewrite Hp. reflexivity. Qed.

Lemma single_stage (c : Command) :
  (forall cs, c <> UpdateMultipleObjects cs) ->
  exists u e, Commands.undo c = [u] /\ execute c = [e].
Proof.
  intros Hc. destruct c as [object|object|c|cs|g ids]; cbn; eauto.
  exfalso. exact (Hc cs eq_refl).
Qed.

Lemma undo_target_started (h : CommandHistory.t Command) c :
  CommandHistory.undo_target h = Some c ->
  CommandHistory.canUndo h = true
  /\ CommandHistory.undo_start h = CommandHistory.Awaits c.
Proof.
  unfold CommandHistory.undo_target, CommandHistory.undo_start.
  destruct (CommandHistory.canUndo h); [|discriminate].
  destruct (CommandHistory.current h); [|discriminate].
  intros H. injection H as ->. split; reflexivity.
Qed.

(** X15. On a session with no call in flight, [undo()] followed, once it
    has settled, by [redo()] runs the [undo] and then the [execute] of the
    command under the cursor on the local state, each at the clock reading
    of its call; the log is afterwards what it was, the selection is
    cleared, the flag is down and nothing is left suspended. *)
Theorem undo_then_redo_on_the_session s (c : Command) (t1 t2 t3 t4 : num) :
  pending s = [] -> isExecutingCommandRef s = false ->
  CommandHistory.log_ok (commandHistoryRef s) ->
  CommandHistory.undo_target (commandHistoryRef s) = Some c ->
  (forall cs, c <> UpdateMultipleObjects cs) ->
  let s1 := settle 0 true t2 (undo t1 s) in
  let s2 := settle 0 true t4 (redo t3 s1) in
  (items (objects s1)
   = local_run (Commands.undo c) (fun _ => t1) 0 (items (objects s))
   /\ commandHistoryRef s1
      = CommandHistory.call (commandHistoryRef s) (CommandHistory.Undo true)
   /\ selectedId s1 = None /\ selectedIds s1 = []
   /\ isExecutingCommandRef s1 = false /\ pending s1 = [])
  /\ (items (objects s2)
      = local_run (execute c) (fun _ => t3) 0 (items (objects s1))
      /\ commandHistoryRef s2 = commandHistoryRef s
      /\ selectedId s2 = None /\ selectedIds s2 = []
      /\ isExecutingCommandRef s2 = false /\ pending s2 = []).
Proof.
  intros Hp Hflag Hok Ht Hc s1 s2.
  destruct (single_stage c Hc) as (u & e & Hu & He).
  destruct (undo_target_started _ _ Ht) as [Hcan Hstart].
  (* the undo *)
  set (S1 := run_stage t1 u (with_executing true s)).
  destruct (run_stage_framed t1 u (with_executing true s))
    as (_ & _ & Hlog1 & _ & _ & Hp1). fold S1 in Hlog1, Hp1.
  cbn [commandHistoryRef pending with_executing] in Hlog1, Hp1.
  rewrite Hp in Hp1.
  assert (Hs1 : s1 = finish AfterUndo (with_pending [] S1)).
  { unfold s1, undo. rewrite Hflag, Hcan. cbn [negb].
    cbn [commandHistoryRef with_executing]. rewrite Hstart, Hu.
    cbn [suspend]. fold S1. apply settle_single. exact Hp1. }
  assert (Hh1 : commandHistoryRef s1
                = CommandHistory.call (commandHistoryRef s) (CommandHistory.Undo true)).
  { rewrite Hs1. cbn [finish commandHistoryRef with_executing clearSelection
                      with_selection with_history with_pending].
    rewrite Hlog1. cbn [CommandHistory.call]. rewrite Hstart. reflexivity. }
  assert (Hitems1 : items (objects s1)
                    = local_run (Commands.undo c) (fun _ => t1) 0 (items (objects s))).
  { rewrite Hs1, Hu. cbn [finish objects with_executing clearSelection
                          with_selection with_history with_pending local_run].
    unfold S1. rewrite run_stage_items. reflexivity. }
  assert (Hflag1 : isExecutingCommandRef s1 = false) by (rewrite Hs1; reflexivity).
  assert (Hpend1 : pending s1 = []) by (rewrite Hs1; reflexivity).
  split.
  { repeat split; try assumption; rewrite Hs1; reflexivity. }
  (* the redo *)
  destruct (undo_then_redo Command (commandHistoryRef s) true Hok Hcan)
    as (Hredo & Hsnd & Hfst).
  rewrite <- Hh1 in Hredo, Hsnd, Hfst.
  cbn [CommandHistory.call] in Hfst.
  set (s1' := with_history (commandHistoryRef s) (with_executing true s1)).
  set (S2 := run_stage t3 e s1').
  destruct (run_stage_framed t3 e s1') as (_ & _ & Hlog2 & _ & _ & Hp2).
  fold S2 in Hlog2, Hp2.
  cbn [commandHistoryRef pending with_executing with_history s1'] in Hlog2, Hp2.
  rewrite Hpend1 in Hp2.
  assert (Hs2 : s2 = finish AfterRedo (with_pending [] S2)).
  { unfold s2, redo. rewrite Hflag1, Hredo. cbn [negb].
    cbn [commandHistoryRef with_executing].
    destruct (CommandHistory.redo_start (commandHistoryRef s1)) as [h' started].
    cbn [fst snd] in Hsnd, Hfst. subst h'. rewrite Hsnd, Hstart, He.
    cbn [suspend]. fold s1' S2. apply settle_single. exact Hp2. }
  repeat split; rewrite Hs2; try reflexivity.
  - rewrite He. cbn [finish objects with_executing clearSelection
                     with_selection with_pending local_run].
    unfold S2. rewrite run_stage_items. reflexivity.
  - cbn [finish commandHistoryRef with_executing clearSelection
         with_selection with_pending]. exact Hlog2.
Qed.

Lemma undo_then_redo_on_the_session_witness :
  let s1 := settle 0 true (of_Z 2001) (undo (of_Z 2000) Sample.session) in
  let s2 := settle 0 true (of_Z 2003) (redo (of_Z 2002) s1) in
  (items (objects s1) = [Sample.rectangle]
   /\ CommandHistory.currentIndex (commandHistoryRef s1) = 0%Z)
  /\ (items (objects s2) = [Sample.rectangle; Sample.circle]
      /\ commandHistoryRef s2 = commandHistoryRef Sample.session
      /\ isExecutingCommandRef s2 = false /\ pending s2 = []).
Proof.
  intros s1 s2.
  destruct (undo_then_redo_on_the_session Sample.session (AddObject Sample.circle)
              (of_Z 2000) (of_Z 2001) (of_Z 2002) (of_Z 2003))
    as [(H1 & H2 & _) (H3 & H4 & _ & _ & H5 & H6)];
    try reflexivity; try discriminate.
  - repeat split; vm_compute; first [reflexivity | discriminate].
  - fold s1 in H1, H2, H3. fold s2 in H3, H4, H5, H6.
    split; [split|split; [|split; [|split]]]; first [assumption | reflexivity].
Defined.

Lemma truthy_or_100 (v : JsVal) : truthy (or_else v (VNum (of_Z 100))) = true.
Proof. unfold or_else. destruct (truthy v) eqn:E; [exact E|reflexivity]. Qed.

(** X16. An accepted [addObject] logs the command of an object that has
    the generated id, the clock reading as [createdAt] and [lastModified],
    and a width and a height that are never falsy: a missing one or a 0
    gives 100; every other property is as passed in.  The object goes to the
    store in one [setDoc], cleaned; it is appended last to the local array,
    unless an object with the generated id is already there, in which case
    the array is left as it is although the command is logged and the
    document written. *)
Theorem addObject_builds_appends_and_writes s (newId : string) (now : num)
  (object : JsObject) (uid : string) :
  currentUser s = Some uid -> isExecutingCommandRef s = false ->
  let s' := addObject newId now object s in
  exists newObject,
    (id newObject = newId
     /\ get "createdAt" newObject = VNum now
     /\ get "lastModified" newObject = VNum now
     /\ get "width" newObject = or_else (get "width" object) (VNum (of_Z 100))
     /\ get "height" newObject = or_else (get "height" object) (VNum (of_Z 100))
     /\ truthy (get "width" newObject) = true
     /\ truthy (get "height" newObject) = true
     /\ (forall k, ~ In k ["id"; "createdAt"; "lastModified"; "width"; "height"]%string ->
                   get k newObject = get k object))
    /\ commandHistoryRef s'
       = CommandHistory.executeCommand (AddObject newObject) (commandHistoryRef s)
    /\ firestore s'
       = firestore s ++ [SetDoc newId (removeUndefinedValues (VObj newObject))]
    /\ (find (has_id newId) (items (objects s)) = None ->
        items (objects s') = items (objects s) ++ [newObject])
    /\ (find (has_id newId) (items (objects s)) <> None ->
        objects s' = objects s).
Proof.
  intros Huser Hflag s'.
  set (newObject :=
         set "height" (or_else (get "height" object) (VNum (of_Z 100)))
           (set "width" (or_else (get "width" object) (VNum (of_Z 100)))
              (set "lastModified" (VNum now)
                 (set "createdAt" (VNum now)
                    (set "id" (VStr newId) object))))).
  assert (Hs' : s' = commit (AddObject newObject) false now s).
  { unfold s', addObject. rewrite Huser, Hflag. reflexivity. }
  assert (Hget : forall k, get k newObject
            = if String.eqb k "height" then or_else (get "height" object) (VNum (of_Z 100))
              else if String.eqb k "width" then or_else (get "width" object) (VNum (of_Z 100))
              else if String.eqb k "lastModified" then VNum now
              else if String.eqb k "createdAt" then VNum now
              else if String.eqb k "id" then VStr newId
              else get k object).
  { intros k. unfold newObject. rewrite !get_set. reflexivity. }
  assert (Hid : id newObject = newId).
  { unfold id. rewrite Hget. reflexivity. }
  exists newObject. split; [|split; [|split; [|split]]].
  - split; [exact Hid|]. repeat split; rewrite ?Hget; cbn [String.eqb Ascii.eqb Bool.eqb];
      try reflexivity; try apply truthy_or_100.
    intros k Hk. rewrite Hget.
    destruct (String.eqb k "height") eqn:E1;
      [apply String.eqb_eq in E1; subst k; exfalso; apply Hk; cbn; tauto|].
    destruct (String.eqb k "width") eqn:E2;
      [apply String.eqb_eq in E2; subst k; exfalso; apply Hk; cbn; tauto|].
    destruct (String.eqb k "lastModified") eqn:E3;
      [apply String.eqb_eq in E3; subst k; exfalso; apply Hk; cbn; tauto|].
    destruct (String.eqb k "createdAt") eqn:E4;
      [apply String.eqb_eq in E4; subst k; exfalso; apply Hk; cbn; tauto|].
    destruct (String.eqb k "id") eqn:E5;
      [apply String.eqb_eq in E5; subst k; exfalso; apply Hk; cbn; tauto|].
    reflexivity.
  - rewrite Hs'. exact (proj1 (commit_log_and_flag _ false now s)).
  - rewrite Hs'. unfold commit. cbn [execute suspend].
    unfold run_stage, AddObjectCommand.execute. cbn [fold_left run_effect].
    unfold addToFirestore. cbn [firestore with_pending with_firestore].
    rewrite Hid. f_equal.
    unfold updateObjectsState. cbn [items objects with_history].
    destruct (find (has_id newId) (items (objects s))); reflexivity.
  - intros Hnew. rewrite Hs'. unfold commit. cbn [execute suspend].
    unfold run_stage, AddObjectCommand.execute. cbn [fold_left run_effect].
    unfold addToFirestore. cbn [objects with_pending with_firestore].
    unfold updateObjectsState. cbn [items objects with_history].
    rewrite Hid, Hnew. reflexivity.
  - intros Hold. rewrite Hs'. unfold commit. cbn [execute suspend].
    unfold run_stage, AddObjectCommand.execute. cbn [fold_left run_effect].
    unfold addToFirestore. cbn [objects with_pending with_firestore].
    unfold updateObjectsState. cbn [items objects with_history].
    rewrite Hid. destruct (find (has_id newId) (items (objects s))); [reflexivity|].
    exfalso. apply Hold. reflexivity.
Qed.

Lemma addObject_builds_appends_and_writes_witness :
  let object := [("type", VStr "text"); ("x", Sample.number 5);
                 ("y", Sample.number 5); ("width", Sample.number 0)] in
  let s' := addObject "t" (of_Z 2000) object Sample.session in
  map (get "width") (items (objects s'))
  = [Sample.number 100; Sample.number 100; Sample.number 100]
  /\ exists newObject,
       id newObject = "t"%string
       /\ truthy (get "width" newObject) = true
       /\ items (objects s') = items (objects Sample.session) ++ [newObject].
Proof.
  intros object s'. split; [reflexivity|].
  destruct (addObject_builds_appends_and_writes Sample.session "t" (of_Z 2000)
              object "u" eq_refl eq_refl)
    as (newObject & (Hid & _ & _ & _ & _ & Hw & _) & _ & _ & Happ & _).
  exists newObject. split; [exact Hid|]. split; [exact Hw|].
  apply Happ. reflexivity.
Defined.
Lemma commit_settled s (c : Command) (e : Stage) (clear : bool) (now t' : num) :
  pending s = [] -> execute c = [e] ->
  settle 0 true t' (commit c clear now s)
  = finish (AfterExecuteCommand clear)
      (with_pending []
         (run_stage now e
            (with_history (CommandHistory.executeCommand c (commandHistoryRef s)) s))).
Proof.
  intros Hp He. unfold commit. rewrite He. cbn [suspend].
  apply settle_single.
  destruct (run_stage_framed now e
              (with_history (CommandHistory.executeCommand c (commandHistoryRef s)) s))
    as (_ & _ & _ & _ & _ & Hp').
  rewrite Hp'. exact Hp.
Qed.

Lemma undo_settled s (c : Command) (u : Stage) (t1 t2 : num) :
  pending s = [] -> isExecutingCommandRef s = false ->
  CommandHistory.undo_target (commandHistoryRef s) = Some c ->
  Commands.undo c = [u] ->
  settle 0 true t2 (undo t1 s)
  = finish AfterUndo (with_pending [] (run_stage t1 u (with_executing true s))).
Proof.
  intros Hp Hflag Ht Hu.
  destruct (undo_target_started _ _ Ht) as [Hcan Hstart].
  unfold undo. rewrite Hflag, Hcan. cbn [negb].
  cbn [commandHistoryRef with_executing]. rewrite Hstart, Hu.
  cbn [suspend]. apply settle_single.
  destruct (run_stage_framed t1 u (with_executing true s)) as (_ & _ & _ & _ & _ & Hp').
  rewrite Hp'. exact Hp.
Qed.

Lemma get_of_entry (o : JsObject) k v :
  NoDup (keys o) -> In (k, v) o -> get k o = v.
Proof.
  induction o as [|[k' v'] o IH]; intros Hnd Hin; [destruct Hin|].
  inversion Hnd as [|? ? Hk Hrest]; subst. cbn.
  destruct Hin as [Heq|Hin].
  - injection Heq as -> ->. rewrite String.eqb_refl. reflexivity.
  - destruct (String.eqb k k') eqn:E; [|apply IH; assumption].
    apply String.eqb_eq in E. subst k'. exfalso. apply Hk.
    apply (in_map fst) in Hin. exact Hin.
Qed.

Lemma cleaned_drops_undefined (o : JsObject) k :
  NoDup (keys o) -> get k o = VUndef -> has k (cleaned_object o) = false.
Proof.
  intros Hnd Hget. destruct (has k (cleaned_object o)) eqn:Hh; [|reflexivity].
  exfalso. apply has_In in Hh. rewrite cleaned_object_eq in Hh.
  unfold keys, defined_props in Hh. rewrite map_map in Hh. cbn in Hh.
  apply in_map_iff in Hh as [[k' v] [Hk Hin]]. cbn in Hk. subst k'.
  apply filter_In in Hin as [Hin Hdef]. cbn in Hdef.
  rewrite (get_of_entry o k v Hnd Hin) in Hget. subst v. discriminate.
Qed.

Lemma capture_keys (e : CanvasObject) (updates : Partial) :
  NoDup (keys updates) -> keys (capture e updates) = keys updates.
Proof.
  intros Hnd. rewrite (capture_by_keys _ _ Hnd). unfold keys at 1.
  rewrite map_map. cbn. apply map_id.
Qed.

(** X17. Undo does not take back a property that the update introduced.
    When [updateObject] sets a key that the object did not have, the
    captured value is [undefined]: after the update has settled and [undo]
    has settled, the local object still has the key, holding [undefined],
    and the merge write that [undo] sends carries no such key, where the
    write of the update carried the new value. *)
Theorem undo_keeps_an_introduced_key s i (updates : Partial) k (v : JsVal)
  (uid : string) o (t1 t1' t2 t2' : num) :
  pending s = [] -> isExecutingCommandRef s = false ->
  currentUser s = Some uid ->
  CommandHistory.log_ok (commandHistoryRef s) ->
  find (has_id i) (items (objects s)) = Some o ->
  NoDup (keys o) -> NoDup (keys updates) -> has "id" updates = false ->
  has k o = false -> In (k, v) updates -> v <> VUndef ->
  k <> "lastModified"%string ->
  let s1 := settle 0 true t1' (updateObject i updates t1 s) in
  let s2 := settle 0 true t2' (undo t2 s1) in
  exists o1 d1 o2 d2,
    (find (has_id i) (items (objects s1)) = Some o1
     /\ get k o1 = v
     /\ firestore s1 = firestore s ++ [SetDocMerge i (VObj d1)]
     /\ get k d1 = removeUndefinedValues v /\ has k d1 = true)
    /\ (find (has_id i) (items (objects s2)) = Some o2
        /\ has k o2 = true /\ get k o2 = VUndef
        /\ firestore s2 = firestore s1 ++ [SetDocMerge i (VObj d2)]
        /\ has k d2 = false).
Proof.
  intros Hp Hflag Huser Hok Hfind Hndo Hndu Hid Hko Hin Hv Hk s1 s2.
  assert (Hku : has k updates = true) by (apply has_In, (in_map fst _ _ Hin)).
  assert (Hgu : get k updates = v) by (apply get_of_entry; assumption).
  set (P := capture o updates).
  set (c := UpdateObjectCommand.make i updates P).
  set (o1 := UpdateObjectCommand.patched updates t1 o).
  set (o2 := UpdateObjectCommand.patched P t2 o1).
  assert (Hndo1 : NoDup (keys o1)) by (apply grows_patched, Hndo).
  assert (Hndo2 : NoDup (keys o2)) by (apply grows_patched, Hndo1).
  assert (HndP : NoDup (keys P)) by (unfold P; rewrite capture_keys; assumption).
  assert (HidP : has "id" P = false).
  { unfold P. destruct (capture_reads o updates "id") as [-> _]. exact Hid. }
  assert (HkP : has k P = true).
  { unfold P. destruct (capture_reads o updates k) as [-> _]. exact Hku. }
  assert (HgP : get k (rev P) = VUndef).
  { unfold P. destruct (capture_reads o updates k) as [_ Hg].
    rewrite (Hg Hku). apply get_absent, Hko. }
  (* the update *)
  set (s0 := with_history
               (CommandHistory.executeCommand (UpdateObject c) (commandHistoryRef s)) s).
  set (S1 := run_stage t1 (UpdateObjectCommand.execute c) s0).
  destruct (patch_stage_writes s0 i updates t1 o Hfind Hid Hndo Hndu) as [Hf1 Hw1].
  cbn zeta in Hf1, Hw1. fold o1 in Hf1, Hw1.
  destruct (run_stage_framed t1 (UpdateObjectCommand.execute c) s0)
    as (_ & _ & Hlog1 & Hflag1 & _ & Hp1). fold S1 in Hlog1, Hflag1, Hp1.
  assert (Hs1 : s1 = with_pending [] S1).
  { unfold s1, updateObject. rewrite Huser, Hflag, Hfind.
    fold P. fold c.
    rewrite (commit_settled s (UpdateObject c) (UpdateObjectCommand.execute c)
               false t1 t1' Hp eq_refl).
    reflexivity. }
  assert (Hget1 : get k o1 = v).
  { unfold o1. rewrite get_patched.
    destruct (String.eqb_spec k "lastModified") as [E|_]; [contradiction|].
    rewrite Hku, (get_rev _ _ Hndu). exact Hgu. }
  (* the undo *)
  assert (Ht : CommandHistory.undo_target (commandHistoryRef s1) = Some (UpdateObject c)).
  { rewrite Hs1. cbn [commandHistoryRef with_pending]. rewrite Hlog1.
    apply (executeCommand_target Command (UpdateObject c) _ Hok). }
  assert (Hs2 : s2 = finish AfterUndo
                       (with_pending []
                          (run_stage t2 (UpdateObjectCommand.undo c)
                             (with_executing true s1)))).
  { apply (undo_settled s1 (UpdateObject c)); try reflexivity.
    - rewrite Hs1. reflexivity.
    - rewrite Hs1. cbn [isExecutingCommandRef with_pending]. rewrite Hflag1.
      exact Hflag.
    - exact Ht. }
  assert (Hfind1 : find (has_id i) (items (objects (with_executing true s1))) = Some o1).
  { rewrite Hs1. exact Hf1. }
  destruct (patch_stage_writes (with_executing true s1) i P t2 o1 Hfind1 HidP Hndo1 HndP)
    as [Hf2 Hw2].
  cbn zeta in Hf2, Hw2. fold o2 in Hf2, Hw2.
  exists o1, (cleaned_object o1), o2, (cleaned_object o2).
  split; [split; [|split; [|split; [|split]]]|split; [|split; [|split; [|split]]]].
  - rewrite Hs1. exact Hf1.
  - exact Hget1.
  - rewrite Hs1. exact Hw1.
  - rewrite (cleaned_get _ _ Hndo1), Hget1. reflexivity.
  - apply has_In. rewrite cleaned_object_eq. unfold keys, defined_props.
    rewrite map_map. cbn.
    apply in_map_iff. exists (k, v). split; [reflexivity|].
    apply filter_In. split.
    + assert (Hin1 : In k (keys o1)).
      { apply has_In. unfold o1. rewrite has_patched, Hku.
        rewrite !orb_true_r. reflexivity. }
      rewrite (object_by_keys o1 Hndo1).
      apply in_map_iff. exists k. rewrite Hget1. split; [reflexivity|exact Hin1].
    + cbn. destruct v; [contradiction| | | | | |]; reflexivity.
  - rewrite Hs2. exact Hf2.
  - unfold o2. rewrite has_patched, HkP. rewrite !orb_true_r. reflexivity.
  - unfold o2. rewrite get_patched.
    destruct (String.eqb_spec k "lastModified") as [E|_]; [contradiction|].
    rewrite HkP. exact HgP.
  - rewrite Hs2. exact Hw2.
  - apply cleaned_drops_undefined; [exact Hndo2|].
    unfold o2. rewrite get_patched.
    destruct (String.eqb_spec k "lastModified") as [E|_]; [contradiction|].
    rewrite HkP. exact HgP.
Qed.

Lemma undo_keeps_an_introduced_key_witness :
  let updates := [("stroke", VStr "#00ff00")] in
  let s0 := with_pending [] Sample.session in
  let s1 := settle 0 true (of_Z 2001) (updateObject "a" updates (of_Z 2000) s0) in
  let s2 := settle 0 true (of_Z 2003) (undo (of_Z 2002) s1) in
  has "stroke" Sample.rectangle = false
  /\ exists o1 d1 o2 d2,
       (find (has_id "a") (items (objects s1)) = Some o1
        /\ get "stroke" o1 = VStr "#00ff00"
        /\ firestore s1 = firestore s0 ++ [SetDocMerge "a" (VObj d1)]
        /\ get "stroke" d1 = removeUndefinedValues (VStr "#00ff00")
        /\ has "stroke" d1 = true)
       /\ (find (has_id "a") (items (objects s2)) = Some o2
           /\ has "stroke" o2 = true /\ get "stroke" o2 = VUndef
           /\ firestore s2 = firestore s1 ++ [SetDocMerge "a" (VObj d2)]
           /\ has "stroke" d2 = false).
Proof.
  intros updates s0 s1 s2. split; [reflexivity|].
  apply (undo_keeps_an_introduced_key s0 "a" updates "stroke" (VStr "#00ff00")
           "u" Sample.rectangle); try reflexivity; try discriminate.
  - repeat split; vm_compute; first [reflexivity | discriminate].
  - exact (proj1 sample_rectangle_well_formed).
  - repeat constructor. intros [].
  - left. reflexivity.
Defined.
Lemma settle_single_rejected (cont : Continuation) now s0 :
  pending s0 = [] ->
  settle 0 false now (with_pending (pending s0 ++ [mkPending cont []]) s0)
  = fail cont (with_pending [] s0).
Proof. intros Hp. unfold settle. cbn. rewrite Hp. reflexivity. Qed.

(** X18. A rejected promise does not take back the local change.  When
    the store call of [undo()] fails, the local state has already been
    changed by the [undo] of the command while the cursor stays on it, so
    the next [undo()] addresses the same command again; when that of
    [redo()] fails, the local state holds the [execute] of the command and
    the cursor has moved onto it.  In both cases the flag is released and
    the selection is left as it was. *)
Theorem rejected_undo_or_redo_keeps_the_local_change s (c : Command)
  (t1 t2 : num) :
  pending s = [] -> isExecutingCommandRef s = false ->
  (CommandHistory.undo_target (commandHistoryRef s) = Some c ->
   (forall cs, c <> UpdateMultipleObjects cs) ->
   let s1 := settle 0 false t2 (undo t1 s) in
   items (objects s1)
   = local_run (Commands.undo c) (fun _ => t1) 0 (items (objects s))
   /\ commandHistoryRef s1 = commandHistoryRef s
   /\ CommandHistory.undo_target (commandHistoryRef s1) = Some c
   /\ isExecutingCommandRef s1 = false /\ pending s1 = []
   /\ selectedIds s1 = selectedIds s)
  /\ (CommandHistory.canRedo (commandHistoryRef s) = true ->
      snd (CommandHistory.redo_start (commandHistoryRef s)) = CommandHistory.Awaits c ->
      let s1 := settle 0 false t2 (redo t1 s) in
      items (objects s1)
      = local_run (execute c) (fun _ => t1) 0 (items (objects s))
      /\ CommandHistory.currentIndex (commandHistoryRef s1)
         = (CommandHistory.currentIndex (commandHistoryRef s) + 1)%Z
      /\ CommandHistory.history (commandHistoryRef s1)
         = CommandHistory.history (commandHistoryRef s)
      /\ isExecutingCommandRef s1 = false /\ pending s1 = []
      /\ selectedIds s1 = selectedIds s).
Proof.
  intros Hp Hflag. split.
  - intros Ht Hc s1.
    destruct (single_stage c Hc) as (u & e & Hu & He).
    destruct (undo_target_started _ _ Ht) as [Hcan Hstart].
    set (S1 := run_stage t1 u (with_executing true s)).
    destruct (run_stage_framed t1 u (with_executing true s))
      as (_ & Hsel & Hlog1 & _ & _ & Hp1). fold S1 in Hsel, Hlog1, Hp1.
    cbn [commandHistoryRef pending selectedIds with_executing] in Hsel, Hlog1, Hp1.
    rewrite Hp in Hp1.
    assert (Hs1 : s1 = fail AfterUndo (with_pending [] S1)).
    { unfold s1, undo. rewrite Hflag, Hcan. cbn [negb].
      cbn [commandHistoryRef with_executing]. rewrite Hstart, Hu.
      cbn [suspend]. fold S1. apply settle_single_rejected. exact Hp1. }
    assert (Hh : commandHistoryRef s1 = commandHistoryRef s)
      by (rewrite Hs1; exact Hlog1).
    split; [|split; [|split; [|split; [|split]]]].
    + rewrite Hs1, Hu. cbn [fail objects with_executing with_pending local_run].
      unfold S1. rewrite run_stage_items. reflexivity.
    + exact Hh.
    + rewrite Hh. exact Ht.
    + rewrite Hs1. reflexivity.
    + rewrite Hs1. reflexivity.
    + rewrite Hs1. exact Hsel.
  - intros Hcan Hstart s1.
    assert (He : exists e, execute c = [e])
      by (destruct c; cbn; eauto).
    destruct He as [e He].
    assert (Hredo : CommandHistory.redo_start (commandHistoryRef s)
                    = (CommandHistory.make (CommandHistory.history (commandHistoryRef s))
                         (CommandHistory.currentIndex (commandHistoryRef s) + 1),
                       CommandHistory.Awaits c)).
    { unfold CommandHistory.redo_start in *. rewrite Hcan in *.
      cbn [snd] in Hstart. rewrite Hstart. reflexivity. }
    set (h' := CommandHistory.make (CommandHistory.history (commandHistoryRef s))
                 (CommandHistory.currentIndex (commandHistoryRef s) + 1)) in *.
    set (s' := with_history h' (with_executing true s)).
    set (S1 := run_stage t1 e s').
    destruct (run_stage_framed t1 e s') as (_ & Hsel & Hlog1 & _ & _ & Hp1).
    fold S1 in Hsel, Hlog1, Hp1.
    cbn [commandHistoryRef pending selectedIds with_executing with_history s']
      in Hsel, Hlog1, Hp1.
    rewrite Hp in Hp1.
    assert (Hs1 : s1 = fail AfterRedo (with_pending [] S1)).
    { unfold s1, redo. rewrite Hflag, Hcan. cbn [negb].
      cbn [commandHistoryRef with_executing]. rewrite Hredo, He.
      cbn [suspend]. fold s' S1. apply settle_single_rejected. exact Hp1. }
    assert (Hh : commandHistoryRef s1 = h') by (rewrite Hs1; exact Hlog1).
    split; [|split; [|split; [|split; [|split]]]].
    + rewrite Hs1, He. cbn [fail objects with_executing with_pending local_run].
      unfold S1. rewrite run_stage_items. reflexivity.
    + rewrite Hh. reflexivity.
    + rewrite Hh. reflexivity.
    + rewrite Hs1. reflexivity.
    + rewrite Hs1. reflexivity.
    + rewrite Hs1. exact Hsel.
Qed.

Lemma rejected_undo_or_redo_keeps_the_local_change_witness :
  let s := with_pending [] Sample.session in
  let s1 := settle 0 false (of_Z 2001) (undo (of_Z 2000) s) in
  items (objects s1) = [Sample.rectangle]
  /\ commandHistoryRef s1 = commandHistoryRef s
  /\ CommandHistory.undo_target (commandHistoryRef s1) = Some (AddObject Sample.circle)
  /\ isExecutingCommandRef s1 = false /\ pending s1 = []
  /\ selectedIds s1 = ["a"; "b"]%string.
Proof.
  intros s s1.
  destruct (rejected_undo_or_redo_keeps_the_local_change s (AddObject Sample.circle)
              (of_Z 2000) (of_Z 2001) eq_refl eq_refl) as [Hundo _].
  apply Hundo; [reflexivity|discriminate].
Defined.

Lemma find_after_filter i (l : list CanvasObject) :
  find (has_id i) (filter (fun obj => negb (has_id i obj)) l) = None.
Proof.
  induction l as [|o l IH]; [reflexivity|]. cbn.
  destruct (has_id i o) eqn:E; cbn; [exact IH|]. rewrite E. exact IH.
Qed.

(** X19. An accepted [deleteObject] removes every object with the id from
    the local array, sends one [deleteDoc], logs the command with the object
    it found and resets [selectedId] if it named the object; it leaves
    [selectedIds] as it is, the deleted id included. *)
Theorem deleteObject_removes_and_keeps_selectedIds s i (now : num)
  (uid : string) o :
  currentUser s = Some uid -> isExecutingCommandRef s = false ->
  find (has_id i) (items (objects s)) = Some o ->
  let s' := deleteObject i now s in
  items (objects s') = filter (fun obj => negb (has_id i obj)) (items (objects s))
  /\ find (has_id i) (items (objects s')) = None
  /\ firestore s' = firestore s ++ [DeleteDoc i]
  /\ commandHistoryRef s'
     = CommandHistory.executeCommand (DeleteObject o) (commandHistoryRef s)
  /\ selectedId s' <> Some i
  /\ (forall j, j <> i -> selectedId s = Some j -> selectedId s' = Some j)
  /\ selectedIds s' = selectedIds s.
Proof.
  intros Huser Hflag Hfind s'.
  assert (Hid : id o = i).
  { apply find_some in Hfind as [_ Hi]. apply String.eqb_eq. exact Hi. }
  set (s0 := match selectedId s with
             | Some j => if String.eqb j i
                         then with_selection None (selectedIds s) s else s
             | None => s
             end).
  assert (Hs' : s' = commit (DeleteObject o) false now s0).
  { unfold s', deleteObject. rewrite Huser, Hflag, Hfind. reflexivity. }
  assert (H0 : objects s0 = objects s /\ firestore s0 = firestore s
               /\ commandHistoryRef s0 = commandHistoryRef s
               /\ selectedIds s0 = selectedIds s
               /\ selectedId s0 <> Some i
               /\ (forall j, j <> i -> selectedId s = Some j -> selectedId s0 = Some j)).
  { unfold s0. destruct (selectedId s) as [j|] eqn:Hsel.
    - destruct (String.eqb_spec j i) as [->|Hne].
      + do 4 (split; [reflexivity|]). split; [discriminate|].
        intros j Hj [= <-]. contradiction.
      + do 4 (split; [reflexivity|]). rewrite Hsel. split.
        * intros [= ->]. contradiction.
        * intros j0 _ Heq. exact Heq.
    - do 4 (split; [reflexivity|]). rewrite Hsel. split; [discriminate|].
      intros j _ Heq. exact Heq. }
  destruct H0 as (Hobj & Hfs & Hlog & Hids & Hsel & Hkeep).
  assert (Hitems : items (objects s')
                   = filter (fun obj => negb (has_id i obj)) (items (objects s))).
  { rewrite Hs'. unfold commit. cbn [execute suspend].
    unfold run_stage, DeleteObjectCommand.execute. cbn [fold_left run_effect].
    unfold removeFromFirestore, updateObjectsState, alloc.
    cbn [items objects with_pending with_firestore with_history with_objects with_heap].
    rewrite Hid, Hobj. reflexivity. }
  split; [exact Hitems|]. split; [rewrite Hitems; apply find_after_filter|].
  split; [|split; [|split; [|split]]].
  - rewrite Hs'. unfold commit. cbn [execute suspend].
    unfold run_stage, DeleteObjectCommand.execute. cbn [fold_left run_effect].
    unfold removeFromFirestore, updateObjectsState, alloc.
    cbn [firestore with_pending with_firestore with_history with_objects with_heap].
    rewrite Hid, Hfs. reflexivity.
  - rewrite Hs', <- Hlog. exact (proj1 (commit_log_and_flag _ false now s0)).
  - rewrite Hs'. exact Hsel.
  - intros j Hj Hs. rewrite Hs'. exact (Hkeep j Hj Hs).
  - rewrite Hs'. exact Hids.
Qed.

Lemma deleteObject_removes_and_keeps_selectedIds_witness :
  let s := selectObject (Some "a"%string) Sample.session in
  let s' := deleteObject "a" (of_Z 2000) s in
  selectedId s = Some "a"%string
  /\ items (objects s') = [Sample.circle]
  /\ firestore s' = firestore s ++ [DeleteDoc "a"]
  /\ selectedId s' <> Some "a"%string
  /\ selectedIds s' = ["a"%string].
Proof.
  intros s s'.
  destruct (deleteObject_removes_and_keeps_selectedIds s "a" (of_Z 2000) "u"
              Sample.rectangle eq_refl eq_refl eq_refl)
    as (H1 & _ & H3 & _ & H5 & _ & H7).
  split; [reflexivity|]. split; [exact H1|]. split; [exact H3|].
  split; [exact H5|exact H7].
Defined.

(** X20. An accepted [createGroup] under a new id appends the group object
    to the local array and writes it with one [setDoc]; the group names the
    selected ids, in their order, as its [groupedObjects], and the members
    are left as they are.  The selection is cleared once the write is
    acknowledged; when the write is rejected the selection stays, and so do
    the group in the local array and the command in the log. *)
Theorem createGroup_appends_the_group s (newId : string) (now t' : num)
  (uid : string) :
  currentUser s = Some uid -> (2 <= List.length (selectedIds s))%nat ->
  find (has_id newId) (items (objects s)) = None -> pending s = [] ->
  let g := newGroupObject newId now s uid in
  let started := createGroup newId now s in
  let fulfilled := settle 0 true t' started in
  let rejected := settle 0 false t' started in
  (id g = newId /\ type g = "group"%string
   /\ get "groupedObjects" g = VArr (map VStr (selectedIds s))
   /\ get "createdBy" g = VStr uid
   /\ get "createdAt" g = VNum now /\ get "lastModified" g = VNum now)
  /\ (items (objects started) = items (objects s) ++ [g]
      /\ firestore started
         = firestore s ++ [SetDoc newId (removeUndefinedValues (VObj g))]
      /\ selectedIds started = selectedIds s)
  /\ (items (objects fulfilled) = items (objects s) ++ [g]
      /\ selectedId fulfilled = None /\ selectedIds fulfilled = []
      /\ pending fulfilled = [])
  /\ (items (objects rejected) = items (objects s) ++ [g]
      /\ selectedIds rejected = selectedIds s
      /\ commandHistoryRef rejected
         = CommandHistory.executeCommand (CreateGroup g (selectedIds s))
             (commandHistoryRef s)
      /\ pending rejected = []).
Proof.
  intros Huser Hsel Hnew Hp g started fulfilled rejected.
  assert (Hget : forall k, get k g
            = if String.eqb k "lastModified" then VNum now
              else if String.eqb k "createdAt" then VNum now
              else if String.eqb k "id" then VStr newId
              else get k (groupObject uid (selectedIds s) (selectedObjects s))).
  { intros k. unfold g, newGroupObject. rewrite !get_set. reflexivity. }
  assert (Hid : id g = newId) by (unfold id; rewrite Hget; reflexivity).
  set (c := CreateGroup g (selectedIds s)).
  set (s0 := with_history (CommandHistory.executeCommand c (commandHistoryRef s)) s).
  set (S := run_stage now (CreateGroupCommand.execute g) s0).
  assert (Hstarted : started = with_pending
                                 (pending S ++ [mkPending (AfterExecuteCommand true) []]) S).
  { unfold started, createGroup. rewrite Huser.
    destruct (Nat.ltb_spec (List.length (selectedIds s)) 2) as [Hlt|_]; [lia|].
    reflexivity. }
  destruct (run_stage_framed now (CreateGroupCommand.execute g) s0)
    as (HselId & HselIds & Hlog & _ & _ & HpS).
  fold S in HselId, HselIds, Hlog, HpS.
  cbn [selectedId selectedIds commandHistoryRef pending with_history s0]
    in HselId, HselIds, Hlog, HpS.
  rewrite Hp in HpS.
  assert (HS : items (objects S) = items (objects s) ++ [g]
               /\ firestore S
                  = firestore s ++ [SetDoc newId (removeUndefinedValues (VObj g))]).
  { unfold S, run_stage, CreateGroupCommand.execute. cbn [fold_left run_effect].
    unfold addToFirestore, updateObjectsState, alloc.
    cbn [items objects firestore with_history s0]. rewrite Hid, Hnew.
    split; reflexivity. }
  destruct HS as [Hitems Hstore].
  assert (Hful : fulfilled = finish (AfterExecuteCommand true) (with_pending [] S)).
  { unfold fulfilled. rewrite Hstarted. apply settle_single. exact HpS. }
  assert (Hrej : rejected = fail (AfterExecuteCommand true) (with_pending [] S)).
  { unfold rejected. rewrite Hstarted. apply settle_single_rejected. exact HpS. }
  split; [|split; [|split]].
  - split; [exact Hid|]. unfold type. rewrite !Hget. repeat split.
  - rewrite Hstarted. cbn [items objects firestore selectedIds with_pending].
    repeat split; assumption.
  - rewrite Hful. cbn [finish clearSelection with_selection items objects selectedId
                       selectedIds pending with_pending].
    repeat split. exact Hitems.
  - rewrite Hrej. cbn [fail items objects selectedIds commandHistoryRef pending with_pending].
    repeat split; assumption.
Qed.

Lemma createGroup_appends_the_group_witness :
  let s := with_pending [] Sample.session in
  let g := newGroupObject "g" (of_Z 2000) s "u" in
  let started := createGroup "g" (of_Z 2000) s in
  get "groupedObjects" g = VArr [VStr "a"; VStr "b"]
  /\ items (objects started) = [Sample.rectangle; Sample.circle; g]
  /\ selectedIds (settle 0 true (of_Z 2001) started) = []
  /\ selectedIds (settle 0 false (of_Z 2001) started) = ["a"; "b"]%string.
Proof.
  intros s g started.
  destruct (createGroup_appends_the_group s "g" (of_Z 2000) (of_Z 2001) "u"
              eq_refl) as ((_ & _ & Hg & _) & (Hitems & _) & (_ & _ & Hclear & _)
                           & (_ & Hkeep & _));
    try reflexivity.
  split; [exact Hg|]. split; [exact Hitems|]. split; [exact Hclear|exact Hkeep].
Defined.
End SessionFlows.

(** ** Boxes *)

Section Boxes.
Import Js Commands Canvas.

Lemma min_PosInf_l (c : num) : min PosInf c = c.
Proof. destruct c; reflexivity. Qed.

Lemma max_NegInf_l (c : num) : max NegInf c = c.
Proof. destruct c; reflexivity. Qed.

Lemma extend_union b obj : extend b obj = rule_union b (own_extent obj).
Proof.
  unfold own_extent, extend, rule_union.
  destruct (String.eqb (type obj) "line"); cbn [minX minY maxX maxY].
  - rewrite !min_PosInf_l, !max_NegInf_l, !min_assoc, !max_assoc. reflexivity.
  - destruct (String.eqb (type obj) "circle"); cbn [minX minY maxX maxY];
      rewrite !min_PosInf_l, !max_NegInf_l; reflexivity.
Qed.

Lemma leb_refl_fin (p : Qc) : leb (Fin p) (Fin p) = true.
Proof. cbn. unfold Qc_leb. apply Qle_bool_iff. apply Qle_refl. Qed.

Lemma Qc_leb_trans (p q r : Qc) :
  Qc_leb p q = true -> Qc_leb q r = true -> Qc_leb p r = true.
Proof.
  unfold Qc_leb. rewrite !Qle_bool_iff. apply Qle_trans.
Qed.

Lemma Qc_leb_total (p q : Qc) : Qc_leb p q = false -> Qc_leb q p = true.
Proof.
  intros H. apply Qc_leb_gt in H. unfold Qc_leb. apply Qle_bool_iff. exact H.
Qed.

(** A running minimum over finite candidates. *)
Lemma fold_min_below (f : CanvasObject -> num) (objs : list CanvasObject) :
  (forall o, In o objs -> isFinite (f o) = true) ->
  forall a, (a = PosInf \/ isFinite a = true) ->
  let r := fold_left (fun acc o => min acc (f o)) objs a in
  (r = PosInf \/ isFinite r = true)
  /\ leb r a = true
  /\ (forall o, In o objs -> leb r (f o) = true)
  /\ (objs <> [] -> isFinite r = true).
Proof.
  induction objs as [|o objs IH]; intros Hall a Ha; cbn [fold_left].
  - split; [exact Ha|]. split.
    + destruct Ha as [->|Ha]; [reflexivity|].
      destruct a; try discriminate. apply leb_refl_fin.
    + split; [intros o []|intros H; contradiction].
  - assert (Ho : isFinite (f o) = true) by (apply Hall; left; reflexivity).
    destruct (f o) as [| |q|] eqn:Hf; try discriminate.
    assert (Hm : isFinite (min a (Fin q)) = true
                 /\ leb (min a (Fin q)) a = true
                 /\ leb (min a (Fin q)) (Fin q) = true).
    { destruct Ha as [->|Ha].
      - cbn. split; [reflexivity|]. split; [reflexivity|].
        unfold Qc_leb. apply Qle_bool_iff, Qle_refl.
      - destruct a as [| |p|]; try discriminate. cbn.
        destruct (Qc_leb p q) eqn:E; cbn.
        + split; [reflexivity|]. split; [|exact E].
          unfold Qc_leb. apply Qle_bool_iff, Qle_refl.
        + split; [reflexivity|]. split; [apply Qc_leb_total, E|].
          unfold Qc_leb. apply Qle_bool_iff, Qle_refl. }
    destruct Hm as (Hfin & Hle_a & Hle_q).
    destruct (IH (fun o' Hin => Hall o' (or_intror Hin)) (min a (Fin q)) (or_intror Hfin))
      as (Hshape & Hle & Hall' & Hne).
    set (r := fold_left (fun acc o0 => min acc (f o0)) objs (min a (Fin q))) in *.
    assert (Hr : isFinite r = true).
    { destruct Hshape as [Hr|Hr]; [|exact Hr].
      rewrite Hr in Hle. destruct (min a (Fin q)); discriminate. }
    destruct r as [| |m|] eqn:Er; try discriminate.
    split; [right; reflexivity|]. split; [|split].
    + destruct (min a (Fin q)) as [| |p'|] eqn:Em; try discriminate.
      destruct a as [| |p|]; try discriminate; [|reflexivity].
      cbn in *. eapply Qc_leb_trans; eassumption.
    + intros o' [<-|Hin].
      * rewrite Hf. destruct (min a (Fin q)) as [| |p'|]; try discriminate.
        cbn in *. eapply Qc_leb_trans; eassumption.
      * apply Hall'. exact Hin.
    + intros _. reflexivity.
Qed.
Lemma fold_max_above (f : CanvasObject -> num) (objs : list CanvasObject) :
  (forall o, In o objs -> isFinite (f o) = true) ->
  forall a, (a = NegInf \/ isFinite a = true) ->
  let r := fold_left (fun acc o => max acc (f o)) objs a in
  (r = NegInf \/ isFinite r = true)
  /\ leb a r = true
  /\ (forall o, In o objs -> leb (f o) r = true)
  /\ (objs <> [] -> isFinite r = true).
Proof.
  induction objs as [|o objs IH]; intros Hall a Ha; cbn [fold_left].
  - split; [exact Ha|]. split.
    + destruct Ha as [->|Ha]; [reflexivity|].
      destruct a; try discriminate. apply leb_refl_fin.
    + split; [intros o []|intros H; contradiction].
  - assert (Ho : isFinite (f o) = true) by (apply Hall; left; reflexivity).
    destruct (f o) as [| |q|] eqn:Hf; try discriminate.
    assert (Hm : isFinite (max a (Fin q)) = true
                 /\ leb a (max a (Fin q)) = true
                 /\ leb (Fin q) (max a (Fin q)) = true).
    { destruct Ha as [->|Ha].
      - cbn. split; [reflexivity|]. split; [reflexivity|].
        unfold Qc_leb. apply Qle_bool_iff, Qle_refl.
      - destruct a as [| |p|]; try discriminate. cbn.
        destruct (Qc_leb p q) eqn:E; cbn.
        + split; [reflexivity|]. split; [exact E|].
          unfold Qc_leb. apply Qle_bool_iff, Qle_refl.
        + split; [reflexivity|]. split; [|apply Qc_leb_total, E].
          unfold Qc_leb. apply Qle_bool_iff, Qle_refl. }
    destruct Hm as (Hfin & Hle_a & Hle_q).
    destruct (IH (fun o' Hin => Hall o' (or_intror Hin)) (max a (Fin q)) (or_intror Hfin))
      as (Hshape & Hle & Hall' & Hne).
    set (r := fold_left (fun acc o0 => max acc (f o0)) objs (max a (Fin q))) in *.
    assert (Hr : isFinite r = true).
    { destruct Hshape as [Hr|Hr]; [|exact Hr].
      rewrite Hr in Hle. destruct (max a (Fin q)); discriminate. }
    destruct r as [| |m|] eqn:Er; try discriminate.
    split; [right; reflexivity|]. split; [|split].
    + destruct (max a (Fin q)) as [| |p'|] eqn:Em; try discriminate.
      destruct a as [| |p|]; try discriminate; [reflexivity|].
      cbn in *. eapply Qc_leb_trans; eassumption.
    + intros o' [<-|Hin].
      * rewrite Hf. destruct (max a (Fin q)) as [| |p'|]; try discriminate.
        cbn in *. eapply Qc_leb_trans; eassumption.
      * apply Hall'. exact Hin.
    + intros _. reflexivity.
Qed.

Lemma fold_extend_projections objs : forall b,
  let r := fold_left extend objs b in
  minX r = fold_left (fun acc o => min acc (minX (own_extent o))) objs (minX b)
  /\ minY r = fold_left (fun acc o => min acc (minY (own_extent o))) objs (minY b)
  /\ maxX r = fold_left (fun acc o => max acc (maxX (own_extent o))) objs (maxX b)
  /\ maxY r = fold_left (fun acc o => max acc (maxY (own_extent o))) objs (maxY b).
Proof.
  induction objs as [|o objs IH]; intros b; cbn [fold_left].
  - repeat split.
  - destruct (IH (extend b o)) as (H1 & H2 & H3 & H4).
    cbn zeta. rewrite H1, H2, H3, H4, extend_union. repeat split.
Qed.

Lemma Qc_leb_minus (p q c : Qc) :
  Qc_leb p q = true -> Qc_leb (p - c) (q - c) = true.
Proof.
  intros H. apply Qc_leb_le in H.
  unfold Qc_leb. apply Qle_bool_iff.
  change ((p - c)%Qc <= (q - c)%Qc)%Qc.
  unfold Qcminus. apply Qcplus_le_compat; [exact H|apply Qcle_refl].
Qed.

Lemma Qc_leb_plus (p q c : Qc) :
  Qc_leb p q = true -> Qc_leb (p + c) (q + c) = true.
Proof.
  intros H. apply Qc_leb_le in H.
  unfold Qc_leb. apply Qle_bool_iff.
  change ((p + c)%Qc <= (q + c)%Qc)%Qc.
  apply Qcplus_le_compat; [exact H|apply Qcle_refl].
Qed.

Lemma finite_bounds_parts (b : Bounds) :
  finite_bounds b = true ->
  isFinite (minX b) = true /\ isFinite (minY b) = true
  /\ isFinite (maxX b) = true /\ isFinite (maxY b) = true.
Proof.
  unfold finite_bounds. intros H.
  apply andb_prop in H as [H H4]. apply andb_prop in H as [H H3].
  apply andb_prop in H as [H1 H2]. auto.
Qed.

(** X21. When the loop of [createGroup] gives every selected object, taken
    alone, a finite extent, the box of the group is finite and holds the
    extent of each selected object with the padding of 20 around it. *)
Theorem group_box_contains_each_member objs :
  objs <> [] ->
  (forall obj, In obj objs -> finite_bounds (own_extent obj) = true) ->
  finite_bounds (padded_bounds objs) = true
  /\ forall obj, In obj objs ->
       contains (padded_bounds objs) (padded_bounds [obj]) = true.
Proof.
  intros Hne Hall.
  assert (Hpart : forall obj, In obj objs ->
            isFinite (minX (own_extent obj)) = true
            /\ isFinite (minY (own_extent obj)) = true
            /\ isFinite (maxX (own_extent obj)) = true
            /\ isFinite (maxY (own_extent obj)) = true)
    by (intros obj Hin; apply finite_bounds_parts, Hall, Hin).
  destruct (fold_extend_projections objs (mkBounds PosInf PosInf NegInf NegInf))
    as (H1 & H2 & H3 & H4). cbn [minX minY maxX maxY] in H1, H2, H3, H4.
  destruct (fold_min_below (fun o => minX (own_extent o)) objs
              (fun o Hin => proj1 (Hpart o Hin)) PosInf (or_introl eq_refl))
    as (_ & _ & Hx & Hfx).
  destruct (fold_min_below (fun o => minY (own_extent o)) objs
              (fun o Hin => proj1 (proj2 (Hpart o Hin))) PosInf (or_introl eq_refl))
    as (_ & _ & Hy & Hfy).
  destruct (fold_max_above (fun o => maxX (own_extent o)) objs
              (fun o Hin => proj1 (proj2 (proj2 (Hpart o Hin)))) NegInf (or_introl eq_refl))
    as (_ & _ & HX & HfX).
  destruct (fold_max_above (fun o => maxY (own_extent o)) objs
              (fun o Hin => proj2 (proj2 (proj2 (Hpart o Hin)))) NegInf (or_introl eq_refl))
    as (_ & _ & HY & HfY).
  rewrite <- H1 in Hx, Hfx. rewrite <- H2 in Hy, Hfy.
  rewrite <- H3 in HX, HfX. rewrite <- H4 in HY, HfY.
  specialize (Hfx Hne). specialize (Hfy Hne).
  specialize (HfX Hne). specialize (HfY Hne).
  unfold padded_bounds.
  set (b := fold_left extend objs (mkBounds PosInf PosInf NegInf NegInf)) in *.
  destruct (minX b) as [| |a|] eqn:Ea; try discriminate.
  destruct (minY b) as [| |a'|] eqn:Ea'; try discriminate.
  destruct (maxX b) as [| |c|] eqn:Ec; try discriminate.
  destruct (maxY b) as [| |c'|] eqn:Ec'; try discriminate.
  split; [reflexivity|].
  intros obj Hin.
  specialize (Hx obj Hin). specialize (Hy obj Hin).
  specialize (HX obj Hin). specialize (HY obj Hin).
  destruct (Hpart obj Hin) as (F1 & F2 & F3 & F4).
  cbn [fold_left]. fold (own_extent obj).
  destruct (minX (own_extent obj)) as [| |q1|]; try discriminate.
  destruct (minY (own_extent obj)) as [| |q2|]; try discriminate.
  destruct (maxX (own_extent obj)) as [| |q3|]; try discriminate.
  destruct (maxY (own_extent obj)) as [| |q4|]; try discriminate.
  unfold contains, padding, of_Z. cbn [minX minY maxX maxY sub add leb] in *.
  rewrite (Qc_leb_minus _ _ _ Hx), (Qc_leb_minus _ _ _ Hy),
          (Qc_leb_plus _ _ _ HX), (Qc_leb_plus _ _ _ HY).
  reflexivity.
Qed.

Lemma group_box_contains_each_member_witness :
  let objs := [Sample.line; Sample.circle] in
  finite_bounds (padded_bounds objs) = true
  /\ forall obj, In obj objs ->
       contains (padded_bounds objs) (padded_bounds [obj]) = true.
Proof.
  intros objs.
  apply (group_box_contains_each_member objs).
  - discriminate.
  - intros obj [<-|[<-|[]]]; reflexivity.
Defined.
Lemma export_fold_skips_groups objs : forall b,
  fold_left export_extend objs b
  = fold_left export_extend
      (filter (fun obj => negb (String.eqb (type obj) "group")) objs) b.
Proof.
  induction objs as [|o objs IH]; intros b; [reflexivity|].
  cbn [fold_left filter].
  destruct (String.eqb (type o) "group") eqn:E; cbn [negb fold_left].
  - unfold export_extend at 2. rewrite E. apply IH.
  - apply IH.
Qed.

(** X22. The area that [exportCanvasAsPNG] computes leaves group
    containers out; with no other object, and whenever the padded [minX]
    is not a finite number, it is the default area from (0, 0) to
    (1920, 1080), so its [minX] is always finite; and the end point of a
    line, [x2] and [y2], plays no part in it. *)
Theorem export_area_skips_groups_and_has_a_default :
  (forall objs,
     export_bounds objs
     = export_bounds (filter (fun obj => negb (String.eqb (type obj) "group")) objs))
  /\ (forall objs,
       (forall obj, In obj objs -> type obj = "group"%string) ->
       export_bounds objs = export_default)
  /\ (forall objs, isFinite (minX (export_bounds objs)) = true)
  /\ (forall b obj v w,
       export_extend b (set "y2" w (set "x2" v obj)) = export_extend b obj).
Proof.
  split; [|split; [|split]].
  - intros objs. unfold export_bounds.
    rewrite (export_fold_skips_groups objs). reflexivity.
  - intros objs Hall. unfold export_bounds.
    rewrite (export_fold_skips_groups objs).
    rewrite filter_none; [reflexivity|].
    intros obj Hin. rewrite (Hall obj Hin). reflexivity.
  - intros objs. unfold export_bounds. cbn zeta. cbn [minX].
    set (m := sub (minX (fold_left export_extend objs
                           (mkBounds PosInf PosInf NegInf NegInf))) export_padding).
    destruct (isFinite m) eqn:E; cbn [negb minX]; [exact E|reflexivity].
  - intros b obj v w. unfold export_extend, type, x, y.
    rewrite !get_set. reflexivity.
Qed.
End Boxes.
